(** * market-news-mail: filter engine, deduplication ledger and pipeline

    A shallow embedding of [filter_engine.py], [database_manager.py]
    (content hash), [src/data/hash_database_manager.py] and the run function
    of [src/core/processor.py], with the properties of the design document
    stated and settled against it.

    Conventions of the embedding.
    - A Python [str] is a [string]; one [ascii] stands for one character.
    - A Python value stored in an article or used as a comparand is a
      [pyval]: [None], a [str] or an [int].
    - An article ([Dict]) is a finite map from key to [pyval].
    - A function that can raise returns [exc]; [try_except] is the
      [try: ... except Exception:] block.
    - The filter engine owns a regex cache, so its methods run in the state
      monad [M] over the engine.
    - [re], [hashlib.md5], the SQL [ORDER BY] and the external collaborators
      of the pipeline are parameters of the sections that use them. *)

From Stdlib Require Import ZArith List Ascii String Bool Lia Permutation Sorted.
From stdpp Require Import base option gmap strings list pretty sorting.

Local Open Scope string_scope.
Local Open Scope list_scope.
Local Open Scope Z_scope.

(** ** Python values, exceptions and string operations *)

Module Py.

Inductive pyval : Type :=
| PyNone
| PyStr (s : string)
| PyInt (z : Z).

#[global] Instance pyval_eq_dec : EqDecision pyval.
Proof. solve_decision. Defined.

Definition pyval_to_sum (v : pyval) : option (string + Z) :=
  match v with
  | PyNone => None
  | PyStr s => Some (inl s)
  | PyInt z => Some (inr z)
  end.

Definition pyval_of_sum (o : option (string + Z)) : pyval :=
  match o with
  | None => PyNone
  | Some (inl s) => PyStr s
  | Some (inr z) => PyInt z
  end.

#[global] Instance pyval_countable : Countable pyval.
Proof.
  apply (inj_countable' pyval_to_sum pyval_of_sum).
  intros []; reflexivity.
Defined.

Inductive exn : Type :=
| ValueError (msg : string)
| AttributeError
| TypeError
| KeyError
| OverflowError.

Inductive exc (A : Type) : Type :=
| Ok (a : A)
| Raise (e : exn).

Arguments Ok {A} a.
Arguments Raise {A} e.

Definition exc_bind {A B} (m : exc A) (k : A -> exc B) : exc B :=
  match m with
  | Ok a => k a
  | Raise e => Raise e
  end.

(** [str(v)]. *)
Definition str (v : pyval) : string :=
  match v with
  | PyNone => "None"
  | PyStr s => s
  | PyInt z => pretty z
  end.

(** Truthiness of a value, as in [if link]. *)
Definition truthy (v : pyval) : bool :=
  match v with
  | PyNone => false
  | PyStr s => negb (String.eqb s "")
  | PyInt z => negb (z =? 0)
  end.

(** An article: a dictionary from key to value. *)
Abbreviation Dict := (gmap string pyval).

(** [d.get(key, default)]. *)
Definition get_or (d : Dict) (key : string) (dflt : pyval) : pyval :=
  default dflt (d !! key).

(** [d.get(key)]. *)
Definition get (d : Dict) (key : string) : pyval := get_or d key PyNone.

(** [c.lower()] on one character. *)
Definition lower_ascii (c : ascii) : ascii :=
  let n := N_of_ascii c in
  if ((65 <=? n) && (n <=? 90))%N then ascii_of_N (n + 32) else c.

(** [s.lower()], on ASCII text: the letters A to Z are folded, every other
    character is kept. *)
Fixpoint lower (s : string) : string :=
  match s with
  | EmptyString => EmptyString
  | String c s' => String (lower_ascii c) (lower s')
  end.

(** [s.startswith(p)]. *)
Fixpoint startswith (s p : string) : bool :=
  match p, s with
  | EmptyString, _ => true
  | String _ _, EmptyString => false
  | String a p', String b s' => if Ascii.eqb a b then startswith s' p' else false
  end.

(** [p in s]. *)
Fixpoint str_in (p s : string) : bool :=
  startswith s p ||
  match s with
  | EmptyString => false
  | String _ s' => str_in p s'
  end.

Fixpoint str_rev_onto (s acc : string) : string :=
  match s with
  | EmptyString => acc
  | String c s' => str_rev_onto s' (String c acc)
  end.

Definition str_rev (s : string) : string := str_rev_onto s EmptyString.

(** [s.endswith(p)]. *)
Definition endswith (s p : string) : bool := startswith (str_rev s) (str_rev p).

(** [s[:n]]. *)
Fixpoint slice_to (n : nat) (s : string) : string :=
  match n, s with
  | O, _ => EmptyString
  | S _, EmptyString => EmptyString
  | S n', String c s' => String c (slice_to n' s')
  end.

(** Characters removed by [str.strip()], on ASCII text: tab to carriage
    return, the four separators and the blank. *)
Definition is_space (c : ascii) : bool :=
  let n := N_of_ascii c in
  (((9 <=? n) && (n <=? 13)) || ((28 <=? n) && (n <=? 32)))%N.

Fixpoint lstrip (s : string) : string :=
  match s with
  | EmptyString => EmptyString
  | String c s' => if is_space c then lstrip s' else s
  end.

(** [s.strip()]. *)
Definition strip (s : string) : string := str_rev (lstrip (str_rev (lstrip s))).

(** A string of characters that [str.strip()] removes. *)
Fixpoint only_spaces (s : string) : bool :=
  match s with
  | EmptyString => true
  | String c s' => is_space c && only_spaces s'
  end.

(** [s.replace(a, b)] for single characters. *)
Fixpoint replace_char (a b : ascii) (s : string) : string :=
  match s with
  | EmptyString => EmptyString
  | String c s' => String (if Ascii.eqb c a then b else c) (replace_char a b s')
  end.

(** The receiver of a [str] method: anything else has no such attribute. *)
Definition as_str (v : pyval) : exc string :=
  match v with
  | PyStr s => Ok s
  | _ => Raise AttributeError
  end.

(** [v[:n]]: defined on [str] only. *)
Definition py_slice_to (n : nat) (v : pyval) : exc string :=
  match v with
  | PyStr s => Ok (slice_to n s)
  | _ => Raise TypeError
  end.

End Py.

(** ** filter_engine.py *)

Module FilterEngine.
Import Py.

Inductive FilterOperator : Type := AND | OR | NOT.

Inductive MatchType : Type := CONTAINS | EXACT | REGEX | STARTS_WITH | ENDS_WITH.

#[global] Instance FilterOperator_eq_dec : EqDecision FilterOperator.
Proof. solve_decision. Defined.

Record FilterCondition : Type := {
  field : string;
  value : pyval;
  match_type : MatchType;
  case_sensitive : bool;
  operator : FilterOperator
}.

(** [created_at] is set in [__post_init__] and never read by the engine. *)
Record FilterRule : Type := {
  name : string;
  conditions : list FilterCondition;
  priority : Z;
  is_active : bool
}.

(** [re.IGNORECASE]. *)
Definition IGNORECASE : Z := 2.

(** [sorted(rules, key=lambda x: x.priority, reverse=True)]: Python's sort
    is stable, and [reverse=True] keeps the original order of equal keys. *)
Fixpoint insert_by_priority (r : FilterRule) (l : list FilterRule) : list FilterRule :=
  match l with
  | [] => [r]
  | r' :: l' =>
      if priority r' <=? priority r then r :: l else r' :: insert_by_priority r l'
  end.

Definition sorted_by_priority_desc (l : list FilterRule) : list FilterRule :=
  foldr insert_by_priority [] l.

(** The order [sorted_by_priority_desc] establishes: priorities do not
    increase along the list. *)
Definition priority_desc (r1 r2 : FilterRule) : Prop := priority r2 <= priority r1.

(** The rules of a given priority, in the order of the list. *)
Definition with_priority (p : Z) (l : list FilterRule) : list FilterRule :=
  filter (fun r => priority r = p) l.

(** A condition as the presets and [create_keyword_filter] build it:
    a case-insensitive substring test combined with OR. *)
Definition keyword_condition (f v : string) : FilterCondition :=
  {| field := f; value := PyStr v; match_type := CONTAINS; case_sensitive := false;
     operator := OR |}.

(** The loop of [create_keyword_filter] over [keywords]. *)
Fixpoint keyword_conditions_loop (keywords : list string)
    (conditions : list FilterCondition) : list FilterCondition :=
  match keywords with
  | [] => conditions
  | keyword :: keywords' =>
      keyword_conditions_loop keywords'
        ((conditions ++ [keyword_condition "title" keyword])
           ++ [keyword_condition "summary" keyword])
  end.

Definition create_keyword_filter (keywords : list string) (filter_name : string)
    (prio : Z) : FilterRule :=
  {| name := filter_name; conditions := keyword_conditions_loop keywords [];
     priority := prio; is_active := true |}.

(** Whether the text of a field of the record contains the keyword, both
    in lower case; a missing field is the empty text, a field that is
    [None] contains nothing. *)
Definition field_mentions (article : Dict) (f keyword : string) : bool :=
  match get_or article f (PyStr "") with
  | PyNone => false
  | field_value => str_in (lower keyword) (lower (str field_value))
  end.

(** A rule none of whose conditions is a regex. *)
Definition regex_free (rule : FilterRule) : Prop :=
  Forall (fun c => match_type c <> REGEX) (conditions rule).

(** The priority a record is annotated with, and the order of records by
    it: annotated priorities do not increase. *)
Definition record_priority (d : Dict) : Z :=
  match get d "filter_priority" with
  | PyInt p => p
  | _ => 0
  end.

Definition by_filter_priority (d1 d2 : Dict) : Prop :=
  record_priority d2 <= record_priority d1.

Section Engine.

(** The [re] module: [re_compile pattern flags] is [None] when [re.compile]
    raises [re.error], and [re_error pattern flags] is then the text of that
    error, [str(e)]; [pattern_search p s] is [bool(p.search(s))]. *)
Variable Pattern : Type.
Variable re_compile : string -> Z -> option Pattern.
Variable pattern_search : Pattern -> string -> bool.
Variable re_error : string -> Z -> string.

(** The engine instance: [compiled_regex_cache]. ([custom_filters] is only
    written by [register_custom_filter].) *)
Record Engine : Type := {
  compiled_regex_cache : gmap string Pattern
}.

(** [FilterEngine()]. *)
Definition new_engine : Engine := {| compiled_regex_cache := ∅ |}.

Definition M (A : Type) : Type := Engine -> exc A * Engine.

Definition ret {A} (a : A) : M A := fun self => (Ok a, self).

Definition bind {A B} (m : M A) (k : A -> M B) : M B :=
  fun self =>
    match m self with
    | (Ok a, self') => k a self'
    | (Raise e, self') => (Raise e, self')
    end.

Definition raise {A} (e : exn) : M A := fun self => (Raise e, self).

(** [try: body  except Exception as e: handler]. *)
Definition try_except {A} (body : M A) (handler : exn -> M A) : M A :=
  fun self =>
    match body self with
    | (Ok a, self') => (Ok a, self')
    | (Raise e, self') => handler e self'
    end.

Notation "x <- m ;; k" := (bind m (fun x => k))
  (at level 100, m at next level, right associativity).

(** [_compile_regex]. The key spells the flags as a number; any spelling
    that tells the flags apart gives the same cache. *)
Definition _compile_regex (pattern : string) (flags : Z) : M Pattern :=
  fun self =>
    let cache_key := pattern +:+ "_" +:+ pretty flags in
    match compiled_regex_cache self !! cache_key with
    | Some p => (Ok p, self)
    | None =>
        match re_compile pattern flags with
        | Some p =>
            (Ok p, {| compiled_regex_cache := <[cache_key := p]> (compiled_regex_cache self) |})
        | None =>
            (Raise (ValueError ("Invalid regex pattern: " +:+ re_error pattern flags)), self)
        end
    end.

Definition _match_condition (article : Dict) (condition : FilterCondition) : M bool :=
  let field_value := get_or article (field condition) (PyStr "") in
  match field_value with
  | PyNone => ret false
  | _ =>
      let field_str := str field_value in
      let condition_value := str (value condition) in
      let field_str := if case_sensitive condition then field_str else lower field_str in
      let condition_value :=
        if case_sensitive condition then condition_value else lower condition_value in
      try_except
        (match match_type condition with
         | CONTAINS => ret (str_in condition_value field_str)
         | EXACT => ret (String.eqb field_str condition_value)
         | REGEX =>
             let flags := if case_sensitive condition then 0 else IGNORECASE in
             pattern <- _compile_regex condition_value flags ;;
             ret (pattern_search pattern field_str)
         | STARTS_WITH => ret (startswith field_str condition_value)
         | ENDS_WITH => ret (endswith field_str condition_value)
         end)
        (fun _ => ret false)
  end.

(** The loop of [_evaluate_logical_expression] over [results[1:]]. *)
Fixpoint fold_results (final_result : bool) (rest : list (bool * FilterOperator)) : bool :=
  match rest with
  | [] => final_result
  | (result, op) :: rest' =>
      fold_results
        (match op with
         | AND => final_result && result
         | OR => final_result || result
         | NOT => final_result
         end)
        rest'
  end.

Definition _evaluate_logical_expression (results : list (bool * FilterOperator)) : bool :=
  match results with
  | [] => false
  | (first, _) :: rest => fold_results first rest
  end.

(** The loop of [_evaluate_rule] that fills [results]. *)
Fixpoint collect_results (article : Dict) (conds : list FilterCondition)
    (results : list (bool * FilterOperator)) : M (list (bool * FilterOperator)) :=
  match conds with
  | [] => ret results
  | condition :: conds' =>
      match_result <- _match_condition article condition ;;
      let match_result :=
        if decide (operator condition = NOT) then negb match_result else match_result in
      collect_results article conds' (results ++ [(match_result, operator condition)])
  end.

Definition _evaluate_rule (article : Dict) (rule : FilterRule) : M bool :=
  if negb (is_active rule) || bool_decide (conditions rule = []) then ret false
  else
    results <- collect_results article (conditions rule) [] ;;
    ret (_evaluate_logical_expression results).

(** [article.copy()] with the two metadata keys set. *)
Definition annotate (rule : FilterRule) (article : Dict) : Dict :=
  <["filter_priority" := PyInt (priority rule)]>
    (<["matched_rule" := PyStr (name rule)]> article).

(** The loop of [apply_rule] over [articles]. *)
Fixpoint apply_rule_loop (rule : FilterRule) (articles : list Dict)
    (filtered_articles : list Dict) : M (list Dict) :=
  match articles with
  | [] => ret filtered_articles
  | article :: articles' =>
      filtered_articles' <-
        try_except
          (matched <- _evaluate_rule article rule ;;
           if matched then ret (filtered_articles ++ [annotate rule article])
           else ret filtered_articles)
          (fun _ => ret filtered_articles) ;;
      apply_rule_loop rule articles' filtered_articles'
  end.

Definition apply_rule (articles : list Dict) (rule : FilterRule) : M (list Dict) :=
  if negb (is_active rule) then ret articles
  else apply_rule_loop rule articles [].

(** The inner loop of [apply_rules] over the matches of one rule. *)
Fixpoint add_unseen (matches : list Dict) (all_matches : list Dict)
    (article_links_seen : gset pyval) : list Dict * gset pyval :=
  match matches with
  | [] => (all_matches, article_links_seen)
  | article :: matches' =>
      if decide (get article "link" ∈ article_links_seen)
      then add_unseen matches' all_matches article_links_seen
      else add_unseen matches' (all_matches ++ [article])
                      (article_links_seen ∪ {[get article "link"]})
  end.

(** The outer loop of [apply_rules] over [sorted_rules]. *)
Fixpoint apply_rules_loop (articles : list Dict) (sorted_rules : list FilterRule)
    (all_matches : list Dict) (article_links_seen : gset pyval) : M (list Dict) :=
  match sorted_rules with
  | [] => ret all_matches
  | rule :: rules' =>
      matches <- apply_rule articles rule ;;
      let '(all_matches', seen') := add_unseen matches all_matches article_links_seen in
      apply_rules_loop articles rules' all_matches' seen'
  end.

Definition apply_rules (articles : list Dict) (rules : list FilterRule) : M (list Dict) :=
  if bool_decide (rules = []) then ret articles
  else
    let sorted_rules := sorted_by_priority_desc (filter (fun r => is_active r = true) rules) in
    apply_rules_loop articles sorted_rules [] ∅.


(** *** What the engine computes, without the cache

    [condition_result] is [_match_condition] with the pattern compiled
    afresh; [rule_verdict] is the fold of the design document; the cached
    engine is shown to compute both. *)

Definition fold_case (case_sens : bool) (s : string) : string :=
  if case_sens then s else lower s.

Definition regex_flags (case_sens : bool) : Z :=
  if case_sens then 0 else IGNORECASE.

Definition condition_result (article : Dict) (condition : FilterCondition) : bool :=
  match get_or article (field condition) (PyStr "") with
  | PyNone => false
  | field_value =>
      let field_str := fold_case (case_sensitive condition) (str field_value) in
      let condition_value := fold_case (case_sensitive condition) (str (value condition)) in
      match match_type condition with
      | CONTAINS => str_in condition_value field_str
      | EXACT => String.eqb field_str condition_value
      | REGEX =>
          match re_compile condition_value (regex_flags (case_sensitive condition)) with
          | Some pattern => pattern_search pattern field_str
          | None => false
          end
      | STARTS_WITH => startswith field_str condition_value
      | ENDS_WITH => endswith field_str condition_value
      end
  end.

(** A condition's result, inverted first when its combinator is NOT,
    paired with the combinator. *)
Definition signed_result (article : Dict) (condition : FilterCondition)
    : bool * FilterOperator :=
  (if decide (operator condition = NOT) then negb (condition_result article condition)
   else condition_result article condition,
   operator condition).

(** One step of the fold: the accumulator combined with a later result
    under that result's own combinator. *)
Definition combine (acc : bool) (step : bool * FilterOperator) : bool :=
  match snd step with
  | AND => acc && fst step
  | OR => acc || fst step
  | NOT => acc
  end.

Definition rule_verdict (article : Dict) (rule : FilterRule) : bool :=
  if is_active rule then
    match map (signed_result article) (conditions rule) with
    | [] => false
    | first :: later => fold_left combine later (fst first)
    end
  else false.

(** The matches of one rule: the records it accepts, annotated, in input
    order. *)
Definition rule_matches (articles : list Dict) (rule : FilterRule) : list Dict :=
  map (annotate rule) (filter (fun a => rule_verdict a rule = true) articles).

(** The link values of a list of records. *)
Definition links (l : list Dict) : gset pyval :=
  list_to_set (map (fun a => get a "link") l).

(** The records of a list that carry a given link value. *)
Definition with_link (v : pyval) (l : list Dict) : list Dict :=
  filter (fun a => get a "link" = v) l.

(** Keep the first record of every link value. *)
Fixpoint first_per_link (seen : gset pyval) (l : list Dict) : list Dict :=
  match l with
  | [] => []
  | a :: l' =>
      if decide (get a "link" ∈ seen) then first_per_link seen l'
      else a :: first_per_link (seen ∪ {[get a "link"]}) l'
  end.

(** The rules as [apply_rules] visits them. *)
Definition rules_in_order (rules : list FilterRule) : list FilterRule :=
  sorted_by_priority_desc (filter (fun r => is_active r = true) rules).

(** Every match of every rule, rule by rule in the order of evaluation. *)
Definition candidates (articles : list Dict) (rules : list FilterRule) : list Dict :=
  concat (map (rule_matches articles) (rules_in_order rules)).

(** The output of [applyRules] as the design document describes it. *)
Definition applyRules_spec (articles : list Dict) (rules : list FilterRule) : list Dict :=
  first_per_link ∅ (candidates articles rules).

(** *** The cache invariant *)

Definition valid_flags (flags : Z) : Prop := flags = 0 \/ flags = IGNORECASE.

Definition cache_key (pattern : string) (flags : Z) : string :=
  pattern +:+ "_" +:+ pretty flags.

(** Every cached matcher is the one [re.compile] returns for its key. *)
Definition cache_consistent (self : Engine) : Prop :=
  forall pattern flags p,
    valid_flags flags ->
    compiled_regex_cache self !! cache_key pattern flags = Some p ->
    re_compile pattern flags = Some p.

(** [m] returns [a] without raising, from any consistent engine, and leaves
    the engine consistent. *)
Definition yields {A} (m : M A) (a : A) : Prop :=
  forall self, cache_consistent self ->
    exists self', m self = (Ok a, self') /\ cache_consistent self'.

End Engine.
End FilterEngine.

(** ** database_manager.py: the content hash of the article store *)

Module DatabaseManager.
Import Py.

Section Hash.

(** [hashlib.md5(content.encode('utf-8')).hexdigest()]. *)
Variable md5 : string -> string.

Definition _generate_content_hash (title summary link : string) : string :=
  let stable_link :=
    if negb (String.eqb link "") && negb (startswith link "internal://")
    then slice_to 100 link else "" in
  let content := strip title +:+ "|" +:+ strip summary +:+ "|" +:+ stable_link in
  md5 content.

(** The pseudo-link [insert_articles] builds for a record with no link;
    [discriminator] is [hash(str(article))], which differs from one process
    to the next. *)
Definition pseudo_link (article : Dict) (discriminator : Z) : exc string :=
  exc_bind (py_slice_to 50 (get_or article "title" (PyStr "no-title"))) (fun title50 =>
  exc_bind (as_str (get_or article "source_feed" (PyStr "unknown"))) (fun source =>
  let title_part := lower (replace_char " " "-" title50) in
  let source_part := lower (replace_char " " "-" source) in
  Ok ("internal://" +:+ source_part +:+ "/" +:+ title_part +:+ "/" +:+ pretty discriminator))).

(** The link and content hash [insert_articles] computes for one article
    that it does not skip, that is, one with a title or a summary. *)
Definition stored_link_and_hash (article : Dict) (discriminator : Z) : exc (string * string) :=
  exc_bind (as_str (get_or article "link" (PyStr ""))) (fun link =>
  let link := strip link in
  exc_bind (if String.eqb link "" then pseudo_link article discriminator else Ok link)
    (fun link =>
  exc_bind (as_str (get_or article "title" (PyStr ""))) (fun title =>
  exc_bind (as_str (get_or article "summary" (PyStr ""))) (fun summary =>
  Ok (link, _generate_content_hash title summary link))))).

End Hash.
End DatabaseManager.

(** ** src/data/hash_database_manager.py: the deduplication ledger

    The DuckDB file is a table that every statement reads or writes
    successfully; the [except] branches that only a failing store reaches
    are left out. *)

Module HashDatabaseManager.
Import Py.

(** One row of [processed_hashes]; the key [content_hash] is the key of the
    table. *)
Record Row : Type := {
  processed_at : Z;
  title : string;
  company_name : string;
  article_link : pyval
}.

(** The table [processed_hashes], with [content_hash] as primary key. *)
Abbreviation Table := (gmap string Row).

(** A record as the data model has it: [title] and [summary] are text when
    present, [link] is text, [None] or absent. *)
Definition is_text (o : option pyval) : bool :=
  match o with
  | None | Some (PyStr _) => true
  | _ => false
  end.

Definition is_optional_text (o : option pyval) : bool :=
  match o with
  | None | Some PyNone | Some (PyStr _) => true
  | _ => false
  end.

Definition well_formed (a : Dict) : bool :=
  is_text (a !! "title") && is_text (a !! "summary") && is_optional_text (a !! "link").

Definition wf_batch (articles : list Dict) : Prop :=
  Forall (fun a => well_formed a = true) articles.

(** [ORDER BY processed_at DESC]: the rows rearranged so that timestamps do
    not increase. *)
Definition newest_first (r1 r2 : string * Row) : Prop :=
  processed_at (snd r2) <= processed_at (snd r1).

Definition orders_newest_first (order_by : list (string * Row) -> list (string * Row)) : Prop :=
  forall l, Permutation (order_by l) l /\ StronglySorted newest_first (order_by l).

Section Ledger.

Variable md5 : string -> string.

(** The regular-expression part of [_extract_company_name], on a non-empty
    title. *)
Variable company_name_of : string -> string.

(** [ORDER BY processed_at DESC] over the rows of the table. SQL leaves the
    order of equal timestamps open, so the ordering is a parameter. *)
Variable order_by_processed_at_desc : list (string * Row) -> list (string * Row).

(** The content fed to the digest by [generate_content_hash]. *)
Definition hash_content (article : Dict) : exc string :=
  exc_bind (as_str (get_or article "title" (PyStr ""))) (fun title =>
  let title := strip title in
  exc_bind (as_str (get_or article "summary" (PyStr ""))) (fun summary =>
  let summary := strip summary in
  let link := get_or article "link" (PyStr "") in
  exc_bind (if truthy link then py_slice_to 100 link else Ok "") (fun stable_link =>
  Ok (title +:+ "|" +:+ summary +:+ "|" +:+ stable_link)))).

Definition generate_content_hash (article : Dict) : exc string :=
  exc_bind (hash_content article) (fun content => Ok (md5 content)).

(** The fingerprint of a record whose hash can be computed. *)
Definition fingerprint (article : Dict) : string :=
  match generate_content_hash article with
  | Ok content_hash => content_hash
  | Raise _ => ""
  end.

Definition is_hash_processed (db : Table) (content_hash : string) : bool :=
  bool_decide (is_Some (db !! content_hash)).

Definition is_article_processed (db : Table) (article : Dict) : exc bool :=
  exc_bind (generate_content_hash article) (fun h => Ok (is_hash_processed db h)).

Definition get_processed_hashes (db : Table) (limit : Z) : gset string :=
  list_to_set (map fst (take (Z.to_nat limit) (order_by_processed_at_desc (map_to_list db)))).

Definition _extract_company_name (title : pyval) : exc string :=
  if negb (truthy title) then Ok "Unknown"
  else exc_bind (as_str title) (fun t => Ok (company_name_of t)).

(** [INSERT OR REPLACE INTO processed_hashes ...]. *)
Definition insert_or_replace (db : Table) (content_hash : string) (row : Row) : Table :=
  <[content_hash := row]> db.

(** [company_names.get(title, default)]. *)
Definition company_names_get (company_names : gmap string string) (title : pyval)
    (dflt : string) : string :=
  match title with
  | PyStr t => default dflt (company_names !! t)
  | _ => dflt
  end.

(** The loop of [mark_articles_processed]. [now i] is what the [i]-th call
    of [datetime.now()] returns. An exception outside the inner [try] ends
    the loop with the rows written so far kept. *)
Fixpoint mark_loop (now : nat -> Z) (i : nat) (company_names : gmap string string)
    (articles : list Dict) (db : Table) (processed_count : Z) : Z * Table :=
  match articles with
  | [] => (processed_count, db)
  | article :: articles' =>
      match generate_content_hash article with
      | Raise _ => (processed_count, db)
      | Ok content_hash =>
          let title := get_or article "title" (PyStr "") in
          match _extract_company_name title with
          | Raise _ => (processed_count, db)
          | Ok dflt =>
              let company := company_names_get company_names title dflt in
              match py_slice_to 200 title with
              | Raise _ => mark_loop now (S i) company_names articles' db processed_count
              | Ok title200 =>
                  let row := {| processed_at := now i; title := title200;
                                company_name := company;
                                article_link := get_or article "link" (PyStr "") |} in
                  mark_loop now (S i) company_names articles'
                            (insert_or_replace db content_hash row) (processed_count + 1)
              end
          end
      end
  end.

Definition mark_articles_processed (now : nat -> Z) (db : Table) (articles : list Dict)
    (company_names : gmap string string) : Z * Table :=
  match articles with
  | [] => (0, db)
  | _ => mark_loop now 0 company_names articles db 0
  end.

(** The loop of [filter_new_articles]. *)
Fixpoint filter_new_loop (processed_hashes : gset string) (articles : list Dict)
    (new_articles : list Dict) : exc (list Dict) :=
  match articles with
  | [] => Ok new_articles
  | article :: articles' =>
      exc_bind (generate_content_hash article) (fun content_hash =>
      if decide (content_hash ∈ processed_hashes)
      then filter_new_loop processed_hashes articles' new_articles
      else filter_new_loop processed_hashes articles' (new_articles ++ [article]))
  end.

Definition filter_new_articles (db : Table) (articles : list Dict) : exc (list Dict) :=
  match articles with
  | [] => Ok []
  | _ =>
      let processed_hashes := get_processed_hashes db 10000 in
      filter_new_loop processed_hashes articles []
  end.

(** [mark_article_processed]; [now] is what [datetime.now()] returns and
    [company_name] the optional argument. The [except] returns [False] and
    the table stays as it was. *)
Definition mark_article_processed (now : Z) (db : Table) (article : Dict)
    (company_name : option string) : bool * Table :=
  match generate_content_hash article with
  | Raise _ => (false, db)
  | Ok content_hash =>
      let title := get_or article "title" (PyStr "") in
      match py_slice_to 200 title with
      | Raise _ => (false, db)
      | Ok title200 =>
          let company :=
            match company_name with
            | Some c => if String.eqb c "" then _extract_company_name title else Ok c
            | None => _extract_company_name title
            end in
          match company with
          | Raise _ => (false, db)
          | Ok company =>
              let row := {| processed_at := now; title := title200;
                            company_name := company;
                            article_link := get_or article "link" (PyStr "") |} in
              (true, insert_or_replace db content_hash row)
          end
      end
  end.

(** [result.fetchone()] on a cursor whose rows have one column: the next
    row, if any, and the cursor after it. *)
Definition fetchone (cursor : list Z) : option Z * list Z :=
  match cursor with
  | [] => (None, [])
  | row :: rest => (Some row, rest)
  end.

(** Timestamps count microseconds. *)
Definition timedelta_days (days : Z) : Z := days * 86400000000.

(** With timestamps counted from [datetime.min], the first instant of the
    year 1, [datetime.max] is the last microsecond of the year 9999, day
    3652059. *)
Definition datetime_max : Z := 3652059 * 86400000000 - 1.

(** [timedelta(days=n)]: [OverflowError] beyond 999999999 days either
    way. *)
Definition timedelta (days : Z) : exc Z :=
  if Z.abs days <=? 999999999 then Ok (timedelta_days days) else Raise OverflowError.

(** [d - delta] on a [datetime]: [OverflowError] when the result is not a
    [datetime]. *)
Definition datetime_sub (d delta : Z) : exc Z :=
  if (0 <=? d - delta) && (d - delta <=? datetime_max) then Ok (d - delta)
  else Raise OverflowError.

(** [DELETE FROM processed_hashes WHERE processed_at < ?]. *)
Definition delete_older_than (cutoff_date : Z) (db : Table) : Table :=
  filter (fun kv => ~ processed_at (snd kv) < cutoff_date) db.

(** [cleanup_old_hashes]. The cutoff is computed inside the [try]: when
    [datetime.now() - timedelta(days=days_to_keep)] raises, the [except]
    returns 0 and no statement is executed. [delete_result n] is the cursor
    the driver hands back for a DELETE of [n] rows. The statement has been
    executed when the cursor is read, so the table has lost the rows also
    when reading raises and the [except] returns 0. In
    [result.fetchone()[0] if result.fetchone() else 0] the test is
    evaluated first and consumes a row; a row is a non-empty tuple and so
    true. *)
Definition cleanup_old_hashes (delete_result : Z -> list Z) (now : Z) (days_to_keep : Z)
    (db : Table) : Z * Table :=
  match exc_bind (timedelta days_to_keep) (datetime_sub now) with
  | Raise _ => (0, db)
  | Ok cutoff_date =>
      let db' := delete_older_than cutoff_date db in
      let result := delete_result (Z.of_nat (size db) - Z.of_nat (size db')) in
      let deleted_count :=
        match fetchone result with
        | (Some _, result') =>
            match fetchone result' with
            | (Some row, _) => Ok row
            | (None, _) => Raise TypeError
            end
        | (None, _) => Ok 0
        end in
      match deleted_count with
      | Ok n => (n, db')
      | Raise _ => (0, db')
      end
  end.

(** [reset_database]: [DELETE FROM processed_hashes]. *)
Definition reset_database (db : Table) : Table := ∅.





End Ledger.
End HashDatabaseManager.

(** ** src/core/processor.py: one run of the pipeline *)

Module Processor.
Import Py.

(** [PresetFilters.awards_bagging_filter()]. *)
Definition awards_condition (f v : string) : FilterEngine.FilterCondition :=
  {| FilterEngine.field := f; FilterEngine.value := PyStr v;
     FilterEngine.match_type := FilterEngine.CONTAINS;
     FilterEngine.case_sensitive := false;
     FilterEngine.operator := FilterEngine.OR |}.

Definition awards_bagging_filter : FilterEngine.FilterRule :=
  {| FilterEngine.name := "Awards/Bagging";
     FilterEngine.conditions :=
       [awards_condition "title" "award"; awards_condition "title" "bagging";
        awards_condition "summary" "award"; awards_condition "summary" "bagging";
        awards_condition "link" "award"; awards_condition "link" "bagging"];
     FilterEngine.priority := 5;
     FilterEngine.is_active := true |}.

(** The stages of a run; a stage is recorded when its method is entered. *)
Inductive Stage : Type := FETCH | FILTER | DEDUP | ENRICH | NOTIFY | COMMIT.

#[global] Instance Stage_eq_dec : EqDecision Stage.
Proof. solve_decision. Defined.

(** The dictionary [process_rss_awards] returns, without its timestamps. *)
Record Results : Type := {
  success : bool;
  new_articles_count : Z;
  email_sent : bool;
  financial_data_count : Z;
  errors : list string;
  warnings : list string
}.

(** What a run can change: the ledger, and the record of entered stages. *)
Record World : Type := {
  hash_db : HashDatabaseManager.Table;
  calls : list Stage
}.

(** email_sender.py: the keys of [EmailSender.SMTP_CONFIGS]. *)
Definition SMTP_CONFIGS : list string := ["gmail"; "outlook"; "yahoo"; "icloud"].

(** [EmailSender(provider)]: a provider that is not a key of [SMTP_CONFIGS]
    is refused. *)
Definition EmailSender_init (provider : pyval) : exc unit :=
  if bool_decide (provider ∈ map PyStr SMTP_CONFIGS) then Ok tt
  else Raise (ValueError ("Unsupported provider: " +:+ str provider
                          +:+ ". Supported: ['gmail', 'outlook', 'yahoo', 'icloud']")).

(** [RSSAwardsProcessor(email_config, ...)]. With a working store the
    ledger, the fetcher and the filter engine are built without an
    exception, and the financial tool is set up in a [try] of its own; what
    can raise is [EmailSender(email_config["provider"])]. *)
Definition RSSAwardsProcessor_init (email_config : Dict) : exc unit :=
  match email_config !! "provider" with
  | None => Raise KeyError
  | Some provider => EmailSender_init provider
  end.

Section Run.

Variable Pattern : Type.
Variable re_compile : string -> Z -> option Pattern.
Variable pattern_search : Pattern -> string -> bool.
Variable re_error : string -> Z -> string.
Variable md5 : string -> string.
Variable ledger_company_name_of : string -> string.
Variable order_by_processed_at_desc :
  list (string * HashDatabaseManager.Row) -> list (string * HashDatabaseManager.Row).

(** The collaborators of one run. [fetch_and_search] is
    [rss_fetcher.fetch_and_store()] followed by [search_articles(limit=1000)]:
    the articles and [fetch_stats['errors']]. [FinancialData] with
    [financial_lookup] and [financial_ok_count] is [get_financial_data] and
    the count of entries without an error. [send_email] is the building of
    the message and [email_sender.send_email]. [company_name_of] is the
    regular-expression part of [extract_company_name]. *)
Variable fetch_and_search : exc (list Dict * Z).
Variable FinancialData : Type.
Variable financial_lookup : list Dict -> FinancialData.
Variable financial_ok_count : FinancialData -> Z.
Variable send_email : list Dict -> FinancialData -> exc bool.
Variable company_name_of : string -> string.

(** [str(e)]. *)
Variable exn_str : exn -> string.

Definition P (A : Type) : Type := World -> exc A * World.

Definition pret {A} (a : A) : P A := fun w => (Ok a, w).

Definition pbind {A B} (m : P A) (k : A -> P B) : P B :=
  fun w =>
    match m w with
    | (Ok a, w') => k a w'
    | (Raise e, w') => (Raise e, w')
    end.

Definition ptry {A} (body : P A) (handler : exn -> P A) : P A :=
  fun w =>
    match body w with
    | (Ok a, w') => (Ok a, w')
    | (Raise e, w') => handler e w'
    end.

Definition lift {A} (r : exc A) : P A := fun w => (r, w).

Definition enter (s : Stage) : P unit :=
  fun w => (Ok tt, {| hash_db := hash_db w; calls := calls w ++ [s] |}).

Notation "x <- m ;; k" := (pbind m (fun x => k))
  (at level 100, m at next level, right associativity).

Definition fetch_rss_articles : P (list Dict * Z) :=
  _ <- enter FETCH ;;
  ptry (lift fetch_and_search) (fun _ => pret ([], 1)).

(** The run owns a fresh [FilterEngine()]; its cache does not outlive the
    call. *)
Definition filter_awards_articles (articles : list Dict) : P (list Dict) :=
  _ <- enter FILTER ;;
  match articles with
  | [] => pret []
  | _ =>
      ptry
        (lift (fst (FilterEngine.apply_rule Pattern re_compile pattern_search re_error articles
                      awards_bagging_filter (FilterEngine.new_engine Pattern))))
        (fun _ => pret [])
  end.

Definition get_new_articles_only (articles : list Dict) : P (list Dict) :=
  _ <- enter DEDUP ;;
  ptry
    (fun w =>
       (HashDatabaseManager.filter_new_articles md5 order_by_processed_at_desc
          (hash_db w) articles, w))
    (fun _ => pret articles).

(** What the first three stages return: acquisition and filtering do not
    read the ledger, deduplication reads it and fails open. *)
Definition fetched : list Dict * Z :=
  match fetch_and_search with
  | Ok r => r
  | Raise _ => ([], 1)
  end.

Definition filtered_of (articles : list Dict) : list Dict :=
  match articles with
  | [] => []
  | _ =>
      match fst (FilterEngine.apply_rule Pattern re_compile pattern_search re_error articles
                   awards_bagging_filter (FilterEngine.new_engine Pattern)) with
      | Ok matches => matches
      | Raise _ => []
      end
  end.

Definition new_of (db : HashDatabaseManager.Table) (articles : list Dict) : list Dict :=
  match HashDatabaseManager.filter_new_articles md5 order_by_processed_at_desc db articles with
  | Ok new_articles => new_articles
  | Raise _ => articles
  end.

Definition new_batch (db : HashDatabaseManager.Table) : list Dict :=
  new_of db (filtered_of (fst fetched)).

(** The first three stages of a run: the batch of new articles it finds. *)
Definition new_articles_of_run : P (list Dict) :=
  fetched <- fetch_rss_articles ;;
  filtered_articles <- filter_awards_articles (fst fetched) ;;
  get_new_articles_only filtered_articles.

Definition get_financial_data (articles : list Dict) : P FinancialData :=
  _ <- enter ENRICH ;;
  pret (financial_lookup articles).

Definition send_email_alert (articles : list Dict) (financial_data : FinancialData) : P bool :=
  _ <- enter NOTIFY ;;
  match articles with
  | [] => pret true
  | _ => ptry (lift (send_email articles financial_data)) (fun _ => pret false)
  end.

Definition extract_company_name (title : pyval) : exc string :=
  if negb (truthy title) then Ok "Unknown Company"
  else exc_bind (as_str title) (fun t => Ok (company_name_of t)).

(** The loop of [mark_articles_processed] that builds [company_names]. *)
Fixpoint company_names_loop (articles : list Dict) (company_names : gmap string string)
    : exc (gmap string string) :=
  match articles with
  | [] => Ok company_names
  | article :: articles' =>
      let title := get_or article "title" (PyStr "") in
      exc_bind (extract_company_name title) (fun company =>
      match title with
      | PyStr t => company_names_loop articles' (<[t := company]> company_names)
      | _ => company_names_loop articles' company_names
      end)
  end.

Definition mark_articles_processed (now : nat -> Z) (articles : list Dict) : P bool :=
  _ <- enter COMMIT ;;
  match articles with
  | [] => pret true
  | _ =>
      ptry
        (company_names <- lift (company_names_loop articles ∅) ;;
         fun w =>
           let '(processed_count, db') :=
             HashDatabaseManager.mark_articles_processed md5 ledger_company_name_of now
               (hash_db w) articles company_names in
           (Ok (processed_count =? Z.of_nat (length articles)),
            {| hash_db := db'; calls := calls w |}))
        (fun _ => pret false)
  end.

(** [process_rss_awards] from its [try] on, that is, once the processor has
    been constructed; [now] is the clock seen by the commit. Every stage
    catches its own exceptions, so the handler of the outer [try] is written
    out but never run. *)
Definition process_rss_awards (now : nat -> Z) : P Results :=
  ptry
    (fetched <- fetch_rss_articles ;;
     let all_articles := fst fetched in
     let fetch_errors := snd fetched in
     let warnings0 :=
       if 0 <? fetch_errors
       then ["RSS database had " +:+ pretty fetch_errors
             +:+ " insertion errors (likely duplicates)"]
       else [] in
     filtered_articles <- filter_awards_articles all_articles ;;
     new_articles <- get_new_articles_only filtered_articles ;;
     let count := Z.of_nat (length new_articles) in
     match new_articles with
     | [] =>
         pret {| success := true; new_articles_count := count; email_sent := false;
                 financial_data_count := 0; errors := []; warnings := warnings0 |}
     | _ =>
         financial_data <- get_financial_data new_articles ;;
         sent <- send_email_alert new_articles financial_data ;;
         let errors1 := if sent then [] else ["Failed to send email"] in
         warnings1 <-
           (if sent then
              processed_successfully <- mark_articles_processed now new_articles ;;
              pret (if processed_successfully then warnings0
                    else warnings0 ++ ["Failed to mark some articles as processed"])
            else pret warnings0) ;;
         pret {| success := bool_decide (errors1 = []); new_articles_count := count;
                 email_sent := sent;
                 financial_data_count := financial_ok_count financial_data;
                 errors := errors1; warnings := warnings1 |}
     end)
    (fun e =>
       pret {| success := false; new_articles_count := 0; email_sent := false;
               financial_data_count := 0; errors := ["Critical error: " +:+ exn_str e];
               warnings := [] |}).

(** The call [process_rss_awards(email_config, ...)] as a whole: the
    processor is constructed first, outside the [try], so an exception of
    the constructor reaches the caller. *)
Definition process_rss_awards_call (email_config : Dict) (now : nat -> Z) : P Results :=
  _ <- lift (RSSAwardsProcessor_init email_config) ;;
  process_rss_awards now.

End Run.
End Processor.

(** ** src/core/processor.py: [get_financial_data], step by step *)

Module Enrichment.
Import Py.

(** What a lookup has done so far: the dictionary [financial_data] and the
    number of calls made to the financial tool. *)
Record Lookup : Type := {
  financial_data : gmap string Dict;
  tool_calls : nat
}.

Section Lookup.

(** The regular-expression part of [extract_company_name]. *)
Variable company_name_of : string -> string.

(** [financial_tool.get_company_financial_data(name)]. The second argument
    is the number of calls made before, so that one call may fail and the
    next succeed. *)
Variable get_company_financial_data : string -> nat -> exc Dict.

(** [str(e)]. *)
Variable exn_str : exn -> string.

Variable max_financial_requests : Z.

Definition max_retries : Z := 2.

Definition called (st : Lookup) : Lookup :=
  {| financial_data := financial_data st; tool_calls := S (tool_calls st) |}.

Definition store (company_name : string) (data : Dict) (st : Lookup) : Lookup :=
  {| financial_data := <[company_name := data]> (financial_data st);
     tool_calls := tool_calls st |}.

(** [for attempt in range(max_retries)]. *)
Fixpoint retry_loop (company_name : string) (attempts : list Z) (st : Lookup) : Lookup :=
  match attempts with
  | [] => st
  | attempt :: attempts' =>
      match get_company_financial_data company_name (tool_calls st) with
      | Ok data =>
          match data !! "error" with
          | None => store company_name data (called st)
          | Some error =>
              if attempt <? max_retries - 1 then retry_loop company_name attempts' (called st)
              else retry_loop company_name attempts'
                     (store company_name (<["error" := error]> ∅) (called st))
          end
      | Raise e =>
          if attempt <? max_retries - 1 then retry_loop company_name attempts' (called st)
          else retry_loop company_name attempts'
                 (store company_name (<["error" := PyStr (exn_str e)]> ∅) (called st))
      end
  end.

(** The loop over [articles]. A record without a [title] key makes
    [article['title']] raise, which the [except] of the loop body turns into
    [continue], as it does an exception of [extract_company_name]. *)
Fixpoint financial_loop (articles : list Dict) (processed_count : Z) (st : Lookup)
    : Lookup :=
  match articles with
  | [] => st
  | article :: articles' =>
      if max_financial_requests <=? processed_count then st
      else
        match article !! "title" with
        | None => financial_loop articles' processed_count st
        | Some title =>
            match Processor.extract_company_name company_name_of title with
            | Raise _ => financial_loop articles' processed_count st
            | Ok company_name =>
                if bool_decide (is_Some (financial_data st !! company_name))
                then financial_loop articles' processed_count st
                else financial_loop articles' (processed_count + 1)
                       (retry_loop company_name [0; 1] st)
            end
        end
  end.

(** [get_financial_data]; [tool_available] is the truth of
    [self.financial_tool]. *)
Definition get_financial_data (tool_available : bool) (articles : list Dict) : Lookup :=
  if negb tool_available || bool_decide (articles = [])
  then {| financial_data := ∅; tool_calls := 0 |}
  else financial_loop articles 0 {| financial_data := ∅; tool_calls := 0 |}.

End Lookup.
End Enrichment.

(** ** filter_engine.py: [PresetFilters] *)

Module PresetFilters.
Import Py.

Definition awards_bagging_filter : FilterEngine.FilterRule :=
  Processor.awards_bagging_filter.

Definition contracts_filter : FilterEngine.FilterRule :=
  {| FilterEngine.name := "Contracts";
     FilterEngine.conditions :=
       [FilterEngine.keyword_condition "title" "contract";
        FilterEngine.keyword_condition "summary" "contract";
        FilterEngine.keyword_condition "link" "contract"];
     FilterEngine.priority := 4;
     FilterEngine.is_active := true |}.

Definition regulation_30_filter : FilterEngine.FilterRule :=
  {| FilterEngine.name := "Regulation 30";
     FilterEngine.conditions :=
       [FilterEngine.keyword_condition "title" "regulation 30";
        FilterEngine.keyword_condition "summary" "regulation 30";
        FilterEngine.keyword_condition "link" "regulation 30"];
     FilterEngine.priority := 3;
     FilterEngine.is_active := true |}.

Definition get_all_presets : list FilterEngine.FilterRule :=
  [awards_bagging_filter; contracts_filter; regulation_30_filter].

(** [presets.get(name)] over the dictionary of the three presets. *)
Definition get_preset_by_name (name : string) : option FilterEngine.FilterRule :=
  (list_to_map
     [("Awards/Bagging", awards_bagging_filter);
      ("Contracts", contracts_filter);
      ("Regulation 30", regulation_30_filter)] : gmap string FilterEngine.FilterRule)
    !! name.

(** Whether one of [title], [summary], [link] mentions the keyword. *)
Definition mentions (article : Dict) (keyword : string) : bool :=
  FilterEngine.field_mentions article "title" keyword
  || FilterEngine.field_mentions article "summary" keyword
  || FilterEngine.field_mentions article "link" keyword.

End PresetFilters.

(** ** Stand-ins for the parameters, to run the model on concrete inputs *)

Module Sample.
Import Py.

(** A small [re]: a pattern is literal text, searched as a substring (with
    case folded under [IGNORECASE]); a pattern with an opening parenthesis
    is rejected, as [re.compile("(")] is. *)
Definition Pattern : Type := (string * Z)%type.

Definition re_compile (pattern : string) (flags : Z) : option Pattern :=
  if str_in "(" pattern then None else Some (pattern, flags).

Definition pattern_search (p : Pattern) (s : string) : bool :=
  if snd p =? FilterEngine.IGNORECASE then str_in (lower (fst p)) (lower s)
  else str_in (fst p) s.

(** The text of the error for a rejected pattern. *)
Definition re_error (pattern : string) (flags : Z) : string :=
  "missing ), unterminated subpattern".

(** A digest that keeps its input. *)
Definition md5 (content : string) : string := content.

Definition company_name_of (title : string) : string := title.

Fixpoint insert_row (r : string * HashDatabaseManager.Row)
    (l : list (string * HashDatabaseManager.Row)) : list (string * HashDatabaseManager.Row) :=
  match l with
  | [] => [r]
  | r' :: l' =>
      if HashDatabaseManager.processed_at (snd r') <? HashDatabaseManager.processed_at (snd r)
      then r :: l else r' :: insert_row r l'
  end.

(** [ORDER BY processed_at DESC] by insertion. *)
Definition order_by_processed_at_desc (l : list (string * HashDatabaseManager.Row))
    : list (string * HashDatabaseManager.Row) :=
  foldr insert_row [] l.

(** A clock that advances by one at every reading. *)
Definition clock_from (t0 : Z) (i : nat) : Z := t0 + Z.of_nat i.

Definition article (title summary : string) (link : pyval) : Dict :=
  <["title" := PyStr title]> (<["summary" := PyStr summary]> (<["link" := link]> ∅)).

Definition row_at (t : Z) : HashDatabaseManager.Row :=
  {| HashDatabaseManager.processed_at := t; HashDatabaseManager.title := "";
     HashDatabaseManager.company_name := "Unknown";
     HashDatabaseManager.article_link := PyStr "" |}.

(** A record already in the ledger and a record not yet there; with the
    digest above their fingerprints are ["A|old|"] and ["B|new|"]. *)
Definition old_article : Dict := article "A" "old" (PyStr "").

Definition new_article : Dict := article "B" "new" (PyStr "").

(** A ledger with one entry. *)
Definition small_ledger : HashDatabaseManager.Table := <["A|old|" := row_at 0]> ∅.

(** [n] further entries, written at times [1] to [n]. *)
Definition filler_rows (n : nat) : list (string * HashDatabaseManager.Row) :=
  map (fun i => ("#" +:+ pretty (Z.of_nat i), row_at (Z.of_nat i))) (seq 1 n).

(** A ledger with 10000 entries, of which ["A|old|"] is the oldest. *)
Definition full_ledger : HashDatabaseManager.Table :=
  list_to_map (("A|old|", row_at 0) :: filler_rows (Z.to_nat 9999)).

(** The row that marking [new_article] at time 10000 writes. *)
Definition row_new : HashDatabaseManager.Row :=
  {| HashDatabaseManager.processed_at := 10000; HashDatabaseManager.title := "B";
     HashDatabaseManager.company_name := "B";
     HashDatabaseManager.article_link := PyStr "" |}.

(** Collaborators of a run: the feed delivers one award record, there is no
    financial tool, and the mail cannot be delivered. *)
Definition fetch_one_award : exc (list Dict * Z) :=
  Ok ([article "XYZ Corp wins AWARD" "Industry recognition" (PyStr "http://x/1")], 0).

Definition no_financial_data (articles : list Dict) : unit := tt.

Definition financial_ok_count (d : unit) : Z := 0.

Definition send_fails (articles : list Dict) (d : unit) : exc bool := Ok false.

(** Other collaborators: a feed that cannot be fetched, a mail that is
    delivered, and the cursor of a DELETE, one row that holds the count. *)
Definition fetch_fails : exc (list Dict * Z) := Raise (ValueError "feed unreachable").

(** [str(e)] of the exceptions above. *)
Definition exn_str (e : exn) : string :=
  match e with
  | ValueError msg => msg
  | AttributeError => "'int' object has no attribute 'strip'"
  | TypeError => "'NoneType' object is not subscriptable"
  | KeyError => "'provider'"
  | OverflowError => "date value out of range"
  end.

(** An email configuration as [get_email_config_from_env] returns it. *)
Definition email_config : Dict :=
  <["sender_email" := PyStr "a@example.org"]>
    (<["sender_password" := PyStr "secret"]>
       (<["recipient_email" := PyStr "b@example.org"]> (<["provider" := PyStr "gmail"]> ∅))).

Definition send_succeeds (articles : list Dict) (d : unit) : exc bool := Ok true.

Definition count_row (n : Z) : list Z := [n].

(** A record whose title is not text: its fingerprint cannot be computed. *)
Definition untitled_article : Dict := <["title" := PyInt 7]> ∅.

(** A link of exactly 100 characters. *)
Definition long_link : string :=
  "http://example.org/announcements/xxxxxxxxxxxxxxxxxxxxxxxxxxxxxxxxxxxxxxxxxxxxxxxxxxxxxxxxxxxxxxxxxxx".

Definition empty_world : Processor.World :=
  {| Processor.hash_db := ∅; Processor.calls := [] |}.

Definition new_engine : FilterEngine.Engine Pattern := FilterEngine.new_engine Pattern.

(** An engine that has already compiled [corp] under [IGNORECASE]. *)
Definition warm_engine : FilterEngine.Engine Pattern :=
  {| FilterEngine.compiled_regex_cache :=
       <["corp_2" := ("corp", FilterEngine.IGNORECASE)]> ∅ |}.

Definition record_x1 : Dict :=
  article "XYZ Corp wins AWARD" "Industry recognition" (PyStr "http://x/1").

(** Two records with no [link] key at all. *)
Definition record_no_link_1 : Dict :=
  <["title" := PyStr "ABC Ltd bags award"]> (<["summary" := PyStr "first"]> ∅).

Definition record_no_link_2 : Dict :=
  <["title" := PyStr "DEF Ltd wins award"]> (<["summary" := PyStr "second"]> ∅).

Definition title_condition (v : string) (kind : FilterEngine.MatchType)
    (op : FilterEngine.FilterOperator) : FilterEngine.FilterCondition :=
  {| FilterEngine.field := "title"; FilterEngine.value := PyStr v;
     FilterEngine.match_type := kind; FilterEngine.case_sensitive := false;
     FilterEngine.operator := op |}.

Definition rule_A : FilterEngine.FilterRule :=
  {| FilterEngine.name := "A";
     FilterEngine.conditions := [title_condition "award" FilterEngine.CONTAINS FilterEngine.AND];
     FilterEngine.priority := 5; FilterEngine.is_active := true |}.

Definition rule_B : FilterEngine.FilterRule :=
  {| FilterEngine.name := "B";
     FilterEngine.conditions := [title_condition "corp" FilterEngine.REGEX FilterEngine.OR];
     FilterEngine.priority := 3; FilterEngine.is_active := true |}.

Definition rule_inactive : FilterEngine.FilterRule :=
  {| FilterEngine.name := "off";
     FilterEngine.conditions := [title_condition "award" FilterEngine.CONTAINS FilterEngine.AND];
     FilterEngine.priority := 1; FilterEngine.is_active := false |}.

(** [award AND (NOT wins) OR corp]: three conditions, the second with NOT. *)
Definition rule_with_not : FilterEngine.FilterRule :=
  {| FilterEngine.name := "mixed";
     FilterEngine.conditions :=
       [title_condition "award" FilterEngine.CONTAINS FilterEngine.AND;
        title_condition "wins" FilterEngine.CONTAINS FilterEngine.NOT;
        title_condition "corp" FilterEngine.CONTAINS FilterEngine.OR];
     FilterEngine.priority := 2; FilterEngine.is_active := true |}.

(** A regex condition whose pattern does not compile. *)
Definition bad_regex : FilterEngine.FilterCondition :=
  title_condition "(" FilterEngine.REGEX FilterEngine.AND.

(** A condition with an empty comparand, on a field the record lacks. *)
Definition empty_comparand : FilterEngine.FilterCondition :=
  {| FilterEngine.field := "author"; FilterEngine.value := PyStr "";
     FilterEngine.match_type := FilterEngine.CONTAINS; FilterEngine.case_sensitive := false;
     FilterEngine.operator := FilterEngine.AND |}.

Definition nonempty_comparand : FilterEngine.FilterCondition :=
  {| FilterEngine.field := "author"; FilterEngine.value := PyStr "smith";
     FilterEngine.match_type := FilterEngine.CONTAINS; FilterEngine.case_sensitive := false;
     FilterEngine.operator := FilterEngine.AND |}.

End Sample.


(** * Properties of the filter engine *)

Module FilterEngineFacts.
Import Py FilterEngine.

Lemma append_nil_l (s : string) : "" +:+ s = s.
Proof. reflexivity. Qed.

Lemma append_cons (c : ascii) (s t : string) : String c s +:+ t = String c (s +:+ t).
Proof. reflexivity. Qed.

Lemma append_two_inj (s s' : string) (a b a' b' : ascii) :
  s +:+ String a (String b "") = s' +:+ String a' (String b' "") ->
  s = s' /\ a = a' /\ b = b'.
Proof.
  revert s'. induction s as [|c s IH]; intros [|c' s'] H;
    rewrite ?append_cons, ?append_nil_l in H.
  - inversion H; auto.
  - destruct s' as [|d s'']; rewrite ?append_cons, ?append_nil_l in H; [congruence|].
    injection H as _ _ H. destruct s''; discriminate.
  - destruct s as [|d s'']; rewrite ?append_cons, ?append_nil_l in H; [congruence|].
    injection H as _ _ H. destruct s''; discriminate.
  - injection H as Hc Ht. destruct (IH _ Ht) as (-> & -> & ->). subst. auto.
Qed.

Lemma cache_key_inj (p p' : string) (f f' : Z) :
  valid_flags f -> valid_flags f' ->
  cache_key p f = cache_key p' f' -> p = p' /\ f = f'.
Proof.
  unfold cache_key.
  intros [-> | ->] [-> | ->] H;
    change (pretty 0) with "0" in H; change (pretty IGNORECASE) with "2" in H;
    apply append_two_inj in H; destruct H as (-> & _ & Hb);
    first [ discriminate Hb | auto ].
Qed.

Lemma regex_flags_valid (b : bool) : valid_flags (regex_flags b).
Proof. destruct b; [left | right]; reflexivity. Qed.

Lemma lower_empty (s : string) : lower s = "" <-> s = "".
Proof. destruct s; simpl; split; intros H; first [reflexivity | discriminate]. Qed.

Lemma startswith_empty_l (p : string) : startswith "" p = bool_decide (p = "").
Proof. destruct p; reflexivity. Qed.

Lemma str_in_empty_r (p : string) : str_in p "" = bool_decide (p = "").
Proof. simpl. rewrite orb_false_r. apply startswith_empty_l. Qed.

Lemma str_rev_onto_nonempty (s acc : string) : acc <> "" -> str_rev_onto s acc <> "".
Proof.
  revert acc. induction s as [|c s IH]; intros acc H; simpl; [exact H|].
  apply IH. discriminate.
Qed.

Lemma str_rev_empty (s : string) : str_rev s = "" <-> s = "".
Proof.
  split; [|intros ->; reflexivity].
  destruct s as [|c s]; [reflexivity|]. unfold str_rev; simpl. intros H.
  exfalso. revert H. apply str_rev_onto_nonempty. discriminate.
Qed.

Lemma endswith_empty_l (p : string) : endswith "" p = bool_decide (p = "").
Proof.
  unfold endswith. change (str_rev "") with "". rewrite startswith_empty_l.
  apply bool_decide_ext, str_rev_empty.
Qed.


(** *** The stable sort on priorities *)

Lemma insert_by_priority_perm (r : FilterRule) (l : list FilterRule) :
  Permutation (insert_by_priority r l) (r :: l).
Proof.
  induction l as [|r' l IH]; simpl; [reflexivity|].
  destruct (priority r' <=? priority r); [reflexivity|].
  rewrite IH. apply perm_swap.
Qed.

Lemma sorted_by_priority_desc_perm (l : list FilterRule) :
  Permutation (sorted_by_priority_desc l) l.
Proof.
  induction l as [|r l IH]; simpl; [reflexivity|].
  rewrite insert_by_priority_perm. apply perm_skip, IH.
Qed.

Lemma insert_by_priority_sorted (r : FilterRule) (l : list FilterRule) :
  StronglySorted priority_desc l -> StronglySorted priority_desc (insert_by_priority r l).
Proof.
  induction 1 as [|r' l Hs IH Hall]; simpl.
  - repeat constructor.
  - destruct (priority r' <=? priority r) eqn:E.
    + apply Z.leb_le in E. constructor; [constructor; assumption|].
      constructor; [exact E|].
      eapply Forall_impl; [exact Hall|]. unfold priority_desc. intros; lia.
    + apply Z.leb_gt in E. constructor; [exact IH|].
      rewrite insert_by_priority_perm. constructor; [unfold priority_desc; lia | exact Hall].
Qed.

Lemma sorted_by_priority_desc_sorted (l : list FilterRule) :
  StronglySorted priority_desc (sorted_by_priority_desc l).
Proof.
  induction l as [|r l IH]; simpl; [constructor|].
  apply insert_by_priority_sorted, IH.
Qed.

Lemma with_priority_insert (p : Z) (r : FilterRule) (l : list FilterRule) :
  with_priority p (insert_by_priority r l) = with_priority p (r :: l).
Proof.
  unfold with_priority. induction l as [|r' l IH]; simpl; [reflexivity|].
  destruct (priority r' <=? priority r) eqn:E; [reflexivity|].
  apply Z.leb_gt in E. rewrite filter_cons, IH, !filter_cons.
  repeat case_decide; try reflexivity; lia.
Qed.

(** Rules of equal priority keep their order. *)
Lemma sorted_by_priority_desc_stable (p : Z) (l : list FilterRule) :
  with_priority p (sorted_by_priority_desc l) = with_priority p l.
Proof.
  induction l as [|r l IH]; simpl; [reflexivity|].
  rewrite with_priority_insert. unfold with_priority in *.
  rewrite !filter_cons, IH. reflexivity.
Qed.

(** *** The bookkeeping of [apply_rules] *)

Lemma links_app (l1 l2 : list Dict) : links (l1 ++ l2) = links l1 ∪ links l2.
Proof. unfold links. rewrite map_app, list_to_set_app_L. reflexivity. Qed.

Lemma first_per_link_app (seen : gset pyval) (l1 l2 : list Dict) :
  first_per_link seen (l1 ++ l2) =
  first_per_link seen l1 ++ first_per_link (seen ∪ links l1) l2.
Proof.
  revert seen. induction l1 as [|a l1 IH]; intros seen; simpl.
  - f_equal. unfold links; simpl. set_solver.
  - case_decide as Hin.
    + rewrite IH. do 2 f_equal. unfold links; simpl. set_solver.
    + simpl. rewrite IH. do 3 f_equal. unfold links; simpl. set_solver.
Qed.

Lemma add_unseen_spec (matches all_matches : list Dict) (seen : gset pyval) :
  add_unseen matches all_matches seen =
  (all_matches ++ first_per_link seen matches, seen ∪ links matches).
Proof.
  revert all_matches seen. induction matches as [|a matches IH]; intros all_matches seen; simpl.
  - rewrite app_nil_r. f_equal. unfold links; simpl. set_solver.
  - case_decide as Hin; rewrite IH.
    + f_equal. unfold links; simpl. set_solver.
    + rewrite <- app_assoc. simpl. f_equal. unfold links; simpl. set_solver.
Qed.


Lemma annotate_link (rule : FilterRule) (a : Dict) :
  get (annotate rule a) "link" = get a "link".
Proof.
  unfold get, get_or, annotate. rewrite !lookup_insert_ne by discriminate. reflexivity.
Qed.

Lemma first_per_link_sublist (seen : gset pyval) (l : list Dict) :
  sublist (first_per_link seen l) l.
Proof.
  revert seen. induction l as [|a l IH]; intros seen; simpl; [constructor|].
  case_decide; [apply sublist_cons | apply sublist_skip]; apply IH.
Qed.

Lemma first_per_link_fresh (seen : gset pyval) (l : list Dict) (a : Dict) :
  a ∈ first_per_link seen l -> get a "link" ∉ seen.
Proof.
  revert seen. induction l as [|b l IH]; intros seen; simpl.
  - intros H. inversion H.
  - case_decide as Hin.
    + apply IH.
    + intros [->|H]%elem_of_cons; [exact Hin|].
      apply IH in H. set_solver.
Qed.

(** The output carries every link value at most once. *)
Lemma first_per_link_nodup (seen : gset pyval) (l : list Dict) :
  NoDup (map (fun a => get a "link") (first_per_link seen l)).
Proof.
  revert seen. induction l as [|b l IH]; intros seen; simpl; [constructor|].
  case_decide as Hin; [apply IH|]. simpl. constructor; [|apply IH].
  intros (a & Ha & Hel)%list_elem_of_fmap.
  apply first_per_link_fresh in Hel. set_solver.
Qed.

(** Of the records with one link value, only the first survives. *)
Lemma first_per_link_with_link (seen : gset pyval) (l : list Dict) (v : pyval) :
  with_link v (first_per_link seen l) =
  if decide (v ∈ seen) then [] else take 1 (with_link v l).
Proof.
  unfold with_link. revert seen. induction l as [|a l IH]; intros seen; simpl.
  - rewrite filter_nil. case_decide; reflexivity.
  - rewrite (filter_cons _ a l). destruct (decide (get a "link" ∈ seen)) as [Hin|Hin].
    + rewrite IH. destruct (decide (v ∈ seen)) as [Hv|Hv]; [reflexivity|].
      case_decide; [congruence | reflexivity].
    + rewrite filter_cons, IH. destruct (decide (get a "link" = v)) as [Heq|Hne].
      * rewrite decide_True by set_solver. rewrite decide_False by congruence. reflexivity.
      * destruct (decide (v ∈ seen)) as [Hv|Hv].
        -- rewrite decide_True by set_solver. reflexivity.
        -- rewrite decide_False by set_solver. reflexivity.
Qed.

Section Facts.

Context {Pattern : Type}.
Variable re_compile : string -> Z -> option Pattern.
Variable pattern_search : Pattern -> string -> bool.
Variable re_error : string -> Z -> string.

Local Abbreviation Engine := (Engine Pattern).
Local Abbreviation M := (M Pattern).
Local Abbreviation cache_consistent := (cache_consistent Pattern re_compile).
Local Abbreviation yields := (yields Pattern re_compile).
Local Abbreviation _compile_regex := (_compile_regex Pattern re_compile re_error).
Local Abbreviation _match_condition := (_match_condition Pattern re_compile pattern_search re_error).
Local Abbreviation collect_results := (collect_results Pattern re_compile pattern_search re_error).
Local Abbreviation _evaluate_rule := (_evaluate_rule Pattern re_compile pattern_search re_error).
Local Abbreviation apply_rule_loop := (apply_rule_loop Pattern re_compile pattern_search re_error).
Local Abbreviation apply_rule := (apply_rule Pattern re_compile pattern_search re_error).
Local Abbreviation apply_rules_loop := (apply_rules_loop Pattern re_compile pattern_search re_error).
Local Abbreviation apply_rules := (apply_rules Pattern re_compile pattern_search re_error).
Local Abbreviation condition_result := (condition_result Pattern re_compile pattern_search).
Local Abbreviation signed_result := (signed_result Pattern re_compile pattern_search).
Local Abbreviation rule_verdict := (rule_verdict Pattern re_compile pattern_search).
Local Abbreviation rule_matches := (rule_matches Pattern re_compile pattern_search).
Local Abbreviation applyRules_spec := (applyRules_spec Pattern re_compile pattern_search).
Local Abbreviation candidates := (candidates Pattern re_compile pattern_search).

Lemma new_engine_consistent : cache_consistent (new_engine Pattern).
Proof. intros p f pat _ H. simpl in H. rewrite lookup_empty in H. discriminate. Qed.

Lemma yields_ret {A} (a : A) : yields (ret Pattern a) a.
Proof. intros self H. exists self. split; [reflexivity | exact H]. Qed.

Lemma yields_bind {A B} (m : M A) (k : A -> M B) (a : A) (b : B) :
  yields m a -> yields (k a) b -> yields (bind Pattern m k) b.
Proof.
  intros Hm Hk self H. destruct (Hm self H) as (self1 & E1 & H1).
  destruct (Hk self1 H1) as (self2 & E2 & H2).
  exists self2. unfold bind. rewrite E1. auto.
Qed.

Lemma yields_try {A} (body : M A) (handler : exn -> M A) (a : A) :
  yields body a -> yields (try_except Pattern body handler) a.
Proof.
  intros Hm self H. destruct (Hm self H) as (self1 & E1 & H1).
  exists self1. unfold try_except. rewrite E1. auto.
Qed.

(** A valid pattern compiles to what [re.compile] gives, from the cache or
    afresh, and the cache stays consistent. *)
Lemma compile_regex_valid (pattern : string) (flags : Z) (p : Pattern) :
  valid_flags flags -> re_compile pattern flags = Some p ->
  yields (_compile_regex pattern flags) p.
Proof.
  intros Hf Hc self Hself. unfold FilterEngine._compile_regex.
  fold (cache_key pattern flags).
  destruct (compiled_regex_cache Pattern self !! cache_key pattern flags) as [q|] eqn:Hq.
  - exists self. split; [|exact Hself].
    apply (Hself _ _ _ Hf) in Hq. congruence.
  - rewrite Hc. eexists. split; [reflexivity|].
    intros p2 f2 q2 Hf2 Hlook. simpl in Hlook.
    destruct (decide (cache_key pattern flags = cache_key p2 f2)) as [Heq|Hne].
    + rewrite Heq, lookup_insert_eq in Hlook.
      apply cache_key_inj in Heq; [|assumption..]. destruct Heq as [-> ->]. congruence.
    + rewrite lookup_insert_ne in Hlook by exact Hne. eapply Hself; eassumption.
Qed.

(** An invalid pattern makes [_compile_regex] raise [ValueError], at every
    call: a failed compilation is not cached. *)
Lemma compile_regex_invalid (pattern : string) (flags : Z) (self : Engine) :
  valid_flags flags -> re_compile pattern flags = None -> cache_consistent self ->
  _compile_regex pattern flags self
  = (Raise (ValueError ("Invalid regex pattern: " +:+ re_error pattern flags)), self).
Proof.
  intros Hf Hc Hself. unfold FilterEngine._compile_regex. fold (cache_key pattern flags).
  destruct (compiled_regex_cache Pattern self !! cache_key pattern flags) as [q|] eqn:Hq.
  - apply (Hself _ _ _ Hf) in Hq. congruence.
  - rewrite Hc. reflexivity.
Qed.

(** The cached matcher computes [condition_result]. *)
Lemma match_condition_yields (article : Dict) (condition : FilterCondition) :
  yields (_match_condition article condition) (condition_result article condition).
Proof.
  unfold FilterEngine._match_condition, FilterEngine.condition_result, fold_case.
  destruct (get_or article (field condition) (PyStr "")) as [|s|z];
    [apply yields_ret| |];
    (destruct (match_type condition);
     [apply yields_try, yields_ret | apply yields_try, yields_ret | |
      apply yields_try, yields_ret | apply yields_try, yields_ret]).
  all: fold (regex_flags (case_sensitive condition)).
  all: match goal with
       | |- context [re_compile ?p ?f] => destruct (re_compile p f) as [pat|] eqn:Hc
       end.
  all: try (apply yields_try; eapply yields_bind;
            [apply compile_regex_valid; [apply regex_flags_valid | exact Hc]
            |apply yields_ret]).
  all: intros self Hself; exists self; split; [|exact Hself];
       unfold try_except, bind;
       rewrite compile_regex_invalid by (first [apply regex_flags_valid | assumption]);
       reflexivity.
Qed.


Lemma fold_results_fold_left (acc : bool) (rest : list (bool * FilterOperator)) :
  fold_results acc rest = fold_left combine rest acc.
Proof.
  revert acc. induction rest as [|[r op] rest IH]; intros acc; simpl; [reflexivity|].
  rewrite IH. unfold combine; simpl. destruct op; reflexivity.
Qed.

Lemma collect_results_yields (article : Dict) (conds : list FilterCondition)
    (results : list (bool * FilterOperator)) :
  yields (collect_results article conds results)
         (results ++ map (signed_result article) conds).
Proof.
  revert results. induction conds as [|c conds IH]; intros results; simpl.
  - rewrite app_nil_r. apply yields_ret.
  - eapply yields_bind; [apply match_condition_yields|].
    replace (results ++ signed_result article c :: map (signed_result article) conds)
      with ((results ++ [signed_result article c]) ++ map (signed_result article) conds)
      by (rewrite <- app_assoc; reflexivity).
    apply IH.
Qed.

(** The cached evaluator computes [rule_verdict]. *)
Lemma evaluate_rule_yields (article : Dict) (rule : FilterRule) :
  yields (_evaluate_rule article rule) (rule_verdict article rule).
Proof.
  unfold FilterEngine._evaluate_rule, FilterEngine.rule_verdict.
  destruct (is_active rule); simpl; [|apply yields_ret].
  case_bool_decide as Hc.
  - rewrite Hc. apply yields_ret.
  - eapply yields_bind; [apply collect_results_yields|]. simpl.
    destruct (conditions rule) as [|c cs]; [congruence|]. simpl.
    rewrite fold_results_fold_left. apply yields_ret.
Qed.

Lemma rule_matches_cons (a : Dict) (articles : list Dict) (rule : FilterRule) :
  rule_matches (a :: articles) rule =
  (if rule_verdict a rule then [annotate rule a] else []) ++ rule_matches articles rule.
Proof.
  unfold FilterEngine.rule_matches. rewrite filter_cons.
  destruct (rule_verdict a rule) eqn:E; case_decide; simpl; congruence.
Qed.

Lemma apply_rule_loop_yields (rule : FilterRule) (articles acc : list Dict) :
  yields (apply_rule_loop rule articles acc) (acc ++ rule_matches articles rule).
Proof.
  revert acc. induction articles as [|a articles IH]; intros acc; simpl.
  - unfold FilterEngine.rule_matches. rewrite filter_nil, app_nil_r. apply yields_ret.
  - rewrite rule_matches_cons, app_assoc.
    eapply yields_bind; [|apply IH].
    apply yields_try. eapply yields_bind; [apply evaluate_rule_yields|].
    destruct (rule_verdict a rule); [|rewrite app_nil_r]; apply yields_ret.
Qed.

Lemma apply_rule_yields (articles : list Dict) (rule : FilterRule) :
  yields (apply_rule articles rule)
         (if is_active rule then rule_matches articles rule else articles).
Proof.
  unfold FilterEngine.apply_rule. destruct (is_active rule); simpl.
  - apply (apply_rule_loop_yields rule articles []).
  - apply yields_ret.
Qed.


Lemma rules_in_order_active (rules : list FilterRule) :
  Forall (fun r => is_active r = true) (rules_in_order rules).
Proof.
  unfold rules_in_order. rewrite sorted_by_priority_desc_perm.
  apply Forall_forall. intros r Hr%list_elem_of_filter. tauto.
Qed.

Lemma apply_rules_loop_yields (articles : list Dict) (rs : list FilterRule)
    (all_matches : list Dict) (seen : gset pyval) :
  Forall (fun r => is_active r = true) rs ->
  yields (apply_rules_loop articles rs all_matches seen)
         (all_matches ++ first_per_link seen (concat (map (rule_matches articles) rs))).
Proof.
  revert all_matches seen. induction rs as [|r rs IH]; intros all_matches seen Hact; simpl.
  - rewrite app_nil_r. apply yields_ret.
  - inversion Hact as [|? ? Hr Hrs]; subst.
    eapply yields_bind; [apply apply_rule_yields|].
    rewrite Hr, add_unseen_spec, first_per_link_app, app_assoc.
    apply IH, Hrs.
Qed.

Lemma apply_rules_yields (articles : list Dict) (rules : list FilterRule) :
  yields (apply_rules articles rules)
         (if bool_decide (rules = []) then articles else applyRules_spec articles rules).
Proof.
  unfold FilterEngine.apply_rules. case_bool_decide; [apply yields_ret|].
  apply (apply_rules_loop_yields articles _ [] ∅), rules_in_order_active.
Qed.

Lemma yields_fst {A} (m : M A) (a : A) (self : Engine) :
  yields m a -> cache_consistent self -> fst (m self) = Ok a.
Proof. intros Hm H. destruct (Hm self H) as (self' & -> & _). reflexivity. Qed.

Lemma rule_matches_none (articles : list Dict) (rule : FilterRule) (v : pyval) :
  (forall a, a ∈ articles -> get a "link" = v -> rule_verdict a rule = false) ->
  with_link v (rule_matches articles rule) = [].
Proof.
  intros H. unfold with_link, FilterEngine.rule_matches.
  induction articles as [|a articles IH]; [reflexivity|].
  rewrite filter_cons. case_decide as Hv.
  - simpl. rewrite filter_cons. case_decide as Hl.
    + rewrite annotate_link in Hl. rewrite (H a) in Hv by (auto; left). discriminate.
    + apply IH. intros b Hb. apply H. right. exact Hb.
  - apply IH. intros b Hb. apply H. right. exact Hb.
Qed.

Lemma candidates_none (articles : list Dict) (rs : list FilterRule) (v : pyval) :
  (forall r a, r ∈ rs -> a ∈ articles -> get a "link" = v -> rule_verdict a r = false) ->
  with_link v (concat (map (rule_matches articles) rs)) = [].
Proof.
  intros H. unfold with_link. induction rs as [|r rs IH]; [reflexivity|]. simpl.
  rewrite filter_app. fold (with_link v (rule_matches articles r)).
  rewrite rule_matches_none by (intros a Ha; apply H; [left | exact Ha]).
  apply IH. intros r' a Hr'. apply H. right. exact Hr'.
Qed.

(** The first record of a link value among the candidates: the rule it
    comes from, and its place in the input. *)
Lemma head_concat_map {A B} (g : A -> list B) (l : list A) (d : B) :
  head (concat (map g l)) = Some d ->
  exists la a lb, l = la ++ a :: lb /\ Forall (fun x => g x = []) la /\ head (g a) = Some d.
Proof.
  induction l as [|x l IH]; simpl; [discriminate|]. intros Hd.
  destruct (g x) as [|y ys] eqn:Ex.
  - destruct (IH Hd) as (la & a & lb & -> & Hla & Ha).
    exists (x :: la), a, lb. split; [reflexivity|]. split; [constructor; assumption | exact Ha].
  - exists [], x, l. split; [reflexivity|]. split; [constructor|]. rewrite Ex. exact Hd.
Qed.

Lemma with_link_concat (v : pyval) (f : FilterRule -> list Dict) (rs : list FilterRule) :
  with_link v (concat (map f rs)) = concat (map (fun r => with_link v (f r)) rs).
Proof.
  unfold with_link. induction rs as [|r rs IH]; [reflexivity|]. simpl.
  rewrite filter_app, IH. reflexivity.
Qed.

Lemma rule_matches_some (articles : list Dict) (rule : FilterRule) (v : pyval) :
  with_link v (rule_matches articles rule) = [] ->
  forall a, a ∈ articles -> get a "link" = v -> rule_verdict a rule = false.
Proof.
  intros Hnone a Ha Hv. destruct (rule_verdict a rule) eqn:E; [|reflexivity]. exfalso.
  assert (Hin : annotate rule a ∈ with_link v (rule_matches articles rule)).
  { unfold with_link. apply list_elem_of_filter. split; [rewrite annotate_link; exact Hv|].
    unfold FilterEngine.rule_matches. apply list_elem_of_fmap. exists a.
    split; [reflexivity|]. apply list_elem_of_filter. split; assumption. }
  rewrite Hnone in Hin. inversion Hin.
Qed.

Lemma head_rule_matches (articles : list Dict) (rule : FilterRule) (v : pyval) (d : Dict) :
  head (with_link v (rule_matches articles rule)) = Some d ->
  exists before a0 after,
    articles = before ++ a0 :: after /\ d = annotate rule a0
    /\ rule_verdict a0 rule = true /\ get a0 "link" = v
    /\ forall a, a ∈ before -> get a "link" = v -> rule_verdict a rule = false.
Proof.
  induction articles as [|a articles IH]; [discriminate|].
  rewrite rule_matches_cons. unfold with_link. rewrite filter_app.
  destruct (rule_verdict a rule) eqn:E.
  - rewrite filter_cons, filter_nil. case_decide as Hv.
    + simpl. intros [= <-]. exists [], a, articles. rewrite annotate_link in Hv.
      split; [reflexivity|]. split; [reflexivity|]. split; [exact E|]. split; [exact Hv|].
      intros b Hb. inversion Hb.
    + simpl. intros Hd. destruct (IH Hd) as (before & a0 & after & -> & Hd0 & Hm & Hl & Hb).
      exists (a :: before), a0, after. split; [reflexivity|]. split; [exact Hd0|].
      split; [exact Hm|]. split; [exact Hl|].
      intros b Hb' Hbv. apply elem_of_cons in Hb' as [-> | Hb'].
      * exfalso. apply Hv. rewrite annotate_link. exact Hbv.
      * apply Hb; assumption.
  - rewrite filter_nil. simpl. intros Hd.
    destruct (IH Hd) as (before & a0 & after & -> & Hd0 & Hm & Hl & Hb).
    exists (a :: before), a0, after. split; [reflexivity|]. split; [exact Hd0|].
    split; [exact Hm|]. split; [exact Hl|].
    intros b Hb' Hbv. apply elem_of_cons in Hb' as [-> | Hb'].
    * exact E.
    * apply Hb; assumption.
Qed.

(** C3: for an active rule with at least one condition the verdict of
    [_evaluate_rule] is the left-to-right fold over the conditions: every
    result is inverted first when its combinator is NOT, the accumulator
    starts as the first result, and every later result is combined under
    its own combinator (AND conjunction, OR disjunction; a later NOT leaves
    the accumulator as it is). An inactive rule and a rule with no
    conditions evaluate to false. *)
Theorem C3_rule_verdict_is_left_fold (article : Dict) (rule : FilterRule) (self : Engine) :
  cache_consistent self ->
  (forall first later,
      is_active rule = true -> conditions rule = first :: later ->
      fst (_evaluate_rule article rule self) =
      Ok (fold_left combine (map (signed_result article) later)
                    (fst (signed_result article first))))
  /\ (is_active rule = false \/ conditions rule = [] ->
      fst (_evaluate_rule article rule self) = Ok false).
Proof.
  intros Hself.
  rewrite (yields_fst _ _ _ (evaluate_rule_yields article rule) Hself).
  unfold FilterEngine.rule_verdict. split.
  - intros first later -> ->. reflexivity.
  - intros [-> | ->]; [reflexivity|]. destruct (is_active rule); reflexivity.
Qed.

(** C9: in a rule with at least two conditions, a condition other than the
    first whose combinator is NOT never changes the accumulator: the verdict
    is that of the rule with this condition removed. *)
Theorem C9_later_not_condition_is_ignored (article : Dict) (rule : FilterRule)
    (before after : list FilterCondition) (c : FilterCondition) (self self' : Engine) :
  cache_consistent self -> cache_consistent self' ->
  conditions rule = before ++ c :: after -> before <> [] -> operator c = NOT ->
  fst (_evaluate_rule article rule self) =
  fst (_evaluate_rule article
         {| name := name rule; conditions := before ++ after;
            priority := priority rule; is_active := is_active rule |} self').
Proof.
  intros Hself Hself' Hc Hb Hop.
  rewrite (yields_fst _ _ _ (evaluate_rule_yields article rule) Hself).
  rewrite (yields_fst _ _ _ (evaluate_rule_yields article _) Hself').
  unfold FilterEngine.rule_verdict. simpl. rewrite Hc.
  destruct (is_active rule); [|reflexivity].
  destruct before as [|b before]; [congruence|]. simpl.
  rewrite !map_app, !fold_left_app. simpl.
  replace (combine _ (signed_result article c))
    with (fold_left combine (map (signed_result article) before) (fst (signed_result article b)));
    [reflexivity|].
  unfold combine, FilterEngine.signed_result at 3. simpl. rewrite Hop. reflexivity.
Qed.

(** C7, as the code has it: for an active rule [apply_rule] returns exactly
    the records for which the rule evaluates to true, each annotated with
    the rule's name and priority, in input order, so an active rule with no
    conditions returns nothing; for an inactive rule [apply_rule] returns
    its input unchanged. *)
Theorem C7_apply_rule_matches (articles : list Dict) (rule : FilterRule) (self : Engine) :
  cache_consistent self ->
  (forall a, fst (_evaluate_rule a rule self) = Ok (rule_verdict a rule))
  /\ (is_active rule = true ->
      fst (apply_rule articles rule self) =
      Ok (map (annotate rule) (filter (fun a => rule_verdict a rule = true) articles)))
  /\ (is_active rule = true -> conditions rule = [] ->
      fst (apply_rule articles rule self) = Ok [])
  /\ (is_active rule = false -> fst (apply_rule articles rule self) = Ok articles)
  /\ (forall a, annotate rule a !! "matched_rule" = Some (PyStr (name rule))
             /\ annotate rule a !! "filter_priority" = Some (PyInt (priority rule))
             /\ forall k, k <> "matched_rule" -> k <> "filter_priority" ->
                          annotate rule a !! k = a !! k).
Proof.
  intros Hself.
  rewrite (yields_fst _ _ _ (apply_rule_yields articles rule) Hself).
  split; [|split; [|split; [|split]]].
  - intros a. apply yields_fst; [apply evaluate_rule_yields | exact Hself].
  - intros ->. reflexivity.
  - intros -> Hc. f_equal. unfold FilterEngine.rule_matches.
    replace (filter _ articles) with (@nil Dict); [reflexivity|].
    symmetry. induction articles as [|a articles IH]; [reflexivity|].
    rewrite filter_cons, <- IH. unfold FilterEngine.rule_verdict. rewrite Hc.
    case_decide as H; [|reflexivity]. destruct (is_active rule); discriminate.
  - intros ->. reflexivity.
  - intros a. unfold annotate. split; [|split].
    + rewrite lookup_insert_ne by discriminate. apply lookup_insert_eq.
    + apply lookup_insert_eq.
    + intros k H1 H2. rewrite !lookup_insert_ne by congruence. reflexivity.
Qed.

(** C8, as the code has it: the condition matcher never raises; a field
    present with the value [None] gives false; a field missing from the
    record is read as the empty string, so a condition that is not a regex
    gives false exactly when its comparand is not empty. *)
Theorem C8_missing_field (article : Dict) (condition : FilterCondition) (self : Engine) :
  (exists b self', _match_condition article condition self = (Ok b, self'))
  /\ (article !! field condition = Some PyNone ->
      fst (_match_condition article condition self) = Ok false)
  /\ (article !! field condition = None -> match_type condition <> REGEX ->
      fst (_match_condition article condition self) =
      Ok (bool_decide (str (value condition) = ""))).
Proof.
  split; [|split].
  - unfold FilterEngine._match_condition, try_except, bind, ret, FilterEngine._compile_regex.
    destruct (get_or article (field condition) (PyStr "")); [eauto|..];
      destruct (match_type condition); eauto;
      match goal with
      | |- context [compiled_regex_cache _ ?s !! ?k] =>
          destruct (compiled_regex_cache _ s !! k); eauto
      end;
      match goal with
      | |- context [re_compile ?p ?f] => destruct (re_compile p f); eauto
      end.
  - intros H. unfold FilterEngine._match_condition, get_or. rewrite H. reflexivity.
  - intros H Hre. unfold FilterEngine._match_condition, get_or. rewrite H.
    cbn [default str].
    set (cv := if case_sensitive condition then str (value condition)
               else lower (str (value condition))).
    assert (Hcv : cv = "" <-> str (value condition) = "").
    { subst cv. destruct (case_sensitive condition); [tauto | apply lower_empty]. }
    replace (if case_sensitive condition then "" else lower "") with ""
      by (destruct (case_sensitive condition); reflexivity).
    rewrite <- (bool_decide_ext _ _ Hcv). clearbody cv.
    unfold try_except, ret.
    destruct (match_type condition); try congruence;
      rewrite ?endswith_empty_l; destruct cv; reflexivity.
Qed.

(** C6, as the code has it: for a regex condition whose pattern does not
    compile, [_compile_regex] raises [ValueError] with the text of the
    error of [re.compile] (at every use: the failure is not cached), and
    the condition matcher catches it and returns false to its caller, with
    the engine unchanged. The pattern is what the code compiles: the
    comparand as text, in lower case when the condition is not case
    sensitive, under the flags of the condition. *)
Theorem C6_invalid_regex_is_caught (article : Dict) (condition : FilterCondition)
    (self : Engine) :
  cache_consistent self ->
  match_type condition = REGEX ->
  re_compile (fold_case (case_sensitive condition) (str (value condition)))
             (regex_flags (case_sensitive condition)) = None ->
  _compile_regex (fold_case (case_sensitive condition) (str (value condition)))
                 (regex_flags (case_sensitive condition)) self
  = (Raise (ValueError
              ("Invalid regex pattern: "
               +:+ re_error (fold_case (case_sensitive condition) (str (value condition)))
                            (regex_flags (case_sensitive condition)))), self)
  /\ _match_condition article condition self = (Ok false, self).
Proof.
  intros Hself Hre Hbad.
  pose proof (compile_regex_invalid _ _ self
                (regex_flags_valid (case_sensitive condition)) Hbad Hself) as Hraise.
  split; [exact Hraise|].
  unfold FilterEngine._match_condition. rewrite Hre.
  unfold fold_case, regex_flags in Hraise.
  destruct (get_or article (field condition) (PyStr "")); [reflexivity|..];
    unfold try_except, bind; rewrite Hraise; reflexivity.
Qed.

(** C2, as the code has it: for a rule list that is not empty, [apply_rules]
    drops the inactive rules, visits the others by priority, highest first,
    rules of equal priority in the order of declaration, and returns the
    matches of each rule in input order, keeping of every link value only
    the first record: a record taken by an earlier rule is not emitted again.
    With A (priority 5) and B (priority 3) both matching R,
    [apply_rules [R] [A; B]] is the single copy of R annotated with A. With
    no rule at all the input is returned as it is, and the engine is left
    unchanged. *)
Theorem C2_apply_rules_by_priority (articles : list Dict) (rules : list FilterRule)
    (self : Engine) :
  cache_consistent self ->
  rules <> [] ->
  fst (apply_rules articles rules self) = Ok (applyRules_spec articles rules)
  /\ Permutation (rules_in_order rules) (filter (fun r => is_active r = true) rules)
  /\ StronglySorted priority_desc (rules_in_order rules)
  /\ (forall p, with_priority p (rules_in_order rules) =
                with_priority p (filter (fun r => is_active r = true) rules))
  /\ sublist (applyRules_spec articles rules) (candidates articles rules)
  /\ NoDup (map (fun a => get a "link") (applyRules_spec articles rules))
  /\ (forall R A B,
        priority A = 5 -> priority B = 3 ->
        is_active A = true -> is_active B = true ->
        rule_verdict R A = true -> rule_verdict R B = true ->
        fst (apply_rules [R] [A; B] self) = Ok [annotate A R])
  /\ apply_rules articles [] self = (Ok articles, self).
Proof.
  intros Hself Hne.
  rewrite (yields_fst _ _ _ (apply_rules_yields articles rules) Hself).
  rewrite bool_decide_eq_false_2 by exact Hne.
  split; [reflexivity|].
  split; [apply sorted_by_priority_desc_perm|].
  split; [apply sorted_by_priority_desc_sorted|].
  split; [intros p; apply sorted_by_priority_desc_stable|].
  split; [apply first_per_link_sublist|].
  split; [apply first_per_link_nodup|].
  split; [|reflexivity].
  intros R A B HA HB HaA HaB HvA HvB.
  rewrite (yields_fst _ _ _ (apply_rules_yields [R] [A; B]) Hself). simpl.
  unfold applyRules_spec, candidates, rules_in_order.
  rewrite !filter_cons, filter_nil, !decide_True by assumption. simpl.
  rewrite HA, HB. simpl.
  rewrite !rule_matches_cons, HvA, HvB. simpl.
  rewrite !annotate_link.
  rewrite decide_False by set_solver. rewrite decide_True by set_solver.
  reflexivity.
Qed.

(** C10: [apply_rules] keys its set of emitted records by the link value
    alone (a record with no link has the value [None]): of the records
    with one link value at most one is in the output, and when some record
    with that value matches a rule it is the copy made by the first rule, in
    priority order, that matches such a record, of the earliest such record
    in the input. Every record of the output is the copy made by a rule of
    the highest priority among the active rules that accept a record of its
    link value, and of the earliest record of that link value in the input
    that this rule accepts. *)
Theorem C10_one_record_per_link (articles : list Dict) (rules : list FilterRule)
    (self : Engine) :
  cache_consistent self ->
  rules <> [] ->
  exists out,
    fst (apply_rules articles rules self) = Ok out
    /\ (forall v, (length (with_link v out) <= 1)%nat)
    /\ (forall v earlier_rules r0 later_rules before a0 after,
          rules_in_order rules = earlier_rules ++ r0 :: later_rules ->
          articles = before ++ a0 :: after ->
          get a0 "link" = v ->
          rule_verdict a0 r0 = true ->
          (forall r a, r ∈ earlier_rules -> a ∈ articles -> get a "link" = v ->
                       rule_verdict a r = false) ->
          (forall a, a ∈ before -> get a "link" = v -> rule_verdict a r0 = false) ->
          with_link v out = [annotate r0 a0])
    /\ (forall d, d ∈ out ->
          exists r0 before a0 after,
            d = annotate r0 a0
            /\ r0 ∈ rules /\ is_active r0 = true
            /\ articles = before ++ a0 :: after
            /\ rule_verdict a0 r0 = true
            /\ (forall r a, r ∈ rules -> is_active r = true -> a ∈ articles ->
                            get a "link" = get a0 "link" -> rule_verdict a r = true ->
                            priority r <= priority r0)
            /\ (forall a, a ∈ before -> get a "link" = get a0 "link" ->
                          rule_verdict a r0 = false)).
Proof.
  intros Hself Hne. exists (applyRules_spec articles rules).
  rewrite (yields_fst _ _ _ (apply_rules_yields articles rules) Hself).
  rewrite bool_decide_eq_false_2 by exact Hne.
  split; [reflexivity|].
  unfold applyRules_spec. split; [|split].
  - intros v. rewrite first_per_link_with_link, decide_False by set_solver.
    rewrite length_take. lia.
  - intros v earlier r0 later before a0 after Hrules -> Hv Hm Hearlier Hbefore.
    rewrite first_per_link_with_link, decide_False by set_solver.
    unfold candidates. rewrite Hrules, map_app, concat_app. simpl.
    unfold with_link. rewrite !filter_app.
    fold (with_link v (concat (map (rule_matches (before ++ a0 :: after)) earlier))).
    rewrite candidates_none by exact Hearlier. simpl.
    unfold FilterEngine.rule_matches at 1.
    rewrite filter_app, map_app, filter_app.
    fold (FilterEngine.rule_matches Pattern re_compile pattern_search before r0).
    fold (with_link v (rule_matches before r0)).
    rewrite rule_matches_none by exact Hbefore. simpl.
    rewrite filter_cons, decide_True by exact Hm. simpl.
    rewrite filter_cons, decide_True by (rewrite annotate_link; exact Hv). reflexivity.
  - intros d Hd.
    assert (Hhead : head (with_link (get d "link") (candidates articles rules)) = Some d).
    { assert (Hin : d ∈ with_link (get d "link")
                          (first_per_link ∅ (candidates articles rules)))
        by (unfold with_link; apply list_elem_of_filter; split; [reflexivity | exact Hd]).
      rewrite first_per_link_with_link, decide_False in Hin by apply not_elem_of_empty.
      destruct (with_link (get d "link") (candidates articles rules)) as [|x l];
        [inversion Hin|].
      simpl in Hin. apply elem_of_cons in Hin as [-> | Hin]; [reflexivity | inversion Hin]. }
    unfold candidates in Hhead. rewrite with_link_concat in Hhead.
    apply head_concat_map in Hhead as (la & r0 & lb & Hrules & Hla & Hhead).
    apply head_rule_matches in Hhead as (before & a0 & after & Harts & -> & Hm & Hv & Hb).
    rewrite annotate_link in Hv, Hla, Hb.
    assert (Hr0 : r0 ∈ rules_in_order rules)
      by (rewrite Hrules; apply elem_of_app; right; left).
    unfold rules_in_order in Hr0.
    rewrite sorted_by_priority_desc_perm in Hr0. apply list_elem_of_filter in Hr0.
    exists r0, before, a0, after. split; [reflexivity|]. split; [tauto|]. split; [tauto|].
    split; [exact Harts|]. split; [exact Hm|]. split; [|exact Hb].
    intros r a Hr Hact Ha Hlink Hacc.
    assert (Hr' : r ∈ rules_in_order rules).
    { unfold rules_in_order. rewrite sorted_by_priority_desc_perm.
      apply list_elem_of_filter. tauto. }
    rewrite Hrules in Hr'. apply elem_of_app in Hr' as [Hr' | Hr'].
    + exfalso. rewrite Forall_forall in Hla.
      rewrite (rule_matches_some articles r _ (Hla r Hr') a Ha Hlink) in Hacc.
      discriminate.
    + apply elem_of_cons in Hr' as [-> | Hr']; [lia|].
      pose proof (sorted_by_priority_desc_sorted
                    (filter (fun r => is_active r = true) rules)) as Hsorted.
      fold (rules_in_order rules) in Hsorted. rewrite Hrules in Hsorted.
      apply StronglySorted_app_1_r, StronglySorted_inv in Hsorted as [_ Hall].
      rewrite Forall_forall in Hall. apply (Hall r Hr').
Qed.

End Facts.


(** *** The theorems at concrete inputs *)

Local Abbreviation sample_match_condition :=
  (_match_condition Sample.Pattern Sample.re_compile Sample.pattern_search Sample.re_error).
Local Abbreviation sample_evaluate_rule :=
  (_evaluate_rule Sample.Pattern Sample.re_compile Sample.pattern_search Sample.re_error).
Local Abbreviation sample_apply_rule :=
  (apply_rule Sample.Pattern Sample.re_compile Sample.pattern_search Sample.re_error).
Local Abbreviation sample_apply_rules :=
  (apply_rules Sample.Pattern Sample.re_compile Sample.pattern_search Sample.re_error).
Local Abbreviation sample_consistent :=
  (new_engine_consistent (Pattern := Sample.Pattern) Sample.re_compile).

Lemma C3_witness :
  fst (sample_evaluate_rule Sample.record_x1 Sample.rule_with_not Sample.new_engine) =
  Ok (fold_left combine
        (map (signed_result Sample.Pattern Sample.re_compile Sample.pattern_search
                Sample.record_x1)
             [Sample.title_condition "wins" CONTAINS NOT;
              Sample.title_condition "corp" CONTAINS OR])
        (fst (signed_result Sample.Pattern Sample.re_compile Sample.pattern_search
                Sample.record_x1 (Sample.title_condition "award" CONTAINS AND)))).
Proof.
  apply (C3_rule_verdict_is_left_fold Sample.re_compile Sample.pattern_search Sample.re_error
           Sample.record_x1 Sample.rule_with_not Sample.new_engine sample_consistent);
    reflexivity.
Defined.

Lemma C9_witness :
  fst (sample_evaluate_rule Sample.record_x1 Sample.rule_with_not Sample.new_engine) =
  fst (sample_evaluate_rule Sample.record_x1
         {| name := "mixed";
            conditions := [Sample.title_condition "award" CONTAINS AND] ++
                          [Sample.title_condition "corp" CONTAINS OR];
            priority := 2; is_active := true |} Sample.new_engine).
Proof.
  apply (C9_later_not_condition_is_ignored Sample.re_compile Sample.pattern_search
           Sample.re_error
           Sample.record_x1 Sample.rule_with_not
           [Sample.title_condition "award" CONTAINS AND]
           [Sample.title_condition "corp" CONTAINS OR]
           (Sample.title_condition "wins" CONTAINS NOT)
           Sample.new_engine Sample.new_engine sample_consistent sample_consistent);
    [reflexivity | discriminate | reflexivity].
Defined.

Lemma C7_witness :
  fst (sample_apply_rule [Sample.record_x1] Sample.rule_A Sample.new_engine) =
  Ok (map (annotate Sample.rule_A)
          (filter (fun a => rule_verdict Sample.Pattern Sample.re_compile
                              Sample.pattern_search a Sample.rule_A = true)
                  [Sample.record_x1])).
Proof.
  apply (C7_apply_rule_matches Sample.re_compile Sample.pattern_search Sample.re_error
           [Sample.record_x1] Sample.rule_A Sample.new_engine sample_consistent).
  reflexivity.
Defined.

(** C7 as stated fails for an inactive rule: the result is the input, not
    the empty list. *)
Lemma C7_inactive_rule_returns_input :
  fst (sample_apply_rule [Sample.record_x1] Sample.rule_inactive Sample.new_engine)
  = Ok [Sample.record_x1]
  /\ fst (sample_apply_rule [Sample.record_x1] Sample.rule_inactive Sample.new_engine)
     <> Ok [].
Proof. split; [reflexivity | discriminate]. Qed.

Lemma C8_witness :
  fst (sample_match_condition Sample.record_x1 Sample.nonempty_comparand Sample.new_engine)
  = Ok (bool_decide ("smith" = "")).
Proof.
  apply (C8_missing_field Sample.re_compile Sample.pattern_search Sample.re_error
           Sample.record_x1 Sample.nonempty_comparand Sample.new_engine);
    [reflexivity | discriminate].
Defined.

(** C8 as stated fails: the record has no [author] field and the matcher
    returns true for an empty comparand. *)
Lemma C8_missing_field_matches_empty_comparand :
  Sample.record_x1 !! "author" = None
  /\ fst (sample_match_condition Sample.record_x1 Sample.empty_comparand Sample.new_engine)
     = Ok true.
Proof. split; reflexivity. Qed.

Lemma C6_witness :
  _compile_regex Sample.Pattern Sample.re_compile Sample.re_error "(" IGNORECASE Sample.new_engine
  = (Raise (ValueError ("Invalid regex pattern: " +:+ Sample.re_error "(" IGNORECASE)),
     Sample.new_engine)
  /\ sample_match_condition Sample.record_x1 Sample.bad_regex Sample.new_engine
     = (Ok false, Sample.new_engine).
Proof.
  apply (C6_invalid_regex_is_caught Sample.re_compile Sample.pattern_search Sample.re_error
           Sample.record_x1 Sample.bad_regex Sample.new_engine sample_consistent);
    reflexivity.
Defined.

(** C6 as stated fails: the pattern does not compile, and the evaluation of
    the condition returns false instead of raising. *)
Lemma C6_invalid_regex_returns_false :
  Sample.re_compile "(" IGNORECASE = None
  /\ fst (sample_match_condition Sample.record_x1 Sample.bad_regex Sample.new_engine)
     = Ok false.
Proof. split; reflexivity. Qed.

Lemma C2_witness :
  fst (sample_apply_rules [Sample.record_x1] [Sample.rule_B; Sample.rule_A]
         Sample.new_engine)
  = Ok (applyRules_spec Sample.Pattern Sample.re_compile Sample.pattern_search
          [Sample.record_x1] [Sample.rule_B; Sample.rule_A]).
Proof.
  apply (C2_apply_rules_by_priority Sample.re_compile Sample.pattern_search Sample.re_error
           [Sample.record_x1] [Sample.rule_B; Sample.rule_A] Sample.new_engine
           sample_consistent).
  discriminate.
Defined.

(** C2 as stated fails for the empty rule list: no rule is evaluated and
    nothing matches, yet the input is returned. *)
Lemma C2_empty_rule_list_returns_input :
  fst (sample_apply_rules [Sample.record_x1] [] Sample.new_engine) = Ok [Sample.record_x1]
  /\ applyRules_spec Sample.Pattern Sample.re_compile Sample.pattern_search
       [Sample.record_x1] [] = [].
Proof. split; reflexivity. Qed.

Lemma C10_witness :
  exists out,
    fst (sample_apply_rules [Sample.record_x1; Sample.record_x1]
           [Sample.rule_B; Sample.rule_A] Sample.new_engine) = Ok out
    /\ with_link (PyStr "http://x/1") out = [annotate Sample.rule_A Sample.record_x1]
    /\ rule_verdict Sample.Pattern Sample.re_compile Sample.pattern_search
         Sample.record_x1 Sample.rule_B = true
    /\ priority Sample.rule_B < priority Sample.rule_A.
Proof.
  destruct (C10_one_record_per_link Sample.re_compile Sample.pattern_search Sample.re_error
              [Sample.record_x1; Sample.record_x1]
              [Sample.rule_B; Sample.rule_A] Sample.new_engine sample_consistent)
    as (out & Hout & _ & Hfirst & _); [discriminate|].
  exists out. split; [exact Hout|]. split; [|split; reflexivity].
  apply (Hfirst (PyStr "http://x/1") [] Sample.rule_A [Sample.rule_B] []
           Sample.record_x1 [Sample.record_x1]);
    try reflexivity.
  - intros r a Hr. inversion Hr.
  - intros a Ha. inversion Ha.
Defined.

End FilterEngineFacts.

(** * Properties of the content hash and of the ledger *)

Module LedgerFacts.
Import Py HashDatabaseManager.

Section Hash.

Variable md5 : string -> string.

Local Abbreviation hash_content := HashDatabaseManager.hash_content.
Local Abbreviation generate_content_hash := (HashDatabaseManager.generate_content_hash md5).
Local Abbreviation fingerprint := (HashDatabaseManager.fingerprint md5).
Local Abbreviation _generate_content_hash := (DatabaseManager._generate_content_hash md5).

(** The article store leaves an absent or internal link out of the hash. *)
Lemma store_hash_ignores_internal_link (title summary link : string) :
  link = "" \/ startswith link "internal://" = true ->
  _generate_content_hash title summary link =
  md5 (strip title +:+ "|" +:+ strip summary +:+ "|" +:+ "").
Proof.
  intros [-> | H]; unfold DatabaseManager._generate_content_hash.
  - reflexivity.
  - rewrite H, andb_false_r. reflexivity.
Qed.

(** The ledger takes its stabilizer from any link that is not empty. *)
Lemma ledger_hash_content_link (a : Dict) (title summary link : string) :
  a !! "title" = Some (PyStr title) -> a !! "summary" = Some (PyStr summary) ->
  a !! "link" = Some (PyStr link) -> link <> "" ->
  hash_content a = Ok (strip title +:+ "|" +:+ strip summary +:+ "|" +:+ slice_to 100 link).
Proof.
  intros Ht Hs Hl Hne. unfold HashDatabaseManager.hash_content, get_or.
  rewrite Ht, Hs, Hl. simpl.
  destruct (String.eqb_spec link ""); [congruence | reflexivity].
Qed.

Lemma generate_content_hash_wf (a : Dict) :
  well_formed a = true -> generate_content_hash a = Ok (fingerprint a).
Proof.
  intros Hwf. unfold HashDatabaseManager.fingerprint.
  destruct (generate_content_hash a) as [h|e] eqn:E; [reflexivity|]. exfalso.
  unfold HashDatabaseManager.generate_content_hash, HashDatabaseManager.hash_content,
    get_or, well_formed in *.
  destruct (a !! "title") as [[| |]|]; try discriminate;
    destruct (a !! "summary") as [[| |]|]; try discriminate;
    destruct (a !! "link") as [[|l|]|]; try discriminate; simpl in E;
    try destruct (String.eqb l ""); discriminate.
Qed.

(** C1: the ledger's fingerprint function does not set the stabilizer
    aside for a link of the internal scheme, although the content hash of the
    article store does. A record without a link is stored under a
    synthesized link that ends in a discriminator; read back with that
    link, its ledger fingerprint is the digest of a content that contains the
    synthesized link, so two discriminators give two contents. *)
Theorem C1_ledger_hash_keeps_internal_link :
  DatabaseManager.stored_link_and_hash md5 (Sample.article "T" "S" (PyStr "")) 1
    = Ok ("internal://unknown/t/1", md5 "T|S|")
  /\ DatabaseManager.stored_link_and_hash md5 (Sample.article "T" "S" (PyStr "")) 2
    = Ok ("internal://unknown/t/2", md5 "T|S|")
  /\ _generate_content_hash "T" "S" "internal://unknown/t/1" = md5 "T|S|"
  /\ generate_content_hash (Sample.article "T" "S" (PyStr "internal://unknown/t/1"))
    = Ok (md5 "T|S|internal://unknown/t/1")
  /\ generate_content_hash (Sample.article "T" "S" (PyStr "internal://unknown/t/2"))
    = Ok (md5 "T|S|internal://unknown/t/2")
  /\ hash_content (Sample.article "T" "S" (PyStr "internal://unknown/t/1"))
     <> hash_content (Sample.article "T" "S" (PyStr "internal://unknown/t/2"))
  /\ (forall a title summary link,
        a !! "title" = Some (PyStr title) -> a !! "summary" = Some (PyStr summary) ->
        a !! "link" = Some (PyStr link) -> link <> "" ->
        generate_content_hash a =
        Ok (md5 (strip title +:+ "|" +:+ strip summary +:+ "|" +:+ slice_to 100 link))).
Proof.
  repeat split; try reflexivity.
  - discriminate.
  - intros a title summary link Ht Hs Hl Hne.
    unfold HashDatabaseManager.generate_content_hash.
    rewrite (ledger_hash_content_link a title summary link Ht Hs Hl Hne). reflexivity.
Qed.

End Hash.

Section Ledger.

Variable md5 : string -> string.
Variable company_name_of : string -> string.
Variable order_by : list (string * Row) -> list (string * Row).
Hypothesis order_by_ok : orders_newest_first order_by.

Local Abbreviation generate_content_hash := (HashDatabaseManager.generate_content_hash md5).
Local Abbreviation fingerprint := (HashDatabaseManager.fingerprint md5).
Local Abbreviation get_processed_hashes :=
  (HashDatabaseManager.get_processed_hashes order_by).
Local Abbreviation filter_new_loop := (HashDatabaseManager.filter_new_loop md5).
Local Abbreviation filter_new_articles :=
  (HashDatabaseManager.filter_new_articles md5 order_by).
Local Abbreviation mark_loop := (HashDatabaseManager.mark_loop md5 company_name_of).
Local Abbreviation mark_articles_processed :=
  (HashDatabaseManager.mark_articles_processed md5 company_name_of).

Lemma filter_new_loop_wf (ph : gset string) (articles acc : list Dict) :
  wf_batch articles ->
  filter_new_loop ph articles acc =
  Ok (acc ++ filter (fun a => fingerprint a ∉ ph) articles).
Proof.
  revert acc. induction articles as [|a articles IH]; intros acc Hwf; simpl.
  - rewrite filter_nil, app_nil_r. reflexivity.
  - inversion Hwf as [|? ? Ha Hrest]; subst.
    rewrite (generate_content_hash_wf md5 a Ha). simpl.
    rewrite filter_cons. case_decide as Hin.
    + rewrite decide_False by tauto. apply IH, Hrest.
    + rewrite decide_True by exact Hin. rewrite IH by exact Hrest.
      rewrite <- app_assoc. reflexivity.
Qed.

Lemma filter_new_articles_wf (db : Table) (articles : list Dict) :
  wf_batch articles ->
  filter_new_articles db articles =
  Ok (filter (fun a => fingerprint a ∉ get_processed_hashes db 10000) articles).
Proof.
  intros Hwf. unfold HashDatabaseManager.filter_new_articles.
  destruct articles as [|a articles]; [reflexivity|].
  apply (filter_new_loop_wf _ (a :: articles) [] Hwf).
Qed.

Lemma mark_loop_wf (now : nat -> Z) (i : nat) (cn : gmap string string)
    (articles : list Dict) (db : Table) (count : Z) :
  wf_batch articles ->
  exists db',
    mark_loop now i cn articles db count = (count + Z.of_nat (length articles), db')
    /\ dom db' = dom db ∪ list_to_set (map fingerprint articles).
Proof.
  revert i db count. induction articles as [|a articles IH]; intros i db count Hwf; simpl.
  - exists db. split; [f_equal; lia | set_solver].
  - inversion Hwf as [|? ? Ha Hrest]; subst.
    rewrite (generate_content_hash_wf md5 a Ha).
    assert (Ht : exists t, get_or a "title" (PyStr "") = PyStr t).
    { unfold well_formed, get_or in *.
      destruct (a !! "title") as [[| |]|]; simpl in *; try discriminate; eauto. }
    destruct Ht as [t ->].
    assert (Hc : exists c, HashDatabaseManager._extract_company_name company_name_of (PyStr t)
                           = Ok c).
    { unfold HashDatabaseManager._extract_company_name. simpl.
      destruct (negb (negb (t =? "")%string)); eauto. }
    destruct Hc as [c ->]. simpl.
    edestruct (IH (S i)) as (db' & -> & Hdom); [exact Hrest|].
    exists db'. split; [f_equal; lia|].
    rewrite Hdom. unfold insert_or_replace. rewrite dom_insert_L. set_solver.
Qed.

Lemma mark_articles_processed_wf (now : nat -> Z) (db : Table) (articles : list Dict)
    (cn : gmap string string) :
  wf_batch articles ->
  exists db',
    mark_articles_processed now db articles cn = (Z.of_nat (length articles), db')
    /\ dom db' = dom db ∪ list_to_set (map fingerprint articles).
Proof.
  intros Hwf. unfold HashDatabaseManager.mark_articles_processed.
  destruct articles as [|a articles].
  - exists db. split; [reflexivity | set_solver].
  - apply (mark_loop_wf now 0 cn (a :: articles) db 0 Hwf).
Qed.

(** *** The window of the most recent fingerprints *)

Lemma processed_hashes_subseteq (db : Table) (limit : Z) :
  get_processed_hashes db limit ⊆ dom db.
Proof.
  unfold HashDatabaseManager.get_processed_hashes. intros h Hh.
  apply elem_of_list_to_set, list_elem_of_fmap in Hh. destruct Hh as ([h' r] & -> & Hin).
  apply subseteq_take in Hin.
  rewrite (proj1 (order_by_ok _)) in Hin.
  apply elem_of_map_to_list in Hin. apply elem_of_dom. eauto.
Qed.

(** A ledger that fits in the window is consulted in full. *)
Lemma processed_hashes_all (db : Table) (limit : Z) :
  (size db <= Z.to_nat limit)%nat ->
  get_processed_hashes db limit = dom db.
Proof.
  intros Hsize. unfold HashDatabaseManager.get_processed_hashes.
  rewrite take_ge.
  - rewrite (proj1 (order_by_ok _)). apply leibniz_equiv. symmetry. apply dom_alt.
  - rewrite (proj1 (order_by_ok _)), length_map_to_list. exact Hsize.
Qed.


Lemma filter_none {A} (P : A -> Prop) `{forall x, Decision (P x)} (l : list A) :
  (forall x, x ∈ l -> ~ P x) -> filter P l = [].
Proof.
  induction l as [|x l IH]; intros Hl; [reflexivity|].
  rewrite filter_cons, decide_False by (apply Hl; left).
  apply IH. intros y Hy. apply Hl. right. exact Hy.
Qed.

Lemma wf_batch_filter (P : Dict -> Prop) `{forall x, Decision (P x)} (l : list Dict) :
  wf_batch l -> wf_batch (filter P l).
Proof.
  unfold wf_batch. rewrite !Forall_forall. intros Hl a Ha%list_elem_of_filter.
  apply Hl. tauto.
Qed.

(** C5, as the code has it: for every batch of well-formed records and
    every ledger state, [filter_new_articles], then
    [mark_articles_processed] on its result (which writes every record of
    it), then [filter_new_articles] again yields the empty list, provided
    the ledger after the commit holds at most 10000 fingerprints, the number
    of most recent fingerprints that [filter_new_articles] consults. *)
Theorem C5_round_trip_within_window (now : nat -> Z) (db : Table) (batch : list Dict)
    (labels : gmap string string) :
  wf_batch batch ->
  exists new db',
    filter_new_articles db batch = Ok new
    /\ mark_articles_processed now db new labels = (Z.of_nat (length new), db')
    /\ (Z.of_nat (size db') <= 10000 -> filter_new_articles db' batch = Ok []).
Proof.
  intros Hwf.
  set (new := filter (fun a => fingerprint a ∉ get_processed_hashes db 10000) batch).
  assert (Hnew : wf_batch new) by (apply wf_batch_filter, Hwf).
  destruct (mark_articles_processed_wf now db new labels Hnew) as (db' & Hmark & Hdom).
  exists new, db'. split; [apply filter_new_articles_wf, Hwf|]. split; [exact Hmark|].
  intros Hsize. rewrite (filter_new_articles_wf db' batch Hwf). f_equal.
  rewrite processed_hashes_all by lia.
  apply filter_none. intros a Ha Hfresh. apply Hfresh. rewrite Hdom.
  destruct (decide (fingerprint a ∈ get_processed_hashes db 10000)) as [Hin|Hout].
  - apply elem_of_union_l. revert Hin. apply processed_hashes_subseteq.
  - apply elem_of_union_r, elem_of_list_to_set, list_elem_of_fmap.
    exists a. split; [reflexivity|]. apply list_elem_of_filter. tauto.
Qed.


Lemma ordered_rows (db : Table) :
  let l := order_by (map_to_list db) in
  NoDup (map fst l)
  /\ length l = size db
  /\ StronglySorted newest_first l
  /\ forall h row, (h, row) ∈ l <-> db !! h = Some row.
Proof.
  destruct (order_by_ok (map_to_list db)) as [Hperm Hsorted]. simpl.
  split; [|split; [|split]].
  - rewrite Hperm. apply NoDup_fst_map_to_list.
  - rewrite Hperm. apply length_map_to_list.
  - exact Hsorted.
  - intros h row. rewrite Hperm. apply elem_of_map_to_list.
Qed.

(** The fingerprint written before all others is not consulted once the
    ledger holds more rows than the window. *)
Lemma oldest_evicted (db : Table) (limit : Z) (h : string) (row : Row) :
  db !! h = Some row ->
  (forall h' row', db !! h' = Some row' -> h' <> h ->
                   processed_at row < processed_at row') ->
  (Z.to_nat limit < size db)%nat ->
  h ∉ get_processed_hashes db limit.
Proof.
  intros Hrow Holdest Hsize.
  destruct (ordered_rows db) as (Hnodup & Hlen & Hsorted & Hmem).
  unfold HashDatabaseManager.get_processed_hashes.
  set (l := order_by (map_to_list db)) in *.
  assert (Hin : (h, row) ∈ l) by (apply Hmem, Hrow).
  apply list_elem_of_split in Hin. destruct Hin as (l1 & l2 & Hl).
  rewrite Hl in Hnodup, Hsorted, Hlen, Hmem |- *.
  assert (Hl2 : l2 = []).
  { destruct l2 as [|[h2 r2] l2]; [reflexivity|]. exfalso.
    apply StronglySorted_app_1_r, StronglySorted_cons, proj1 in Hsorted.
    apply Forall_cons_1, proj1 in Hsorted. unfold newest_first in Hsorted; simpl in Hsorted.
    assert (Hne : h2 <> h).
    { intros ->. rewrite fmap_app in Hnodup. apply NoDup_app in Hnodup.
      destruct Hnodup as (_ & _ & Hn). simpl in Hn. apply NoDup_cons_1_1 in Hn.
      apply Hn. left. }
    assert (H2 : db !! h2 = Some r2).
    { apply Hmem. apply elem_of_app. right. right. left. }
    specialize (Holdest h2 r2 H2 Hne). lia. }
  subst l2. rewrite length_app in Hlen. simpl in Hlen.
  rewrite take_app_le by lia.
  intros Hh. apply elem_of_list_to_set, list_elem_of_fmap in Hh.
  destruct Hh as ([h' r'] & Heq & Hin'). simpl in Heq. subst h'.
  apply subseteq_take in Hin'.
  rewrite fmap_app in Hnodup. apply NoDup_app in Hnodup.
  destruct Hnodup as (_ & Hdisj & _).
  apply (Hdisj h); [|left].
  apply list_elem_of_fmap. exists (h, r'). split; [reflexivity | exact Hin'].
Qed.

(** The fingerprint written after all others is always consulted. *)
Lemma newest_kept (db : Table) (limit : Z) (h : string) (row : Row) :
  db !! h = Some row ->
  (forall h' row', db !! h' = Some row' -> h' <> h ->
                   processed_at row' < processed_at row) ->
  0 < limit ->
  h ∈ get_processed_hashes db limit.
Proof.
  intros Hrow Hnewest Hlimit.
  destruct (ordered_rows db) as (Hnodup & Hlen & Hsorted & Hmem).
  unfold HashDatabaseManager.get_processed_hashes.
  set (l := order_by (map_to_list db)) in *.
  assert (Hin : (h, row) ∈ l) by (apply Hmem, Hrow).
  apply list_elem_of_split in Hin. destruct Hin as (l1 & l2 & Hl).
  rewrite Hl in Hnodup, Hsorted, Hlen, Hmem |- *.
  assert (Hl1 : l1 = []).
  { destruct l1 as [|[h1 r1] l1]; [reflexivity|]. exfalso.
    assert (Hle : newest_first (h1, r1) (h, row)).
    { eapply StronglySorted_app_1_elem_of; [exact Hsorted | left | left]. }
    unfold newest_first in Hle; simpl in Hle.
    assert (Hne : h1 <> h).
    { intros ->. simpl in Hnodup. apply NoDup_cons_1_1 in Hnodup. apply Hnodup.
      rewrite fmap_app. apply elem_of_app. right. left. }
    assert (H1 : db !! h1 = Some r1) by (apply Hmem; left).
    specialize (Hnewest h1 r1 H1 Hne). lia. }
  subst l1. simpl.
  destruct (Z.to_nat limit) as [|n] eqn:En; [lia|]. simpl.
  apply elem_of_union_l, elem_of_singleton. reflexivity.
Qed.

End Ledger.

(** *** The sample ordering, and the theorems at concrete inputs *)

Lemma sample_insert_row_perm (r : string * Row) (l : list (string * Row)) :
  Permutation (Sample.insert_row r l) (r :: l).
Proof.
  induction l as [|r' l IH]; simpl; [reflexivity|].
  destruct (processed_at (snd r') <? processed_at (snd r)); [reflexivity|].
  rewrite IH. apply perm_swap.
Qed.

Lemma sample_insert_row_sorted (r : string * Row) (l : list (string * Row)) :
  StronglySorted newest_first l -> StronglySorted newest_first (Sample.insert_row r l).
Proof.
  induction 1 as [|r' l Hs IH Hall]; simpl.
  - repeat constructor.
  - destruct (processed_at (snd r') <? processed_at (snd r)) eqn:E.
    + apply Z.ltb_lt in E. constructor; [constructor; assumption|].
      constructor; [unfold newest_first; lia|].
      eapply Forall_impl; [exact Hall|]. unfold newest_first. intros; lia.
    + apply Z.ltb_ge in E. constructor; [exact IH|].
      rewrite sample_insert_row_perm. constructor; [exact E | exact Hall].
Qed.

Lemma sample_order_by_ok : orders_newest_first Sample.order_by_processed_at_desc.
Proof.
  intros l. unfold Sample.order_by_processed_at_desc.
  induction l as [|r l [IHp IHs]]; simpl; [split; [reflexivity | constructor]|].
  split.
  - rewrite sample_insert_row_perm. apply perm_skip, IHp.
  - apply sample_insert_row_sorted, IHs.
Qed.

Local Abbreviation sample_filter_new :=
  (filter_new_articles Sample.md5 Sample.order_by_processed_at_desc).
Local Abbreviation sample_mark :=
  (mark_articles_processed Sample.md5 Sample.company_name_of).
Local Abbreviation sample_window :=
  (get_processed_hashes Sample.order_by_processed_at_desc).
Local Abbreviation full_ledger_after :=
  (<["B|new|" := Sample.row_new]> Sample.full_ledger).

Lemma C5_witness :
  exists new db',
    sample_filter_new Sample.small_ledger [Sample.old_article; Sample.new_article] = Ok new
    /\ sample_mark (Sample.clock_from 1) Sample.small_ledger new ∅
       = (Z.of_nat (length new), db')
    /\ sample_filter_new db' [Sample.old_article; Sample.new_article] = Ok [].
Proof.
  destruct (C5_round_trip_within_window Sample.md5 Sample.company_name_of
              Sample.order_by_processed_at_desc sample_order_by_ok
              (Sample.clock_from 1) Sample.small_ledger
              [Sample.old_article; Sample.new_article] ∅)
    as (new & db' & Hnew & Hmark & Hround); [repeat constructor|].
  exists new, db'. split; [exact Hnew|]. split; [exact Hmark|].
  apply Hround.
  assert (Hn : new = [Sample.new_article]).
  { assert (E : sample_filter_new Sample.small_ledger
                  [Sample.old_article; Sample.new_article] = Ok [Sample.new_article])
      by reflexivity.
    rewrite E in Hnew. injection Hnew as <-. reflexivity. }
  subst new.
  assert (E : sample_mark (Sample.clock_from 1) Sample.small_ledger [Sample.new_article] ∅
              = (1, <["B|new|" := {| processed_at := 1; title := "B";
                                     company_name := "B"; article_link := PyStr "" |}]>
                      Sample.small_ledger))
    by reflexivity.
  rewrite E in Hmark. injection Hmark as <-.
  rewrite map_size_insert_None by reflexivity.
  unfold Sample.small_ledger. rewrite map_size_insert_None by reflexivity.
  rewrite map_size_empty. lia.
Defined.

(** The keys of the filler rows. *)
Lemma filler_key_inj (i j : nat) :
  "#" +:+ pretty (Z.of_nat i) = "#" +:+ pretty (Z.of_nat j) -> i = j.
Proof.
  rewrite !FilterEngineFacts.append_cons, !FilterEngineFacts.append_nil_l.
  intros H. injection H as H. apply (inj pretty) in H. lia.
Qed.

Lemma filler_rows_elem (n : nat) (h : string) (r : Row) :
  (h, r) ∈ Sample.filler_rows n ->
  exists i, (1 <= i <= n)%nat /\ h = "#" +:+ pretty (Z.of_nat i)
            /\ r = Sample.row_at (Z.of_nat i).
Proof.
  unfold Sample.filler_rows. intros (i & Heq & Hi)%list_elem_of_fmap.
  apply elem_of_seq in Hi. injection Heq as -> ->. exists i. split; [lia | auto].
Qed.

Lemma filler_keys_nodup (n : nat) : NoDup (map fst (Sample.filler_rows n)).
Proof.
  unfold Sample.filler_rows. rewrite map_map. simpl.
  apply NoDup_fmap_2_strong; [|apply NoDup_seq].
  intros i j _ _. apply filler_key_inj.
Qed.

Lemma filler_keys_fresh (n : nat) (h : string) :
  h = "A|old|" \/ h = "B|new|" -> h ∉ map fst (Sample.filler_rows n).
Proof.
  intros Hh ([h' r] & Heq & Hin)%list_elem_of_fmap. simpl in Heq. subst h'.
  apply filler_rows_elem in Hin. destruct Hin as (i & _ & Hk & _).
  rewrite FilterEngineFacts.append_cons in Hk. destruct Hh; subst h; discriminate.
Qed.

Lemma ledger_keys_nodup (n : nat) :
  NoDup (map fst (("A|old|", Sample.row_at 0) :: Sample.filler_rows n)).
Proof.
  simpl. constructor; [apply filler_keys_fresh; left; reflexivity | apply filler_keys_nodup].
Qed.

Lemma full_ledger_lookup (h : string) (r : Row) :
  Sample.full_ledger !! h = Some r ->
  (h = "A|old|" /\ r = Sample.row_at 0)
  \/ exists i, (1 <= i <= Z.to_nat 9999)%nat /\ h = "#" +:+ pretty (Z.of_nat i)
               /\ r = Sample.row_at (Z.of_nat i).
Proof.
  unfold Sample.full_ledger. intros H.
  apply elem_of_list_to_map in H; [|apply ledger_keys_nodup].
  apply elem_of_cons in H. destruct H as [H|H].
  - left. injection H as -> ->. auto.
  - right. apply filler_rows_elem, H.
Qed.

Lemma full_ledger_old : Sample.full_ledger !! "A|old|" = Some (Sample.row_at 0).
Proof.
  unfold Sample.full_ledger. apply elem_of_list_to_map; [apply ledger_keys_nodup | left].
Qed.

Lemma full_ledger_new : Sample.full_ledger !! "B|new|" = None.
Proof.
  unfold Sample.full_ledger. apply not_elem_of_list_to_map. rewrite fmap_cons.
  apply not_elem_of_cons. split; [discriminate|].
  apply filler_keys_fresh. right. reflexivity.
Qed.

Lemma full_ledger_size : size Sample.full_ledger = Z.to_nat 10000.
Proof.
  unfold Sample.full_ledger. rewrite map_size_list_to_map by apply ledger_keys_nodup.
  cbn [length]. unfold Sample.filler_rows. rewrite length_map, length_seq. lia.
Qed.

Lemma sample_fingerprints :
  fingerprint Sample.md5 Sample.old_article = "A|old|"
  /\ fingerprint Sample.md5 Sample.new_article = "B|new|".
Proof. split; reflexivity. Qed.

Lemma sample_mark_new (db : Table) :
  sample_mark (Sample.clock_from 10000) db [Sample.new_article] ∅
  = (1, <["B|new|" := Sample.row_new]> db).
Proof. reflexivity. Qed.

Lemma sample_batch_wf : wf_batch [Sample.old_article; Sample.new_article].
Proof. repeat constructor. Qed.

(** C5 as stated fails on a ledger that fills the window of 10000: the
    commit of the one new record pushes the oldest fingerprint out of the
    window, and the second [filter_new_articles] returns its record. *)
Lemma C5_oldest_fingerprint_resurfaces :
  sample_filter_new Sample.full_ledger [Sample.old_article; Sample.new_article]
  = Ok [Sample.new_article]
  /\ sample_mark (Sample.clock_from 10000) Sample.full_ledger [Sample.new_article] ∅
     = (1, full_ledger_after)
  /\ sample_filter_new full_ledger_after [Sample.old_article; Sample.new_article]
     = Ok [Sample.old_article].
Proof.
  destruct sample_fingerprints as [Hold Hnew].
  split; [|split].
  - rewrite (filter_new_articles_wf _ _ _ _ sample_batch_wf).
    rewrite (processed_hashes_all _ sample_order_by_ok)
      by (rewrite full_ledger_size; lia).
    rewrite !filter_cons, filter_nil, Hold, Hnew.
    rewrite decide_False
      by (intros H; apply H, elem_of_dom; rewrite full_ledger_old; eauto).
    rewrite decide_True
      by (intros [r H]%elem_of_dom; rewrite full_ledger_new in H; discriminate).
    reflexivity.
  - apply sample_mark_new.
  - rewrite (filter_new_articles_wf _ _ _ _ sample_batch_wf).
    rewrite !filter_cons, filter_nil, Hold, Hnew.
    rewrite decide_True.
    + rewrite decide_False; [reflexivity|]. intros H. apply H.
      apply (newest_kept _ sample_order_by_ok _ _ _ Sample.row_new);
        [apply lookup_insert_eq | | lia].
      intros h' r' Hl Hne.
      rewrite lookup_insert_ne in Hl by congruence.
      apply full_ledger_lookup in Hl.
      destruct Hl as [[-> ->] | (i & Hi & -> & ->)]; simpl; lia.
    + apply (oldest_evicted _ sample_order_by_ok _ _ _ (Sample.row_at 0)).
      * rewrite lookup_insert_ne by discriminate. apply full_ledger_old.
      * intros h' r' Hl Hne.
        destruct (decide (h' = "B|new|")) as [->|Hn].
        -- rewrite lookup_insert_eq in Hl. injection Hl as <-. simpl. lia.
        -- rewrite lookup_insert_ne in Hl by congruence.
           apply full_ledger_lookup in Hl.
           destruct Hl as [[-> ->] | (i & Hi & -> & ->)]; [congruence|]. simpl. lia.
      * rewrite map_size_insert_None by apply full_ledger_new.
        rewrite full_ledger_size. lia.
Qed.

End LedgerFacts.

(** * Properties of a pipeline run *)

Module ProcessorFacts.
Import Py Processor.

Section Run.

Context {Pattern : Type}.
Variable re_compile : string -> Z -> option Pattern.
Variable pattern_search : Pattern -> string -> bool.
Variable re_error : string -> Z -> string.
Variable md5 : string -> string.
Variable ledger_company_name_of : string -> string.
Variable order_by :
  list (string * HashDatabaseManager.Row) -> list (string * HashDatabaseManager.Row).
Variable fetch_and_search : exc (list Dict * Z).
Context {FinancialData : Type}.
Variable financial_lookup : list Dict -> FinancialData.
Variable financial_ok_count : FinancialData -> Z.
Variable send_email : list Dict -> FinancialData -> exc bool.
Variable company_name_of : string -> string.
Variable exn_str : exn -> string.

Local Abbreviation fetch_rss_articles := (Processor.fetch_rss_articles fetch_and_search).
Local Abbreviation filter_awards_articles :=
  (Processor.filter_awards_articles Pattern re_compile pattern_search re_error).
Local Abbreviation get_new_articles_only :=
  (Processor.get_new_articles_only md5 order_by).
Local Abbreviation fetched := (Processor.fetched fetch_and_search).
Local Abbreviation filtered_of := (Processor.filtered_of Pattern re_compile pattern_search re_error).
Local Abbreviation new_of := (Processor.new_of md5 order_by).
Local Abbreviation new_batch :=
  (Processor.new_batch Pattern re_compile pattern_search re_error md5 order_by fetch_and_search).
Local Abbreviation new_articles_of_run :=
  (Processor.new_articles_of_run Pattern re_compile pattern_search re_error md5 order_by
     fetch_and_search).
Local Abbreviation process_rss_awards :=
  (Processor.process_rss_awards Pattern re_compile pattern_search re_error md5
     ledger_company_name_of order_by fetch_and_search FinancialData financial_lookup
     financial_ok_count send_email company_name_of exn_str).

(** The world after one more stage is entered. *)
Local Abbreviation entered w s := {| hash_db := hash_db w; calls := calls w ++ [s] |}.

Lemma fetch_rss_articles_run (w : World) :
  fetch_rss_articles w = (Ok fetched, entered w FETCH).
Proof.
  unfold Processor.fetch_rss_articles, Processor.fetched, pbind, ptry, lift, pret, enter.
  destruct fetch_and_search; reflexivity.
Qed.

Lemma filter_awards_articles_run (articles : list Dict) (w : World) :
  filter_awards_articles articles w = (Ok (filtered_of articles), entered w FILTER).
Proof.
  unfold Processor.filter_awards_articles, Processor.filtered_of, pbind, ptry, lift,
    pret, enter.
  destruct articles as [|a articles]; [reflexivity|].
  destruct (fst _); reflexivity.
Qed.

Lemma get_new_articles_only_run (articles : list Dict) (w : World) :
  get_new_articles_only articles w = (Ok (new_of (hash_db w) articles), entered w DEDUP).
Proof.
  unfold Processor.get_new_articles_only, Processor.new_of, pbind, ptry, pret, enter.
  simpl. destruct (HashDatabaseManager.filter_new_articles _ _ _ _); reflexivity.
Qed.

(** The first three stages find [new_batch] of the ledger, and leave the
    ledger as it is. *)
Lemma new_articles_of_run_run (w : World) :
  new_articles_of_run w =
  (Ok (new_batch (hash_db w)),
   {| hash_db := hash_db w; calls := calls w ++ [FETCH; FILTER; DEDUP] |}).
Proof.
  unfold Processor.new_articles_of_run, Processor.new_batch, pbind.
  rewrite fetch_rss_articles_run, filter_awards_articles_run, get_new_articles_only_run.
  simpl. rewrite <- !app_assoc. reflexivity.
Qed.


Ltac run_stages :=
  cbv beta iota zeta delta
    [Processor.get_financial_data Processor.send_email_alert
     Processor.mark_articles_processed pbind ptry lift pret enter fst snd hash_db calls].

Ltac not_in_trace H :=
  exfalso;
  repeat (apply elem_of_cons in H; destruct H as [H|H]; [discriminate H|]);
  apply elem_of_nil in H; exact H.

(** C4: in every run the ledger commit is entered only if the notification
    reported success. When the notification returns false (or raises), the
    run reports [email_sent = false], COMMIT is not among the stages entered,
    the ledger is left as it was, and the first three stages of a later run
    on that ledger find the same batch of new articles, which is not
    empty. *)
Theorem C4_commit_only_after_successful_notify (now : nat -> Z) (w : World) :
  exists r w' trace,
    process_rss_awards now w = (Ok r, w')
    /\ calls w' = calls w ++ trace
    /\ (COMMIT ∈ trace -> email_sent r = true)
    /\ (email_sent r = false ->
        (COMMIT ∉ trace) /\ hash_db w' = hash_db w
        /\ fst (new_articles_of_run w') = fst (new_articles_of_run w))
    /\ (NOTIFY ∈ trace ->
        exists new,
          fst (new_articles_of_run w) = Ok new /\ new <> []
          /\ (send_email new (financial_lookup new) = Ok true <-> email_sent r = true)).
Proof.
  assert (Hsame : forall w', hash_db w' = hash_db w ->
                             fst (new_articles_of_run w') = fst (new_articles_of_run w))
    by (intros w' H; rewrite !new_articles_of_run_run, H; reflexivity).
  assert (Hnew : fst (new_articles_of_run w) = Ok (new_batch (hash_db w)))
    by (rewrite new_articles_of_run_run; reflexivity).
  unfold Processor.process_rss_awards, ptry, pbind.
  rewrite fetch_rss_articles_run, filter_awards_articles_run, get_new_articles_only_run.
  cbn [hash_db].
  change (new_of (hash_db w) (filtered_of (fst fetched))) with (new_batch (hash_db w)).
  destruct (new_batch (hash_db w)) as [|a new] eqn:Enew.
  - eexists _, _, _. split; [reflexivity|].
    split; [simpl; rewrite <- !app_assoc; reflexivity|].
    split; [intros H; not_in_trace H|].
    split; [|intros H; not_in_trace H].
    intros _. split; [intros H; not_in_trace H|]. split; [reflexivity|].
    apply Hsame. reflexivity.
  - run_stages.
    destruct (send_email (a :: new) (financial_lookup (a :: new))) as [[|]|e] eqn:Esend;
      run_stages.
    + destruct (Processor.company_names_loop company_name_of (a :: new) ∅) as [names|e];
        run_stages;
        [match goal with
         | |- context [HashDatabaseManager.mark_articles_processed ?f ?g ?n ?d ?l ?m] =>
             destruct (HashDatabaseManager.mark_articles_processed f g n d l m)
               as [count db']
         end|].
      all: eexists _, _, _; (split; [reflexivity|]).
      all: split; [simpl; rewrite <- !app_assoc; reflexivity|].
      all: split; [reflexivity|].
      all: split; [discriminate|].
      all: intros _; exists (a :: new); split; [exact Hnew|]; split; [discriminate|].
      all: rewrite Esend; split; reflexivity.
    + eexists _, _, _. split; [reflexivity|].
      split; [simpl; rewrite <- !app_assoc; reflexivity|].
      split; [intros H; not_in_trace H|].
      split.
      * intros _. split; [intros H; not_in_trace H|]. split; [reflexivity|].
        apply Hsame. reflexivity.
      * intros _. exists (a :: new). split; [exact Hnew|]. split; [discriminate|].
        rewrite Esend. split; discriminate.
    + eexists _, _, _. split; [reflexivity|].
      split; [simpl; rewrite <- !app_assoc; reflexivity|].
      split; [intros H; not_in_trace H|].
      split.
      * intros _. split; [intros H; not_in_trace H|]. split; [reflexivity|].
        apply Hsame. reflexivity.
      * intros _. exists (a :: new). split; [exact Hnew|]. split; [discriminate|].
        rewrite Esend. split; discriminate.
Qed.

End Run.

(** *** A run whose notification fails *)

Local Abbreviation sample_run :=
  (Processor.process_rss_awards Sample.Pattern Sample.re_compile Sample.pattern_search
     Sample.re_error Sample.md5 Sample.company_name_of Sample.order_by_processed_at_desc
     Sample.fetch_one_award unit Sample.no_financial_data Sample.financial_ok_count
     Sample.send_fails Sample.company_name_of Sample.exn_str).
Local Abbreviation sample_new_articles_of_run :=
  (Processor.new_articles_of_run Sample.Pattern Sample.re_compile Sample.pattern_search
     Sample.re_error Sample.md5 Sample.order_by_processed_at_desc Sample.fetch_one_award).

Example run_with_failed_notify :
  sample_run (Sample.clock_from 0) Sample.empty_world =
  (Ok {| success := false; new_articles_count := 1; email_sent := false;
         financial_data_count := 0; errors := ["Failed to send email"];
         warnings := [] |},
   {| hash_db := ∅; calls := [FETCH; FILTER; DEDUP; ENRICH; NOTIFY] |}).
Proof. reflexivity. Qed.

Lemma C4_witness :
  exists r w' trace,
    sample_run (Sample.clock_from 0) Sample.empty_world = (Ok r, w')
    /\ calls w' = calls Sample.empty_world ++ trace
    /\ (COMMIT ∈ trace -> email_sent r = true)
    /\ (email_sent r = false ->
        (COMMIT ∉ trace) /\ hash_db w' = hash_db Sample.empty_world
        /\ fst (sample_new_articles_of_run w')
           = fst (sample_new_articles_of_run Sample.empty_world))
    /\ (NOTIFY ∈ trace ->
        exists new,
          fst (sample_new_articles_of_run Sample.empty_world) = Ok new /\ new <> []
          /\ (Sample.send_fails new (Sample.no_financial_data new) = Ok true
              <-> email_sent r = true)).
Proof.
  exact (C4_commit_only_after_successful_notify
           Sample.re_compile Sample.pattern_search Sample.re_error Sample.md5
           Sample.company_name_of Sample.order_by_processed_at_desc Sample.fetch_one_award
           Sample.no_financial_data Sample.financial_ok_count Sample.send_fails
           Sample.company_name_of Sample.exn_str (Sample.clock_from 0) Sample.empty_world).
Defined.

End ProcessorFacts.

(** * Further properties of the filter engine *)

Module FilterEngineMore.
Import Py FilterEngine FilterEngineFacts.

(** *** Folds under one combinator *)

Lemma fold_all_or (acc : bool) (steps : list (bool * FilterOperator)) :
  Forall (fun s => snd s = OR) steps ->
  fold_left combine steps acc = acc || existsb fst steps.
Proof.
  revert acc. induction steps as [|[r op] steps IH]; intros acc Hall; simpl.
  - rewrite orb_false_r. reflexivity.
  - inversion Hall as [|? ? Hop Hrest]; subst. simpl in Hop. subst op.
    rewrite IH by exact Hrest. unfold combine; simpl. rewrite orb_assoc. reflexivity.
Qed.

Lemma fold_all_and (acc : bool) (steps : list (bool * FilterOperator)) :
  Forall (fun s => snd s = AND) steps ->
  fold_left combine steps acc = acc && forallb fst steps.
Proof.
  revert acc. induction steps as [|[r op] steps IH]; intros acc Hall; simpl.
  - rewrite andb_true_r. reflexivity.
  - inversion Hall as [|? ? Hop Hrest]; subst. simpl in Hop. subst op.
    rewrite IH by exact Hrest. unfold combine; simpl. rewrite andb_assoc. reflexivity.
Qed.

Section More.

Context {Pattern : Type}.
Variable re_compile : string -> Z -> option Pattern.
Variable pattern_search : Pattern -> string -> bool.
Variable re_error : string -> Z -> string.

Local Abbreviation Engine := (Engine Pattern).
Local Abbreviation cache_consistent := (cache_consistent Pattern re_compile).
Local Abbreviation _compile_regex := (_compile_regex Pattern re_compile re_error).
Local Abbreviation _match_condition := (_match_condition Pattern re_compile pattern_search re_error).
Local Abbreviation collect_results := (collect_results Pattern re_compile pattern_search re_error).
Local Abbreviation _evaluate_rule := (_evaluate_rule Pattern re_compile pattern_search re_error).
Local Abbreviation apply_rule_loop := (apply_rule_loop Pattern re_compile pattern_search re_error).
Local Abbreviation apply_rule := (apply_rule Pattern re_compile pattern_search re_error).
Local Abbreviation apply_rules := (apply_rules Pattern re_compile pattern_search re_error).
Local Abbreviation condition_result := (condition_result Pattern re_compile pattern_search).
Local Abbreviation signed_result := (signed_result Pattern re_compile pattern_search).
Local Abbreviation rule_verdict := (rule_verdict Pattern re_compile pattern_search).
Local Abbreviation rule_matches := (rule_matches Pattern re_compile pattern_search).
Local Abbreviation applyRules_spec := (applyRules_spec Pattern re_compile pattern_search).
Local Abbreviation candidates := (candidates Pattern re_compile pattern_search).

Lemma signed_results_or (article : Dict) (conds : list FilterCondition) :
  Forall (fun c => operator c = OR) conds ->
  Forall (fun s => snd s = OR) (map (signed_result article) conds)
  /\ map fst (map (signed_result article) conds) = map (condition_result article) conds.
Proof.
  induction 1 as [|c conds Hc Hrest [IH1 IH2]]; simpl; [split; [constructor | reflexivity]|].
  unfold FilterEngine.signed_result at 1 3. rewrite Hc. simpl.
  split; [constructor; [reflexivity | exact IH1] | f_equal; exact IH2].
Qed.

Lemma signed_results_and (article : Dict) (conds : list FilterCondition) :
  Forall (fun c => operator c = AND) conds ->
  Forall (fun s => snd s = AND) (map (signed_result article) conds)
  /\ map fst (map (signed_result article) conds) = map (condition_result article) conds.
Proof.
  induction 1 as [|c conds Hc Hrest [IH1 IH2]]; simpl; [split; [constructor | reflexivity]|].
  unfold FilterEngine.signed_result at 1 3. rewrite Hc. simpl.
  split; [constructor; [reflexivity | exact IH1] | f_equal; exact IH2].
Qed.

Lemma existsb_fst_map {A} (f : A -> bool * FilterOperator) (g : A -> bool) (l : list A) :
  map fst (map f l) = map g l -> existsb fst (map f l) = existsb g l.
Proof.
  induction l as [|x l IH]; simpl; [reflexivity|].
  intros H. injection H as Hx Hl. rewrite Hx, IH by exact Hl. reflexivity.
Qed.

Lemma forallb_fst_map {A} (f : A -> bool * FilterOperator) (g : A -> bool) (l : list A) :
  map fst (map f l) = map g l -> forallb fst (map f l) = forallb g l.
Proof.
  induction l as [|x l IH]; simpl; [reflexivity|].
  intros H. injection H as Hx Hl. rewrite Hx, IH by exact Hl. reflexivity.
Qed.

Lemma rule_verdict_all_or (article : Dict) (rule : FilterRule) :
  is_active rule = true ->
  Forall (fun c => operator c = OR) (conditions rule) ->
  rule_verdict article rule = existsb (condition_result article) (conditions rule).
Proof.
  intros Hact Hall. unfold FilterEngine.rule_verdict. rewrite Hact.
  destruct (signed_results_or article _ Hall) as [Hops Hfst].
  rewrite <- (existsb_fst_map _ _ _ Hfst).
  destruct (map (signed_result article) (conditions rule)) as [|s steps]; [reflexivity|].
  inversion Hops; subst. simpl. apply fold_all_or. assumption.
Qed.

Lemma rule_verdict_all_and (article : Dict) (rule : FilterRule) :
  is_active rule = true -> conditions rule <> [] ->
  Forall (fun c => operator c = AND) (conditions rule) ->
  rule_verdict article rule = forallb (condition_result article) (conditions rule).
Proof.
  intros Hact Hne Hall. unfold FilterEngine.rule_verdict. rewrite Hact.
  destruct (signed_results_and article _ Hall) as [Hops Hfst].
  rewrite <- (forallb_fst_map _ _ _ Hfst).
  destruct (conditions rule) as [|c conds]; [congruence|]. simpl.
  simpl in Hops. inversion Hops; subst. apply fold_all_and. assumption.
Qed.

(** X1: an active rule whose conditions all carry OR accepts a record
    exactly when one of its conditions does; an active rule with at least
    one condition whose conditions all carry AND accepts it exactly when all
    of them do. *)
Theorem uniform_rule_is_any_or_all (article : Dict) (rule : FilterRule) (self : Engine) :
  cache_consistent self ->
  is_active rule = true ->
  (Forall (fun c => operator c = OR) (conditions rule) ->
   fst (_evaluate_rule article rule self) =
   Ok (existsb (condition_result article) (conditions rule)))
  /\ (conditions rule <> [] ->
      Forall (fun c => operator c = AND) (conditions rule) ->
      fst (_evaluate_rule article rule self) =
      Ok (forallb (condition_result article) (conditions rule))).
Proof.
  intros Hself Hact.
  rewrite (yields_fst re_compile _ _ _
             (evaluate_rule_yields re_compile pattern_search re_error article rule) Hself).
  split.
  - intros Hall. rewrite rule_verdict_all_or by assumption. reflexivity.
  - intros Hne Hall. rewrite rule_verdict_all_and by assumption. reflexivity.
Qed.


(** *** Rules without regex conditions *)

Lemma match_condition_regex_free (article : Dict) (c : FilterCondition) (self : Engine) :
  match_type c <> REGEX ->
  _match_condition article c self = (Ok (condition_result article c), self).
Proof.
  intros Hre. unfold FilterEngine._match_condition, FilterEngine.condition_result, fold_case.
  destruct (get_or article (field c) (PyStr "")); [reflexivity|..];
    destruct (match_type c); try congruence; reflexivity.
Qed.

Lemma collect_results_regex_free (article : Dict) (conds : list FilterCondition)
    (results : list (bool * FilterOperator)) (self : Engine) :
  Forall (fun c => match_type c <> REGEX) conds ->
  collect_results article conds results self =
  (Ok (results ++ map (signed_result article) conds), self).
Proof.
  revert results. induction conds as [|c conds IH]; intros results Hall; simpl.
  - rewrite app_nil_r. reflexivity.
  - inversion Hall as [|? ? Hc Hrest]; subst.
    unfold bind at 1. rewrite match_condition_regex_free by exact Hc.
    rewrite IH by exact Hrest. rewrite <- app_assoc. reflexivity.
Qed.

Lemma evaluate_rule_regex_free (article : Dict) (rule : FilterRule) (self : Engine) :
  regex_free rule ->
  _evaluate_rule article rule self = (Ok (rule_verdict article rule), self).
Proof.
  intros Hfree. unfold FilterEngine._evaluate_rule, FilterEngine.rule_verdict.
  destruct (is_active rule); simpl; [|reflexivity].
  case_bool_decide as Hc; [rewrite Hc; reflexivity|].
  unfold bind. rewrite collect_results_regex_free by exact Hfree. simpl.
  destruct (conditions rule) as [|c cs]; [congruence|]. simpl.
  rewrite fold_results_fold_left. reflexivity.
Qed.

Lemma apply_rule_loop_regex_free (rule : FilterRule) (articles acc : list Dict)
    (self : Engine) :
  regex_free rule ->
  apply_rule_loop rule articles acc self = (Ok (acc ++ rule_matches articles rule), self).
Proof.
  intros Hfree. revert acc. induction articles as [|a articles IH]; intros acc; simpl.
  - unfold FilterEngine.rule_matches. rewrite filter_nil, app_nil_r. reflexivity.
  - unfold bind at 1, try_except, bind at 1.
    rewrite evaluate_rule_regex_free by exact Hfree.
    rewrite (rule_matches_cons re_compile pattern_search), app_assoc.
    destruct (rule_verdict a rule); unfold ret; rewrite IH; [reflexivity|].
    rewrite app_nil_r. reflexivity.
Qed.

Lemma apply_rule_regex_free (articles : list Dict) (rule : FilterRule) (self : Engine) :
  regex_free rule ->
  apply_rule articles rule self =
  (Ok (if is_active rule then rule_matches articles rule else articles), self).
Proof.
  intros Hfree. unfold FilterEngine.apply_rule. destruct (is_active rule); simpl.
  - apply (apply_rule_loop_regex_free rule articles [] self Hfree).
  - reflexivity.
Qed.

Lemma apply_rules_loop_regex_free (articles : list Dict) (rs : list FilterRule)
    (all_matches : list Dict) (seen : gset pyval) (self : Engine) :
  Forall (fun r => is_active r = true) rs -> Forall regex_free rs ->
  FilterEngine.apply_rules_loop Pattern re_compile pattern_search re_error articles rs
    all_matches seen self =
  (Ok (all_matches ++ first_per_link seen (concat (map (rule_matches articles) rs))), self).
Proof.
  revert all_matches seen. induction rs as [|r rs IH]; intros all_matches seen Hact Hfree;
    simpl.
  - rewrite app_nil_r. reflexivity.
  - inversion Hact as [|? ? Hr Hrs]; inversion Hfree as [|? ? Hf Hfs]; subst.
    unfold bind. rewrite apply_rule_regex_free by exact Hf.
    rewrite Hr, add_unseen_spec, first_per_link_app, app_assoc.
    apply IH; assumption.
Qed.

(** X2: rules without regex conditions never touch the regex cache: for
    any engine, whatever its cache holds, [apply_rules] returns the same
    records and leaves the engine as it was. *)
Theorem regex_free_rules_leave_engine (articles : list Dict) (rules : list FilterRule)
    (self : Engine) :
  Forall regex_free rules ->
  apply_rules articles rules self =
  (Ok (if bool_decide (rules = []) then articles else applyRules_spec articles rules), self).
Proof.
  intros Hfree. unfold FilterEngine.apply_rules. case_bool_decide; [reflexivity|].
  apply (apply_rules_loop_regex_free articles _ [] ∅ self).
  - apply rules_in_order_active.
  - unfold rules_in_order. rewrite sorted_by_priority_desc_perm.
    apply Forall_forall. intros r Hr%list_elem_of_filter.
    rewrite Forall_forall in Hfree. apply Hfree. tauto.
Qed.

(** *** The keyword filter *)

Lemma keyword_condition_result (article : Dict) (f keyword : string) :
  condition_result article (keyword_condition f keyword) = field_mentions article f keyword.
Proof.
  unfold FilterEngine.condition_result, field_mentions, keyword_condition, fold_case. simpl.
  destruct (get_or article f (PyStr "")); reflexivity.
Qed.

Lemma keyword_conditions_loop_spec (keywords : list string) (acc : list FilterCondition) :
  keyword_conditions_loop keywords acc =
  acc ++ flat_map (fun kw => [keyword_condition "title" kw; keyword_condition "summary" kw])
           keywords.
Proof.
  revert acc. induction keywords as [|kw keywords IH]; intros acc; simpl.
  - rewrite app_nil_r. reflexivity.
  - rewrite IH, <- !app_assoc. reflexivity.
Qed.

(** X3: the rule [create_keyword_filter] builds accepts a record exactly
    when one of the keywords occurs, case folded, in the title or in the
    summary of the record; with no keyword it accepts nothing. The engine is
    left unchanged. *)
Theorem create_keyword_filter_matches (keywords : list string) (filter_name : string)
    (prio : Z) (article : Dict) (self : Engine) :
  _evaluate_rule article (create_keyword_filter keywords filter_name prio) self =
  (Ok (existsb (fun kw => field_mentions article "title" kw
                          || field_mentions article "summary" kw) keywords),
   self).
Proof.
  set (rule := create_keyword_filter keywords filter_name prio).
  assert (Hconds : conditions rule =
                   flat_map (fun kw => [keyword_condition "title" kw;
                                        keyword_condition "summary" kw]) keywords)
    by apply (keyword_conditions_loop_spec keywords []).
  assert (Hor : Forall (fun c => operator c = OR) (conditions rule)).
  { rewrite Hconds. clear. induction keywords; simpl; repeat constructor; assumption. }
  assert (Hfree : regex_free rule).
  { unfold regex_free. rewrite Hconds. clear.
    induction keywords; simpl; repeat constructor; try discriminate; assumption. }
  rewrite evaluate_rule_regex_free by exact Hfree.
  rewrite rule_verdict_all_or by (reflexivity || exact Hor).
  rewrite Hconds. f_equal. f_equal. clear.
  induction keywords as [|kw keywords IH]; simpl; [reflexivity|].
  rewrite !keyword_condition_result, IH, orb_assoc. reflexivity.
Qed.

(** *** The regex cache *)


(** X5: the cache never shows in the result of [apply_rules]: from any two
    engines whose caches are consistent with [re.compile] it returns the
    same list, without raising, and the engine it leaves is consistent
    again. *)
Theorem apply_rules_ignores_cache (articles : list Dict) (rules : list FilterRule)
    (self1 self2 : Engine) :
  cache_consistent self1 -> cache_consistent self2 ->
  fst (apply_rules articles rules self1) = fst (apply_rules articles rules self2)
  /\ (exists out, fst (apply_rules articles rules self1) = Ok out)
  /\ cache_consistent (snd (apply_rules articles rules self1)).
Proof.
  intros H1 H2.
  destruct (apply_rules_yields re_compile pattern_search re_error articles rules self1 H1)
    as (s1 & E1 & Hs1).
  destruct (apply_rules_yields re_compile pattern_search re_error articles rules self2 H2)
    as (s2 & E2 & _).
  rewrite E1, E2. simpl. split; [reflexivity|]. split; [eexists; reflexivity | exact Hs1].
Qed.

(** *** What [apply_rules] returns *)

Lemma elem_of_concat_map {A B} (f : A -> list B) (l : list A) (b : B) :
  b ∈ concat (map f l) <-> exists a, a ∈ l /\ b ∈ f a.
Proof.
  induction l as [|a l IH]; simpl.
  - split; [intros H; inversion H | intros (a & H & _); inversion H].
  - rewrite elem_of_app, IH. split.
    + intros [H | (a' & Ha' & H)].
      * exists a. split; [left | exact H].
      * exists a'. split; [right; exact Ha' | exact H].
    + intros (a' & Ha' & H). apply elem_of_cons in Ha' as [-> | Ha'].
      * left. exact H.
      * right. exists a'. split; assumption.
Qed.

Lemma elem_of_rules_in_order (rules : list FilterRule) (r : FilterRule) :
  r ∈ rules_in_order rules <-> r ∈ rules /\ is_active r = true.
Proof.
  unfold rules_in_order. rewrite sorted_by_priority_desc_perm, list_elem_of_filter. tauto.
Qed.

Lemma elem_of_rule_matches (articles : list Dict) (rule : FilterRule) (d : Dict) :
  d ∈ rule_matches articles rule <->
  exists a, a ∈ articles /\ rule_verdict a rule = true /\ d = annotate rule a.
Proof.
  unfold FilterEngine.rule_matches. rewrite list_elem_of_fmap. split.
  - intros (a & -> & Ha%list_elem_of_filter). exists a. tauto.
  - intros (a & Ha & Hv & ->). exists a. split; [reflexivity|].
    apply list_elem_of_filter. tauto.
Qed.

Lemma elem_of_candidates (articles : list Dict) (rules : list FilterRule) (d : Dict) :
  d ∈ candidates articles rules <->
  exists r a, r ∈ rules /\ is_active r = true /\ a ∈ articles
              /\ rule_verdict a r = true /\ d = annotate r a.
Proof.
  unfold FilterEngine.candidates. rewrite elem_of_concat_map. split.
  - intros (r & Hr%elem_of_rules_in_order & (a & Ha & Hv & ->)%elem_of_rule_matches).
    exists r, a. tauto.
  - intros (r & a & Hr & Hact & Ha & Hv & ->). exists r. split.
    + apply elem_of_rules_in_order. tauto.
    + apply elem_of_rule_matches. exists a. tauto.
Qed.

Lemma first_per_link_links (seen : gset pyval) (l : list Dict) :
  seen ∪ links (first_per_link seen l) = seen ∪ links l.
Proof.
  revert seen. induction l as [|a l IH]; intros seen; simpl; [reflexivity|].
  change (links (a :: l)) with ({[get a "link"]} ∪ links l).
  case_decide as Hin.
  - rewrite IH, (assoc_L (∪)). f_equal. symmetry.
    rewrite (comm_L (∪)). apply subseteq_union_1_L, singleton_subseteq_l, Hin.
  - change (links (a :: first_per_link (seen ∪ {[get a "link"]}) l))
      with ({[get a "link"]} ∪ links (first_per_link (seen ∪ {[get a "link"]}) l)).
    rewrite !(assoc_L (∪)). apply IH.
Qed.

Lemma elem_of_links (l : list Dict) (v : pyval) :
  v ∈ links l <-> exists d, d ∈ l /\ get d "link" = v.
Proof.
  unfold links. rewrite elem_of_list_to_set, list_elem_of_fmap. split.
  - intros (d & -> & Hd). exists d. tauto.
  - intros (d & Hd & <-). exists d. tauto.
Qed.

(** X6: what a non-empty rule list lets through. Every record [apply_rules]
    returns is an input record that an active rule of the list accepts,
    annotated by that rule; and every input record that some active rule
    accepts is represented in the output by a record of the same link. *)
Theorem apply_rules_sound_and_complete (articles : list Dict) (rules : list FilterRule)
    (self : Engine) :
  cache_consistent self -> rules <> [] ->
  exists out,
    fst (apply_rules articles rules self) = Ok out
    /\ (forall d, d ∈ out ->
          exists r a, r ∈ rules /\ is_active r = true /\ a ∈ articles
                      /\ rule_verdict a r = true /\ d = annotate r a)
    /\ (forall a r, a ∈ articles -> r ∈ rules -> is_active r = true ->
          rule_verdict a r = true ->
          exists d, d ∈ out /\ get d "link" = get a "link").
Proof.
  intros Hself Hne. exists (applyRules_spec articles rules).
  split; [|split].
  - rewrite (yields_fst re_compile _ _ self
               (apply_rules_yields re_compile pattern_search re_error articles rules) Hself).
    rewrite bool_decide_eq_false_2 by exact Hne. reflexivity.
  - intros d Hd. apply elem_of_candidates.
    eapply elem_of_sublist; [exact Hd | apply first_per_link_sublist].
  - intros a r Ha Hr Hact Hv.
    assert (Hin : get a "link" ∈ links (candidates articles rules)).
    { apply elem_of_links. exists (annotate r a). split; [|apply annotate_link].
      apply elem_of_candidates. exists r, a. tauto. }
    pose proof (first_per_link_links ∅ (candidates articles rules)) as Hl.
    rewrite !union_empty_l_L in Hl. unfold FilterEngine.applyRules_spec.
    rewrite <- Hl in Hin. apply elem_of_links in Hin. exact Hin.
Qed.

(** *** The order of the output *)

Lemma annotate_priority (rule : FilterRule) (a : Dict) :
  record_priority (annotate rule a) = priority rule.
Proof.
  unfold record_priority, get, get_or, annotate. rewrite lookup_insert_eq. reflexivity.
Qed.

Lemma StronglySorted_sublist {A} (R : A -> A -> Prop) (l k : list A) :
  sublist l k -> StronglySorted R k -> StronglySorted R l.
Proof.
  induction 1 as [|x l k Hsub IH|x l k Hsub IH]; intros Hs.
  - constructor.
  - apply StronglySorted_inv in Hs as [Hs Hall]. constructor; [apply IH, Hs|].
    apply Forall_forall. intros y Hy. rewrite Forall_forall in Hall.
    apply Hall. eapply elem_of_sublist; eassumption.
  - apply StronglySorted_inv in Hs as [Hs _]. apply IH, Hs.
Qed.

Lemma rule_matches_uniform (articles : list Dict) (rule : FilterRule) :
  Forall (fun d => record_priority d = priority rule) (rule_matches articles rule).
Proof.
  apply Forall_forall. intros d (a & _ & _ & ->)%elem_of_rule_matches.
  apply annotate_priority.
Qed.

Lemma uniform_sorted (p : Z) (l : list Dict) :
  Forall (fun d => record_priority d = p) l -> StronglySorted by_filter_priority l.
Proof.
  induction 1 as [|d l Hd Hl IH]; constructor; [exact IH|].
  apply Forall_forall. intros d' Hd'. rewrite Forall_forall in Hl.
  unfold by_filter_priority. rewrite Hd, (Hl d' Hd'). lia.
Qed.

Lemma matches_sorted (articles : list Dict) (rs : list FilterRule) :
  StronglySorted priority_desc rs ->
  StronglySorted by_filter_priority (concat (map (rule_matches articles) rs)).
Proof.
  induction 1 as [|r rs Hs IH Hall]; simpl; [constructor|].
  apply StronglySorted_app_2;
    [| eapply uniform_sorted, rule_matches_uniform | exact IH].
  intros d1 d2 Hd1 (r2 & Hr2 & Hd2)%elem_of_concat_map.
  pose proof (rule_matches_uniform articles r) as H1.
  pose proof (rule_matches_uniform articles r2) as H2.
  rewrite Forall_forall in H1. rewrite Forall_forall in H2.
  rewrite Forall_forall in Hall. unfold by_filter_priority. rewrite (H1 d1 Hd1), (H2 d2 Hd2).
  apply (Hall r2 Hr2).
Qed.

(** X7: with a non-empty rule list the records [apply_rules] returns come in
    the order of their rules: every record carries the priority of a rule
    of the list under [filter_priority], and along the output that priority
    never increases. *)
Theorem apply_rules_output_by_priority (articles : list Dict) (rules : list FilterRule)
    (self : Engine) :
  cache_consistent self -> rules <> [] ->
  exists out,
    fst (apply_rules articles rules self) = Ok out
    /\ StronglySorted by_filter_priority out
    /\ Forall (fun d => exists r, r ∈ rules /\ is_active r = true
                                  /\ get d "filter_priority" = PyInt (priority r)
                                  /\ get d "matched_rule" = PyStr (name r)) out.
Proof.
  intros Hself Hne. exists (applyRules_spec articles rules).
  split; [|split].
  - rewrite (yields_fst re_compile _ _ self
               (apply_rules_yields re_compile pattern_search re_error articles rules) Hself).
    rewrite bool_decide_eq_false_2 by exact Hne. reflexivity.
  - eapply StronglySorted_sublist; [apply first_per_link_sublist|].
    apply matches_sorted, sorted_by_priority_desc_sorted.
  - apply Forall_forall. intros d Hd.
    assert (Hc : d ∈ candidates articles rules)
      by (eapply elem_of_sublist; [exact Hd | apply first_per_link_sublist]).
    apply elem_of_candidates in Hc as (r & a & Hr & Hact & _ & _ & ->).
    exists r. repeat split; try assumption.
    + unfold get, get_or, annotate. rewrite lookup_insert_eq. reflexivity.
    + unfold get, get_or, annotate.
      rewrite lookup_insert_ne by discriminate. rewrite lookup_insert_eq. reflexivity.
Qed.

(** X8: a rule list without an active rule lets nothing through, although
    the empty rule list returns the input; the engine is left unchanged in
    both cases. *)
Theorem no_active_rule_returns_nothing (articles : list Dict) (rules : list FilterRule)
    (self : Engine) :
  rules <> [] -> Forall (fun r => is_active r = false) rules ->
  apply_rules articles rules self = (Ok [], self)
  /\ apply_rules articles [] self = (Ok articles, self).
Proof.
  intros Hne Hall. split; [|reflexivity]. unfold FilterEngine.apply_rules.
  rewrite bool_decide_eq_false_2 by exact Hne.
  replace (filter (fun r => is_active r = true) rules) with (@nil FilterRule);
    [reflexivity|].
  clear Hne. induction Hall as [|r rules Hr Hall IH]; [reflexivity|].
  rewrite filter_cons. rewrite decide_False by congruence. exact IH.
Qed.

(** *** The preset rules *)

Lemma keyword_rule_verdict (article : Dict) (rule : FilterRule)
    (pairs : list (string * string)) :
  is_active rule = true ->
  conditions rule = map (fun p => keyword_condition (fst p) (snd p)) pairs ->
  regex_free rule
  /\ rule_verdict article rule
     = existsb (fun p => field_mentions article (fst p) (snd p)) pairs.
Proof.
  intros Hact Hconds. split.
  - unfold regex_free. rewrite Hconds. clear.
    induction pairs; simpl; constructor; [discriminate | assumption].
  - rewrite rule_verdict_all_or; [| exact Hact |].
    + rewrite Hconds. clear. induction pairs as [|p pairs IH]; simpl; [reflexivity|].
      rewrite keyword_condition_result, IH. reflexivity.
    + rewrite Hconds. clear. induction pairs; simpl; constructor; [reflexivity | assumption].
Qed.

Lemma keyword_rule_evaluates (article : Dict) (rule : FilterRule)
    (pairs : list (string * string)) (self : Engine) :
  is_active rule = true ->
  conditions rule = map (fun p => keyword_condition (fst p) (snd p)) pairs ->
  _evaluate_rule article rule self
  = (Ok (existsb (fun p => field_mentions article (fst p) (snd p)) pairs), self).
Proof.
  intros Hact Hconds.
  destruct (keyword_rule_verdict article rule pairs Hact Hconds) as [Hfree Hv].
  rewrite evaluate_rule_regex_free by exact Hfree. rewrite Hv. reflexivity.
Qed.

Lemma awards_rule_verdict (article : Dict) :
  regex_free PresetFilters.awards_bagging_filter
  /\ rule_verdict article PresetFilters.awards_bagging_filter
     = PresetFilters.mentions article "award" || PresetFilters.mentions article "bagging".
Proof.
  destruct (keyword_rule_verdict article PresetFilters.awards_bagging_filter
              [("title", "award"); ("title", "bagging"); ("summary", "award");
               ("summary", "bagging"); ("link", "award"); ("link", "bagging")]
              eq_refl eq_refl) as [Hfree Hv].
  split; [exact Hfree|]. rewrite Hv. unfold PresetFilters.mentions.
  cbn [existsb fst snd].
  repeat match goal with
         | |- context [field_mentions ?a ?f ?k] => destruct (field_mentions a f k)
         end; reflexivity.
Qed.

(** X9: what the three preset rules accept. The awards rule accepts a record
    exactly when its title, summary or link mentions, case folded, the word
    award or the word bagging; the contracts rule when one of the three
    mentions contract; the Regulation 30 rule when one of them mentions
    regulation 30. Evaluating a preset never raises and leaves the engine
    unchanged. *)
Theorem preset_filters_match_keywords (article : Dict) (self : Engine) :
  _evaluate_rule article PresetFilters.awards_bagging_filter self
  = (Ok (PresetFilters.mentions article "award"
         || PresetFilters.mentions article "bagging"), self)
  /\ _evaluate_rule article PresetFilters.contracts_filter self
     = (Ok (PresetFilters.mentions article "contract"), self)
  /\ _evaluate_rule article PresetFilters.regulation_30_filter self
     = (Ok (PresetFilters.mentions article "regulation 30"), self).
Proof.
  unfold PresetFilters.mentions. split; [|split].
  - destruct (awards_rule_verdict article) as [Hfree Hv].
    rewrite evaluate_rule_regex_free by exact Hfree. rewrite Hv. reflexivity.
  - rewrite (keyword_rule_evaluates article PresetFilters.contracts_filter
               [("title", "contract"); ("summary", "contract"); ("link", "contract")] self)
      by reflexivity.
    cbn [existsb fst snd]. rewrite orb_false_r, orb_assoc. reflexivity.
  - rewrite (keyword_rule_evaluates article PresetFilters.regulation_30_filter
               [("title", "regulation 30"); ("summary", "regulation 30");
                ("link", "regulation 30")] self)
      by reflexivity.
    cbn [existsb fst snd]. rewrite orb_false_r, orb_assoc. reflexivity.
Qed.

End More.

(** X10: [get_preset_by_name] finds a preset under its own name and under no
    other: it returns a rule exactly when the rule is one of
    [get_all_presets] and carries the name asked for; any other name gives
    [None]. *)
Theorem get_preset_by_name_spec (preset_name : string) (rule : FilterRule) :
  PresetFilters.get_preset_by_name preset_name = Some rule
  <-> rule ∈ PresetFilters.get_all_presets /\ name rule = preset_name.
Proof.
  unfold PresetFilters.get_preset_by_name, PresetFilters.get_all_presets.
  cbn [list_to_map foldr fst snd uncurry]. split.
  - intros H.
    apply lookup_insert_Some in H as [[<- <-] | [_ H]];
      [split; [apply elem_of_cons; left|]; reflexivity|].
    apply lookup_insert_Some in H as [[<- <-] | [_ H]];
      [split; [do 1 apply list_elem_of_further; apply elem_of_cons; left|];
       reflexivity|].
    apply lookup_insert_Some in H as [[<- <-] | [_ H]];
      [split; [do 2 apply list_elem_of_further; apply elem_of_cons; left|];
       reflexivity|].
    rewrite lookup_empty in H. discriminate.
  - intros [Hin <-].
    repeat (apply elem_of_cons in Hin as [-> | Hin]; [reflexivity|]).
    inversion Hin.
Qed.

(** *** The theorems at concrete inputs *)

Local Abbreviation sample_evaluate_rule :=
  (_evaluate_rule Sample.Pattern Sample.re_compile Sample.pattern_search Sample.re_error).
Local Abbreviation sample_apply_rules :=
  (apply_rules Sample.Pattern Sample.re_compile Sample.pattern_search Sample.re_error).
Local Abbreviation sample_condition_result :=
  (condition_result Sample.Pattern Sample.re_compile Sample.pattern_search).
Local Abbreviation sample_consistent :=
  (new_engine_consistent (Pattern := Sample.Pattern) Sample.re_compile).

Lemma warm_engine_consistent :
  cache_consistent Sample.Pattern Sample.re_compile Sample.warm_engine.
Proof.
  intros pattern flags p Hflags Hp. cbn [Sample.warm_engine compiled_regex_cache] in Hp.
  apply lookup_insert_Some in Hp as [[Hkey <-] | [_ Hp]];
    [|rewrite lookup_empty in Hp; discriminate].
  change "corp_2" with (cache_key "corp" IGNORECASE) in Hkey.
  apply cache_key_inj in Hkey as [<- <-]; [reflexivity | right; reflexivity | exact Hflags].
Qed.

Lemma uniform_rule_is_any_or_all_witness :
  fst (sample_evaluate_rule Sample.record_x1 PresetFilters.contracts_filter
         Sample.new_engine)
  = Ok (existsb (sample_condition_result Sample.record_x1)
          (conditions PresetFilters.contracts_filter))
  /\ fst (sample_evaluate_rule Sample.record_x1 Sample.rule_A Sample.new_engine)
     = Ok (forallb (sample_condition_result Sample.record_x1) (conditions Sample.rule_A)).
Proof.
  split.
  - apply (proj1 (uniform_rule_is_any_or_all Sample.re_compile Sample.pattern_search Sample.re_error
                    Sample.record_x1 PresetFilters.contracts_filter Sample.new_engine
                    sample_consistent eq_refl)).
    repeat constructor.
  - apply (proj2 (uniform_rule_is_any_or_all Sample.re_compile Sample.pattern_search Sample.re_error
                    Sample.record_x1 Sample.rule_A Sample.new_engine
                    sample_consistent eq_refl)).
    + discriminate.
    + repeat constructor.
Defined.

Lemma regex_free_rules_leave_engine_witness :
  sample_apply_rules [Sample.record_x1] [PresetFilters.contracts_filter; Sample.rule_A]
    Sample.warm_engine
  = (Ok (applyRules_spec Sample.Pattern Sample.re_compile Sample.pattern_search
           [Sample.record_x1] [PresetFilters.contracts_filter; Sample.rule_A]),
     Sample.warm_engine).
Proof.
  apply (regex_free_rules_leave_engine Sample.re_compile Sample.pattern_search Sample.re_error
           [Sample.record_x1] [PresetFilters.contracts_filter; Sample.rule_A]
           Sample.warm_engine).
  repeat constructor; discriminate.
Defined.

Lemma apply_rules_ignores_cache_witness :
  fst (sample_apply_rules [Sample.record_x1] [Sample.rule_B; Sample.rule_A]
         Sample.new_engine)
  = fst (sample_apply_rules [Sample.record_x1] [Sample.rule_B; Sample.rule_A]
           Sample.warm_engine).
Proof.
  apply (apply_rules_ignores_cache Sample.re_compile Sample.pattern_search Sample.re_error
           [Sample.record_x1] [Sample.rule_B; Sample.rule_A]
           Sample.new_engine Sample.warm_engine sample_consistent warm_engine_consistent).
Defined.

Lemma apply_rules_sound_and_complete_witness :
  exists out,
    fst (sample_apply_rules [Sample.record_x1; Sample.record_no_link_1]
           [Sample.rule_B; Sample.rule_A] Sample.new_engine) = Ok out
    /\ exists d, d ∈ out /\ get d "link" = get Sample.record_x1 "link".
Proof.
  destruct (apply_rules_sound_and_complete Sample.re_compile Sample.pattern_search Sample.re_error
              [Sample.record_x1; Sample.record_no_link_1]
              [Sample.rule_B; Sample.rule_A] Sample.new_engine sample_consistent)
    as (out & Hout & _ & Hall); [discriminate|].
  exists out. split; [exact Hout|].
  apply (Hall Sample.record_x1 Sample.rule_A).
  - left.
  - right. left.
  - reflexivity.
  - reflexivity.
Defined.

Lemma apply_rules_output_by_priority_witness :
  exists out,
    fst (sample_apply_rules [Sample.record_x1; Sample.record_no_link_1]
           [Sample.rule_B; Sample.rule_A] Sample.new_engine) = Ok out
    /\ StronglySorted by_filter_priority out.
Proof.
  destruct (apply_rules_output_by_priority Sample.re_compile Sample.pattern_search Sample.re_error
              [Sample.record_x1; Sample.record_no_link_1]
              [Sample.rule_B; Sample.rule_A] Sample.new_engine sample_consistent)
    as (out & Hout & Hsorted & _); [discriminate|].
  exists out. split; assumption.
Defined.

Lemma no_active_rule_returns_nothing_witness :
  sample_apply_rules [Sample.record_x1] [Sample.rule_inactive] Sample.new_engine
  = (Ok [], Sample.new_engine)
  /\ sample_apply_rules [Sample.record_x1] [] Sample.new_engine
     = (Ok [Sample.record_x1], Sample.new_engine).
Proof.
  apply (no_active_rule_returns_nothing Sample.re_compile Sample.pattern_search
           Sample.re_error [Sample.record_x1] [Sample.rule_inactive] Sample.new_engine).
  - discriminate.
  - repeat constructor.
Defined.

End FilterEngineMore.

(** * Further properties of the deduplication ledger *)

Module LedgerMore.
Import Py HashDatabaseManager FilterEngineFacts LedgerFacts.

(** *** Strings *)

Lemma append_nil_r (s : string) : s +:+ "" = s.
Proof. induction s as [|c s IH]; [reflexivity|]. rewrite append_cons, IH. reflexivity. Qed.

Lemma append_assoc (s t u : string) : (s +:+ t) +:+ u = s +:+ (t +:+ u).
Proof.
  induction s as [|c s IH]; [reflexivity|]. rewrite !append_cons, IH. reflexivity.
Qed.

Lemma str_rev_onto_spec (s acc : string) : str_rev_onto s acc = str_rev s +:+ acc.
Proof.
  revert acc. induction s as [|c s IH]; intros acc; [reflexivity|].
  unfold str_rev. simpl. rewrite (IH (String c acc)), (IH (String c "")).
  rewrite append_assoc, append_cons, append_nil_l. reflexivity.
Qed.

Lemma str_rev_app (s t : string) : str_rev (s +:+ t) = str_rev t +:+ str_rev s.
Proof.
  induction s as [|c s IH].
  - rewrite append_nil_l, append_nil_r. reflexivity.
  - rewrite append_cons. unfold str_rev at 1 3. simpl.
    rewrite !str_rev_onto_spec, IH, append_assoc. reflexivity.
Qed.

Lemma only_spaces_rev (w : string) : only_spaces w = true -> only_spaces (str_rev w) = true.
Proof.
  assert (Happ : forall a b, only_spaces a = true -> only_spaces b = true ->
                             only_spaces (a +:+ b) = true).
  { induction a as [|c a IH]; intros b Ha Hb; [exact Hb|].
    rewrite append_cons. simpl in *. apply andb_true_iff in Ha as [Hc Ha].
    rewrite Hc. simpl. apply IH; assumption. }
  induction w as [|c w IH]; intros Hw; [reflexivity|].
  simpl in Hw. apply andb_true_iff in Hw as [Hc Hw].
  unfold str_rev. simpl. rewrite str_rev_onto_spec.
  apply Happ; [apply IH, Hw|]. simpl. rewrite Hc. reflexivity.
Qed.

Lemma lstrip_spaces (w s : string) : only_spaces w = true -> lstrip (w +:+ s) = lstrip s.
Proof.
  induction w as [|c w IH]; intros Hw; [reflexivity|].
  simpl in Hw. apply andb_true_iff in Hw as [Hc Hw].
  rewrite append_cons. simpl. rewrite Hc. apply IH, Hw.
Qed.

Lemma lstrip_app (s w : string) :
  lstrip (s +:+ w) = if String.eqb (lstrip s) "" then lstrip w else lstrip s +:+ w.
Proof.
  induction s as [|c s IH]; [reflexivity|].
  rewrite append_cons. simpl. destruct (is_space c); [exact IH|].
  simpl. rewrite append_cons. reflexivity.
Qed.

(** Blank text around a string is removed by [strip]. *)
Lemma strip_padding (w1 w2 s : string) :
  only_spaces w1 = true -> only_spaces w2 = true ->
  strip (w1 +:+ s +:+ w2) = strip s.
Proof.
  intros H1 H2. unfold strip. rewrite lstrip_spaces by exact H1.
  rewrite lstrip_app. destruct (String.eqb_spec (lstrip s) "") as [E|E].
  - rewrite E. replace (lstrip w2) with "".
    + reflexivity.
    + symmetry. rewrite <- (append_nil_r w2). rewrite lstrip_spaces by exact H2. reflexivity.
  - rewrite str_rev_app. rewrite lstrip_spaces by (apply only_spaces_rev, H2). reflexivity.
Qed.

Lemma slice_to_app (l x : string) :
  slice_to (String.length l) (l +:+ x) = l.
Proof.
  induction l as [|c l IH]; [reflexivity|]. rewrite append_cons. simpl. rewrite IH. reflexivity.
Qed.

Section Hash.

Variable md5 : string -> string.

Local Abbreviation generate_content_hash := (HashDatabaseManager.generate_content_hash md5).

(** X11: what the fingerprint of the ledger does not see. Two records with
    text fields get the same fingerprint when their titles and summaries
    differ only by blank text around them and their links share the first
    100 characters; no other key of a record is read. *)
Theorem fingerprint_ignores_padding_and_link_tail (a b : Dict)
    (t s l x y w1 w2 w3 w4 : string) :
  a !! "title" = Some (PyStr t) -> a !! "summary" = Some (PyStr s) ->
  a !! "link" = Some (PyStr (l +:+ x)) ->
  b !! "title" = Some (PyStr (w1 +:+ t +:+ w2)) ->
  b !! "summary" = Some (PyStr (w3 +:+ s +:+ w4)) ->
  b !! "link" = Some (PyStr (l +:+ y)) ->
  String.length l = 100%nat ->
  only_spaces w1 = true -> only_spaces w2 = true ->
  only_spaces w3 = true -> only_spaces w4 = true ->
  generate_content_hash a = Ok (md5 (strip t +:+ "|" +:+ strip s +:+ "|" +:+ l))
  /\ generate_content_hash b = generate_content_hash a.
Proof.
  intros Hat Has Hal Hbt Hbs Hbl Hlen H1 H2 H3 H4.
  assert (Hne : forall z, l +:+ z <> "").
  { intros z. destruct l; [discriminate Hlen | rewrite append_cons; discriminate]. }
  unfold HashDatabaseManager.generate_content_hash.
  rewrite (ledger_hash_content_link a t s (l +:+ x) Hat Has Hal (Hne x)).
  rewrite (ledger_hash_content_link b _ _ (l +:+ y) Hbt Hbs Hbl (Hne y)).
  rewrite !strip_padding by assumption.
  rewrite <- Hlen, !slice_to_app. split; reflexivity.
Qed.

End Hash.

Section Writing.

Variable md5 : string -> string.
Variable company_name_of : string -> string.

Local Abbreviation generate_content_hash := (HashDatabaseManager.generate_content_hash md5).
Local Abbreviation fingerprint := (HashDatabaseManager.fingerprint md5).
Local Abbreviation is_article_processed := (HashDatabaseManager.is_article_processed md5).
Local Abbreviation mark_loop := (HashDatabaseManager.mark_loop md5 company_name_of).
Local Abbreviation mark_articles_processed :=
  (HashDatabaseManager.mark_articles_processed md5 company_name_of).
Local Abbreviation mark_article_processed :=
  (HashDatabaseManager.mark_article_processed md5 company_name_of).

(** *** Writing one record *)

Lemma hashable_title (article : Dict) (h : string) :
  generate_content_hash article = Ok h ->
  exists t, get_or article "title" (PyStr "") = PyStr t.
Proof.
  unfold HashDatabaseManager.generate_content_hash, HashDatabaseManager.hash_content.
  destruct (get_or article "title" (PyStr "")) as [|t|z]; simpl; try discriminate.
  intros _. exists t. reflexivity.
Qed.

Lemma extract_company_name_text (t : string) :
  exists c, _extract_company_name company_name_of (PyStr t) = Ok c.
Proof.
  unfold _extract_company_name. simpl. destruct (negb (String.eqb t "")); simpl; eauto.
Qed.

Lemma is_hash_processed_insert (db : Table) (h h' : string) (row : Row) :
  is_hash_processed db h' = true -> is_hash_processed (<[h := row]> db) h' = true.
Proof.
  unfold is_hash_processed. rewrite !bool_decide_eq_true. intros [r Hr].
  destruct (decide (h = h')) as [->|Hne].
  - rewrite lookup_insert_eq. eauto.
  - rewrite lookup_insert_ne by exact Hne. eauto.
Qed.

(** X12: [mark_article_processed] records a record or leaves the ledger
    alone. When the fingerprint of the record can be computed the call
    returns [True], the ledger gains exactly that fingerprint, stamped with
    the current time, and [is_article_processed] answers [True] for the
    record from then on; otherwise the call returns [False] and the ledger
    is unchanged. In both cases every fingerprint that was processed before
    still is. *)
Theorem mark_article_processed_records (now : Z) (db : Table) (article : Dict)
    (company : option string) :
  let r := mark_article_processed now db article company in
  (forall h, is_hash_processed db h = true -> is_hash_processed (snd r) h = true)
  /\ match generate_content_hash article with
     | Ok h =>
         fst r = true
         /\ is_article_processed (snd r) article = Ok true
         /\ dom (snd r) = {[h]} ∪ dom db
         /\ processed_at <$> snd r !! h = Some now
     | Raise _ => r = (false, db)
     end.
Proof.
  unfold HashDatabaseManager.mark_article_processed,
    HashDatabaseManager.is_article_processed.
  destruct (generate_content_hash article) as [h|e] eqn:Eh; [|simpl; split; [tauto | reflexivity]].
  destruct (hashable_title article h Eh) as [t Ht]. rewrite Ht.
  cbn [py_slice_to].
  assert (Hc : exists c,
             match company with
             | Some c => if String.eqb c "" then _extract_company_name company_name_of (PyStr t)
                         else Ok c
             | None => _extract_company_name company_name_of (PyStr t)
             end = Ok c).
  { destruct (extract_company_name_text t) as [c Hc].
    destruct company as [c'|]; [destruct (String.eqb c' "")|]; eauto. }
  destruct Hc as [c ->]. cbn [fst snd exc_bind]. unfold insert_or_replace.
  split; [intros h'; apply is_hash_processed_insert|].
  split; [reflexivity|]. split; [|split].
  - f_equal. unfold is_hash_processed. apply bool_decide_eq_true.
    rewrite lookup_insert_eq. eauto.
  - apply dom_insert_L.
  - rewrite lookup_insert_eq. reflexivity.
Qed.

(** *** Writing a batch *)

Lemma mark_loop_stops (now : nat -> Z) (i : nat) (cn : gmap string string)
    (l1 l2 : list Dict) (bad : Dict) (e : exn) (db : Table) (count : Z) :
  generate_content_hash bad = Raise e ->
  mark_loop now i cn (l1 ++ bad :: l2) db count = mark_loop now i cn l1 db count.
Proof.
  intros Hbad. revert i db count.
  induction l1 as [|a l1 IH]; intros i db count; simpl.
  - rewrite Hbad. reflexivity.
  - destruct (generate_content_hash a) as [h|]; [|reflexivity].
    destruct (_extract_company_name company_name_of (get_or a "title" (PyStr "")));
      [|reflexivity].
    destruct (py_slice_to 200 (get_or a "title" (PyStr ""))); apply IH.
Qed.

(** X13: a record whose fingerprint cannot be computed ends the batch of
    [mark_articles_processed]: the records before it are written and
    counted, the records after it are neither, whatever they are. *)
Theorem mark_articles_processed_stops_at_failure (now : nat -> Z) (db : Table)
    (cn : gmap string string) (l1 l2 : list Dict) (bad : Dict) (e : exn) :
  generate_content_hash bad = Raise e ->
  mark_articles_processed now db (l1 ++ bad :: l2) cn
  = mark_articles_processed now db l1 cn.
Proof.
  intros Hbad. unfold HashDatabaseManager.mark_articles_processed.
  destruct l1 as [|a l1].
  - simpl. rewrite Hbad. reflexivity.
  - apply (mark_loop_stops now 0 cn (a :: l1) l2 bad e db 0 Hbad).
Qed.

Lemma mark_loop_bounds (now : nat -> Z) (i : nat) (cn : gmap string string)
    (articles : list Dict) (db : Table) (count : Z) :
  let r := mark_loop now i cn articles db count in
  count <= fst r <= count + Z.of_nat (length articles)
  /\ dom db ⊆ dom (snd r)
  /\ (fst r = count + Z.of_nat (length articles) ->
      forall a, a ∈ articles -> exists h, generate_content_hash a = Ok h /\ h ∈ dom (snd r)).
Proof.
  revert i db count. induction articles as [|a articles IH]; intros i db count.
  - simpl. split; [lia|]. split; [reflexivity|]. intros _ a Ha. inversion Ha.
  - cbn [HashDatabaseManager.mark_loop length].
    destruct (generate_content_hash a) as [h|e] eqn:Eh;
      [|cbn [fst snd]; split; [lia|]; split; [reflexivity | lia]].
    destruct (_extract_company_name company_name_of (get_or a "title" (PyStr "")))
      as [c|e]; [|cbn [fst snd]; split; [lia|]; split; [reflexivity | lia]].
    destruct (py_slice_to 200 (get_or a "title" (PyStr ""))) as [t200|e].
    + match goal with
      | |- context [mark_loop now (S i) cn articles ?db1 ?c1] =>
          destruct (IH (S i) db1 c1) as (Hb & Hdom & Hall)
      end.
      unfold insert_or_replace in *. rewrite dom_insert_L in Hdom.
      split; [lia|]. split; [set_solver|].
      intros Hfull a' Ha'. apply elem_of_cons in Ha' as [-> | Ha'].
      * exists h. split; [exact Eh|]. apply Hdom. set_solver.
      * apply Hall; [lia | exact Ha'].
    + destruct (IH (S i) db count) as (Hb & Hdom & Hall).
      split; [lia|]. split; [exact Hdom|]. intros Hfull. lia.
Qed.

Lemma mark_articles_processed_bounds (now : nat -> Z) (db : Table)
    (articles : list Dict) (cn : gmap string string) :
  let r := mark_articles_processed now db articles cn in
  0 <= fst r <= Z.of_nat (length articles)
  /\ dom db ⊆ dom (snd r)
  /\ (fst r = Z.of_nat (length articles) ->
      forall a, a ∈ articles -> is_article_processed (snd r) a = Ok true).
Proof.
  unfold HashDatabaseManager.mark_articles_processed.
  destruct articles as [|a0 articles].
  - simpl. split; [lia|]. split; [reflexivity|]. intros _ a Ha. inversion Ha.
  - destruct (mark_loop_bounds now 0 cn (a0 :: articles) db 0) as (Hb & Hdom & Hall).
    split; [exact Hb|]. split; [exact Hdom|].
    intros Hfull a Ha. destruct (Hall Hfull a Ha) as (h & Hh & Hin).
    unfold HashDatabaseManager.is_article_processed. rewrite Hh. simpl. f_equal.
    apply bool_decide_eq_true. apply elem_of_dom. exact Hin.
Qed.

(** X14: the count [mark_articles_processed] returns can be trusted. It lies
    between 0 and the size of the batch, no fingerprint leaves the ledger,
    and when the count equals the size of the batch the fingerprint of
    every record of the batch is in the ledger afterwards. *)
Theorem mark_articles_processed_full_count (now : nat -> Z) (db : Table)
    (articles : list Dict) (cn : gmap string string) :
  let r := mark_articles_processed now db articles cn in
  0 <= fst r <= Z.of_nat (length articles)
  /\ dom db ⊆ dom (snd r)
  /\ (fst r = Z.of_nat (length articles) ->
      forall a, a ∈ articles -> is_article_processed (snd r) a = Ok true).
Proof. apply mark_articles_processed_bounds. Qed.

End Writing.

(** *** Cleaning up *)

(** X15: [cleanup_old_hashes] deletes without reporting. When the cutoff,
    [days_to_keep] days before now, can be computed (at most 999999999 days,
    and a time between the years 1 and 9999), the ledger keeps exactly the
    rows stamped at or after it; when computing it overflows, nothing is
    deleted. In both cases the method returns 0, provided the cursor of the
    DELETE has at most one row, as the row that carries a count is: the
    count is read with two [fetchone] calls. *)
Theorem cleanup_old_hashes_reports_zero (delete_result : Z -> list Z) (now days_to_keep : Z)
    (db : Table) :
  (forall n, (length (delete_result n) <= 1)%nat) ->
  let r := cleanup_old_hashes delete_result now days_to_keep db in
  let cutoff := now - timedelta_days days_to_keep in
  fst r = 0
  /\ (Z.abs days_to_keep <= 999999999 -> 0 <= cutoff <= datetime_max ->
      forall h row,
        snd r !! h = Some row <-> db !! h = Some row /\ cutoff <= processed_at row)
  /\ (~ (Z.abs days_to_keep <= 999999999 /\ 0 <= cutoff <= datetime_max) -> snd r = db).
Proof.
  intros Hcursor. unfold cleanup_old_hashes, timedelta, datetime_sub. cbv zeta.
  destruct (Z.leb_spec (Z.abs days_to_keep) 999999999) as [Hdays|Hdays]; cbn [exc_bind];
    [|split; [reflexivity|]; split; [lia | reflexivity]].
  destruct (Z.leb_spec 0 (now - timedelta_days days_to_keep)) as [Hlow|Hlow];
    cbn [andb]; [|split; [reflexivity|]; split; [lia | reflexivity]].
  destruct (Z.leb_spec (now - timedelta_days days_to_keep) datetime_max) as [Hhigh|Hhigh];
    [|split; [reflexivity|]; split; [lia | reflexivity]].
  set (db' := delete_older_than (now - timedelta_days days_to_keep) db).
  specialize (Hcursor (Z.of_nat (size db) - Z.of_nat (size db'))).
  assert (Hkept : forall h row,
             db' !! h = Some row
             <-> db !! h = Some row /\ now - timedelta_days days_to_keep <= processed_at row).
  { intros h row. unfold db', delete_older_than. rewrite map_lookup_filter_Some. simpl.
    split; intros [H1 H2]; (split; [exact H1 | lia]). }
  destruct (delete_result (Z.of_nat (size db) - Z.of_nat (size db'))) as [|row1 [|row2 rest]];
    simpl in Hcursor; [| |lia]; cbn [fetchone fst snd];
    (split; [reflexivity|]); (split; [intros _ _; exact Hkept | intros Hno; exfalso; lia]).
Qed.

Section Reading.

Variable md5 : string -> string.
Variable order_by : list (string * Row) -> list (string * Row).
Hypothesis order_by_ok : orders_newest_first order_by.

Local Abbreviation generate_content_hash := (HashDatabaseManager.generate_content_hash md5).
Local Abbreviation fingerprint := (HashDatabaseManager.fingerprint md5).
Local Abbreviation is_article_processed := (HashDatabaseManager.is_article_processed md5).
Local Abbreviation get_processed_hashes :=
  (HashDatabaseManager.get_processed_hashes order_by).
Local Abbreviation filter_new_loop := (HashDatabaseManager.filter_new_loop md5).
Local Abbreviation filter_new_articles :=
  (HashDatabaseManager.filter_new_articles md5 order_by).

(** *** The window of recent fingerprints *)

(** X16: [get_processed_hashes] returns the most recent fingerprints. The
    set holds fingerprints of the ledger only, as many as the limit allows
    (all of them when the ledger is smaller), and no fingerprint left out
    was written after one that is in. *)
Theorem processed_hashes_are_the_newest (db : Table) (limit : Z) :
  get_processed_hashes db limit ⊆ dom db
  /\ size (get_processed_hashes db limit) = Nat.min (Z.to_nat limit) (size db)
  /\ forall h h' row row',
       db !! h = Some row -> db !! h' = Some row' ->
       h ∈ get_processed_hashes db limit -> h' ∉ get_processed_hashes db limit ->
       processed_at row' <= processed_at row.
Proof.
  destruct (ordered_rows order_by order_by_ok db) as (Hnodup & Hlen & Hsorted & Hmem).
  unfold HashDatabaseManager.get_processed_hashes.
  set (l := order_by (map_to_list db)) in *. set (n := Z.to_nat limit).
  split; [|split].
  - apply (processed_hashes_subseteq order_by order_by_ok db limit).
  - rewrite size_list_to_set.
    + rewrite length_map, length_take, Hlen. reflexivity.
    + eapply sublist_NoDup; [exact Hnodup|].
      change (map fst (take n l)) with (fst <$> take n l).
      rewrite fmap_take. apply sublist_take.
  - intros h h' row row' Hh Hh' Hin Hout.
    rewrite elem_of_list_to_set in Hin. rewrite elem_of_list_to_set in Hout.
    apply list_elem_of_fmap in Hin as ([h0 r0] & Hh0 & Hin). simpl in Hh0. subst h0.
    assert (Hr0 : r0 = row).
    { apply subseteq_take in Hin. apply Hmem in Hin. congruence. }
    subst r0.
    assert (Hin' : (h', row') ∈ drop n l).
    { apply Hmem in Hh'. rewrite <- (take_drop n l) in Hh'.
      apply elem_of_app in Hh' as [Hh' | Hh']; [|exact Hh'].
      exfalso. apply Hout. apply list_elem_of_fmap. exists (h', row'). split; [reflexivity|].
      exact Hh'. }
    rewrite <- (take_drop n l) in Hsorted.
    apply (StronglySorted_app_1_elem_of _ _ _ _ _ Hsorted Hin Hin').
Qed.

(** *** Filtering a batch *)

Lemma filter_new_loop_hashable (ph : gset string) (articles acc : list Dict) :
  Forall (fun a => generate_content_hash a = Ok (fingerprint a)) articles ->
  filter_new_loop ph articles acc =
  Ok (acc ++ filter (fun a => fingerprint a ∉ ph) articles).
Proof.
  revert acc. induction articles as [|a articles IH]; intros acc Hok; simpl.
  - rewrite filter_nil, app_nil_r. reflexivity.
  - inversion Hok as [|? ? Ha Hrest]; subst. rewrite Ha. simpl.
    rewrite filter_cons. case_decide as Hin.
    + rewrite decide_False by tauto. apply IH, Hrest.
    + rewrite decide_True by exact Hin. rewrite IH by exact Hrest.
      rewrite <- app_assoc. reflexivity.
Qed.

Lemma filter_new_articles_hashable (db : Table) (articles : list Dict) :
  Forall (fun a => generate_content_hash a = Ok (fingerprint a)) articles ->
  filter_new_articles db articles =
  Ok (filter (fun a => fingerprint a ∉ get_processed_hashes db 10000) articles).
Proof.
  intros Hok. unfold HashDatabaseManager.filter_new_articles.
  destruct articles as [|a articles]; [reflexivity|].
  apply (filter_new_loop_hashable _ (a :: articles) [] Hok).
Qed.

(** X17: what [filter_new_articles] keeps. When the fingerprint of every
    record of the batch can be computed the call returns, in the order of
    the batch, exactly the records whose fingerprint is not among the 10000
    most recent ones; records of the batch are not compared with each
    other, and filtering the result again changes nothing. *)
Theorem filter_new_articles_keeps_unseen (db : Table) (articles : list Dict) :
  Forall (fun a => generate_content_hash a = Ok (fingerprint a)) articles ->
  exists out,
    filter_new_articles db articles = Ok out
    /\ sublist out articles
    /\ (forall a, a ∈ out <->
                  a ∈ articles /\ fingerprint a ∉ get_processed_hashes db 10000)
    /\ (forall a, count_occ (decide_rel (=)) out a
                  = if decide (fingerprint a ∈ get_processed_hashes db 10000) then 0%nat
                    else count_occ (decide_rel (=)) articles a)
    /\ filter_new_articles db out = Ok out.
Proof.
  intros Hok. eexists. split; [apply filter_new_articles_hashable, Hok|].
  split; [apply sublist_filter|]. split; [|split].
  - intros a. rewrite list_elem_of_filter. tauto.
  - intros a. clear Hok. induction articles as [|b articles IH].
    + simpl. case_decide; reflexivity.
    + rewrite filter_cons. destruct (decide (b = a)) as [Heq|Hne].
      * subst b. rewrite (count_occ_cons_eq _ articles (eq_refl a)).
        destruct (decide (fingerprint a ∈ get_processed_hashes db 10000)) as [Hin|Hin].
        -- rewrite decide_False by tauto. exact IH.
        -- rewrite decide_True by exact Hin.
           rewrite (count_occ_cons_eq _ _ (eq_refl a)), IH. reflexivity.
      * rewrite (count_occ_cons_neq _ articles Hne).
        destruct (decide (fingerprint b ∉ get_processed_hashes db 10000));
          [rewrite (count_occ_cons_neq _ _ Hne)|]; exact IH.
  - rewrite filter_new_articles_hashable.
    + f_equal. apply list_filter_filter_l. tauto.
    + rewrite Forall_forall in Hok. apply Forall_forall.
      intros a Ha%list_elem_of_filter. apply Hok. tauto.
Qed.

Lemma filter_new_loop_raises (ph : gset string) (l1 l2 acc : list Dict) (bad : Dict)
    (e : exn) :
  Forall (fun a => generate_content_hash a = Ok (fingerprint a)) l1 ->
  generate_content_hash bad = Raise e ->
  filter_new_loop ph (l1 ++ bad :: l2) acc = Raise e.
Proof.
  intros Hok Hbad. revert acc. induction Hok as [|a l1 Ha Hok IH]; intros acc; simpl.
  - rewrite Hbad. reflexivity.
  - rewrite Ha. simpl. case_decide; apply IH.
Qed.

Lemma filter_new_articles_first_failure (db : Table) (l1 l2 : list Dict) (bad : Dict)
    (e : exn) :
  Forall (fun a => generate_content_hash a = Ok (fingerprint a)) l1 ->
  generate_content_hash bad = Raise e ->
  filter_new_articles db (l1 ++ bad :: l2) = Raise e.
Proof.
  intros Hok Hbad. unfold HashDatabaseManager.filter_new_articles.
  destruct (l1 ++ bad :: l2) as [|a rest] eqn:E.
  - destruct l1; discriminate E.
  - rewrite <- E. apply filter_new_loop_raises; assumption.
Qed.

(** X18: one record spoils the batch. If the fingerprint of some record
    cannot be computed (its title or summary is not text, say),
    [filter_new_articles] raises the error of the first such record and
    returns nothing, whatever the ledger holds. *)
Theorem filter_new_articles_raises (db : Table) (l1 l2 : list Dict) (bad : Dict) (e : exn) :
  Forall (fun a => generate_content_hash a = Ok (fingerprint a)) l1 ->
  generate_content_hash bad = Raise e ->
  filter_new_articles db (l1 ++ bad :: l2) = Raise e.
Proof. apply filter_new_articles_first_failure. Qed.

(** X19: after [reset_database] nothing is known any more: every batch whose
    fingerprints can be computed passes [filter_new_articles] whole,
    repeated records included. *)
Theorem reset_database_forgets (db : Table) (articles : list Dict) :
  Forall (fun a => generate_content_hash a = Ok (fingerprint a)) articles ->
  filter_new_articles (reset_database db) articles = Ok articles.
Proof.
  intros Hok. rewrite filter_new_articles_hashable by exact Hok. f_equal.
  assert (Hempty : get_processed_hashes (reset_database db) 10000 = ∅).
  { apply leibniz_equiv. apply elem_of_equiv_empty. intros h Hh.
    apply (processed_hashes_subseteq order_by order_by_ok) in Hh.
    unfold reset_database in Hh. rewrite dom_empty in Hh. apply elem_of_empty in Hh.
    exact Hh. }
  rewrite Hempty. clear. induction articles as [|a articles IH]; [reflexivity|].
  rewrite filter_cons. rewrite decide_True by apply not_elem_of_empty. f_equal. exact IH.
Qed.

(** X20: the two ways to ask whether a record is known agree while the
    ledger fits into the window: with at most 10000 fingerprints in the
    ledger, [is_article_processed] answers [True] for a record exactly when
    [filter_new_articles] drops it. *)
Theorem single_check_agrees_with_filter (db : Table) (a : Dict) :
  generate_content_hash a = Ok (fingerprint a) ->
  (size db <= 10000)%nat ->
  (is_article_processed db a = Ok true <-> filter_new_articles db [a] = Ok []).
Proof.
  intros Ha Hsize.
  rewrite filter_new_articles_hashable by (constructor; [exact Ha | constructor]).
  rewrite (processed_hashes_all order_by order_by_ok db 10000)
    by (change (Z.to_nat 10000) with 10000%nat; exact Hsize).
  unfold HashDatabaseManager.is_article_processed, is_hash_processed. rewrite Ha. simpl.
  rewrite filter_cons, filter_nil. case_decide as Hin.
  - rewrite not_elem_of_dom in Hin. rewrite Hin.
    rewrite bool_decide_eq_false_2 by (intros [? ?]; discriminate).
    split; discriminate.
  - rewrite bool_decide_eq_true_2; [tauto|].
    apply elem_of_dom. destruct (decide (fingerprint a ∈ dom db)); tauto.
Qed.

(** *** Statistics *)



End Reading.

(** *** The content hash of the article store *)

Section Store.

Variable md5 : string -> string.

Local Abbreviation stored_link_and_hash := (DatabaseManager.stored_link_and_hash md5).

Lemma startswith_app (p x : string) : startswith (p +:+ x) p = true.
Proof.
  induction p as [|c p IH]; [destruct x; reflexivity|].
  rewrite append_cons. simpl. rewrite Ascii.eqb_refl. exact IH.
Qed.

Lemma pseudo_link_is_internal (article : Dict) (discriminator : Z) (link : string) :
  DatabaseManager.pseudo_link article discriminator = Ok link ->
  startswith link "internal://" = true.
Proof.
  unfold DatabaseManager.pseudo_link.
  destruct (py_slice_to 50 (get_or article "title" (PyStr "no-title"))) as [t|];
    [|discriminate].
  destruct (as_str (get_or article "source_feed" (PyStr "unknown"))) as [f|]; [|discriminate].
  cbn [exc_bind]. intros [= <-]. apply startswith_app.
Qed.

Lemma pseudo_link_raises (article : Dict) (d1 d2 : Z) (e : exn) :
  DatabaseManager.pseudo_link article d1 = Raise e ->
  DatabaseManager.pseudo_link article d2 = Raise e.
Proof.
  unfold DatabaseManager.pseudo_link.
  destruct (py_slice_to 50 (get_or article "title" (PyStr "no-title"))) as [t|];
    [|exact id].
  destruct (as_str (get_or article "source_feed" (PyStr "unknown"))) as [f|]; [|exact id].
  discriminate.
Qed.

(** X22: the discriminator that [insert_articles] puts into the link of a
    record without a link never reaches the content hash. Whatever two
    discriminators are used, the record is stored under the same hash; the
    links are equal too unless both are synthesized ones; and if preparing
    the record raises, it raises the same error both times. *)
Theorem stored_hash_ignores_discriminator (article : Dict) (d1 d2 : Z) :
  match stored_link_and_hash article d1, stored_link_and_hash article d2 with
  | Ok (link1, hash1), Ok (link2, hash2) =>
      hash1 = hash2
      /\ (link1 = link2
          \/ (startswith link1 "internal://" = true
              /\ startswith link2 "internal://" = true))
  | Raise e1, Raise e2 => e1 = e2
  | _, _ => False
  end.
Proof.
  unfold DatabaseManager.stored_link_and_hash.
  destruct (as_str (get_or article "link" (PyStr ""))) as [link|e]; [|reflexivity].
  cbn [exc_bind]. destruct (String.eqb (strip link) "").
  - destruct (DatabaseManager.pseudo_link article d1) as [l1|e1] eqn:E1.
    + destruct (DatabaseManager.pseudo_link article d2) as [l2|e2] eqn:E2.
      * cbn [exc_bind].
        destruct (as_str (get_or article "title" (PyStr ""))) as [t|]; [|reflexivity].
        destruct (as_str (get_or article "summary" (PyStr ""))) as [s|]; [|reflexivity].
        cbn [exc_bind].
        pose proof (pseudo_link_is_internal article d1 l1 E1) as H1.
        pose proof (pseudo_link_is_internal article d2 l2 E2) as H2.
        rewrite !(store_hash_ignores_internal_link md5) by (right; assumption).
        split; [reflexivity | right; split; assumption].
      * unfold DatabaseManager.pseudo_link in E1, E2.
        destruct (py_slice_to 50 (get_or article "title" (PyStr "no-title")));
          [|discriminate].
        destruct (as_str (get_or article "source_feed" (PyStr "unknown"))); discriminate.
    + rewrite (pseudo_link_raises article d1 d2 e1 E1). reflexivity.
  - cbn [exc_bind].
    destruct (as_str (get_or article "title" (PyStr ""))) as [t|]; [|reflexivity].
    destruct (as_str (get_or article "summary" (PyStr ""))) as [s|]; [|reflexivity].
    cbn [exc_bind]. split; [reflexivity | left; reflexivity].
Qed.

End Store.

(** *** The theorems at concrete inputs *)

Local Abbreviation sample_hash := (HashDatabaseManager.generate_content_hash Sample.md5).
Local Abbreviation sample_fingerprint := (HashDatabaseManager.fingerprint Sample.md5).
Local Abbreviation sample_filter_new :=
  (HashDatabaseManager.filter_new_articles Sample.md5 Sample.order_by_processed_at_desc).
Local Abbreviation sample_window :=
  (HashDatabaseManager.get_processed_hashes Sample.order_by_processed_at_desc).
Local Abbreviation sample_mark :=
  (HashDatabaseManager.mark_articles_processed Sample.md5 Sample.company_name_of).

Lemma fingerprint_ignores_padding_and_link_tail_witness :
  sample_hash (Sample.article " T " "S " (PyStr (Sample.long_link +:+ "?session=2")))
  = sample_hash (Sample.article "T" "S" (PyStr (Sample.long_link +:+ "?session=1"))).
Proof.
  apply (fingerprint_ignores_padding_and_link_tail Sample.md5
           (Sample.article "T" "S" (PyStr (Sample.long_link +:+ "?session=1")))
           (Sample.article " T " "S " (PyStr (Sample.long_link +:+ "?session=2")))
           "T" "S" Sample.long_link "?session=1" "?session=2" " " " " "" " ");
    reflexivity.
Defined.

Lemma mark_articles_processed_stops_at_failure_witness :
  sample_mark (Sample.clock_from 0) ∅
    ([Sample.old_article] ++ Sample.untitled_article :: [Sample.new_article]) ∅
  = sample_mark (Sample.clock_from 0) ∅ [Sample.old_article] ∅.
Proof.
  apply (mark_articles_processed_stops_at_failure Sample.md5 Sample.company_name_of
           (Sample.clock_from 0) ∅ ∅ [Sample.old_article] [Sample.new_article]
           Sample.untitled_article AttributeError).
  reflexivity.
Defined.

Lemma cleanup_old_hashes_reports_zero_witness :
  fst (cleanup_old_hashes Sample.count_row (timedelta_days 31) 30 Sample.small_ledger) = 0.
Proof.
  apply (cleanup_old_hashes_reports_zero Sample.count_row (timedelta_days 31) 30
           Sample.small_ledger).
  intros n. simpl. lia.
Defined.

Lemma processed_hashes_are_the_newest_witness :
  size (sample_window Sample.small_ledger 10000)
  = Nat.min (Z.to_nat 10000) (size Sample.small_ledger).
Proof.
  apply (processed_hashes_are_the_newest Sample.order_by_processed_at_desc
           sample_order_by_ok Sample.small_ledger 10000).
Defined.

Lemma sample_hashable :
  Forall (fun a => sample_hash a = Ok (sample_fingerprint a))
    [Sample.old_article; Sample.new_article; Sample.new_article].
Proof. repeat constructor. Qed.

Lemma filter_new_articles_keeps_unseen_witness :
  exists out,
    sample_filter_new Sample.small_ledger
      [Sample.old_article; Sample.new_article; Sample.new_article] = Ok out
    /\ sample_filter_new Sample.small_ledger out = Ok out.
Proof.
  destruct (filter_new_articles_keeps_unseen Sample.md5 Sample.order_by_processed_at_desc
              Sample.small_ledger
              [Sample.old_article; Sample.new_article; Sample.new_article] sample_hashable)
    as (out & Hout & _ & _ & _ & Hagain).
  exists out. split; assumption.
Defined.

Lemma filter_new_articles_raises_witness :
  sample_filter_new Sample.small_ledger
    ([Sample.old_article; Sample.new_article; Sample.new_article]
     ++ Sample.untitled_article :: [])
  = Raise AttributeError.
Proof.
  apply (filter_new_articles_raises Sample.md5 Sample.order_by_processed_at_desc
           Sample.small_ledger
           [Sample.old_article; Sample.new_article; Sample.new_article] []
           Sample.untitled_article AttributeError sample_hashable).
  reflexivity.
Defined.

Lemma reset_database_forgets_witness :
  sample_filter_new (reset_database Sample.small_ledger)
    [Sample.old_article; Sample.new_article; Sample.new_article]
  = Ok [Sample.old_article; Sample.new_article; Sample.new_article].
Proof.
  apply (reset_database_forgets Sample.md5 Sample.order_by_processed_at_desc
           sample_order_by_ok Sample.small_ledger
           [Sample.old_article; Sample.new_article; Sample.new_article] sample_hashable).
Defined.

Lemma single_check_agrees_with_filter_witness :
  HashDatabaseManager.is_article_processed Sample.md5 Sample.small_ledger Sample.old_article
  = Ok true
  <-> sample_filter_new Sample.small_ledger [Sample.old_article] = Ok [].
Proof.
  apply (single_check_agrees_with_filter Sample.md5 Sample.order_by_processed_at_desc
           sample_order_by_ok Sample.small_ledger Sample.old_article).
  - reflexivity.
  - vm_compute. lia.
Defined.


End LedgerMore.

(** * Further properties of a pipeline run *)

Module ProcessorMore.
Import Py Processor.

Ltac run_to_end :=
  cbv beta iota zeta delta
    [Processor.get_financial_data Processor.send_email_alert
     Processor.mark_articles_processed pbind ptry lift pret enter fst snd hash_db calls].

Section Run.

Context {Pattern : Type}.
Variable re_compile : string -> Z -> option Pattern.
Variable pattern_search : Pattern -> string -> bool.
Variable re_error : string -> Z -> string.
Variable md5 : string -> string.
Variable ledger_company_name_of : string -> string.
Variable order_by :
  list (string * HashDatabaseManager.Row) -> list (string * HashDatabaseManager.Row).
Variable fetch_and_search : exc (list Dict * Z).
Context {FinancialData : Type}.
Variable financial_lookup : list Dict -> FinancialData.
Variable financial_ok_count : FinancialData -> Z.
Variable send_email : list Dict -> FinancialData -> exc bool.
Variable company_name_of : string -> string.
Variable exn_str : exn -> string.

Local Abbreviation generate_content_hash := (HashDatabaseManager.generate_content_hash md5).
Local Abbreviation fingerprint := (HashDatabaseManager.fingerprint md5).
Local Abbreviation fetch_rss_articles := (Processor.fetch_rss_articles fetch_and_search).
Local Abbreviation filter_awards_articles :=
  (Processor.filter_awards_articles Pattern re_compile pattern_search re_error).
Local Abbreviation get_new_articles_only :=
  (Processor.get_new_articles_only md5 order_by).
Local Abbreviation fetched := (Processor.fetched fetch_and_search).
Local Abbreviation filtered_of := (Processor.filtered_of Pattern re_compile pattern_search re_error).
Local Abbreviation new_of := (Processor.new_of md5 order_by).
Local Abbreviation new_batch :=
  (Processor.new_batch Pattern re_compile pattern_search re_error md5 order_by fetch_and_search).
Local Abbreviation process_rss_awards :=
  (Processor.process_rss_awards Pattern re_compile pattern_search re_error md5
     ledger_company_name_of order_by fetch_and_search FinancialData financial_lookup
     financial_ok_count send_email company_name_of exn_str).

Local Abbreviation process_rss_awards_call :=
  (Processor.process_rss_awards_call Pattern re_compile pattern_search re_error md5
     ledger_company_name_of order_by fetch_and_search FinancialData financial_lookup
     financial_ok_count send_email company_name_of exn_str).

Local Abbreviation entered w s := {| hash_db := hash_db w; calls := calls w ++ [s] |}.

(** *** The filter stage *)

Lemma filtered_of_spec (articles : list Dict) :
  filtered_of articles
  = map (FilterEngine.annotate PresetFilters.awards_bagging_filter)
        (filter (fun a => PresetFilters.mentions a "award"
                          || PresetFilters.mentions a "bagging" = true) articles).
Proof.
  unfold Processor.filtered_of. destruct articles as [|a articles]; [reflexivity|].
  change Processor.awards_bagging_filter with PresetFilters.awards_bagging_filter.
  rewrite (FilterEngineMore.apply_rule_regex_free re_compile pattern_search re_error)
    by apply (FilterEngineMore.awards_rule_verdict re_compile pattern_search a).
  cbn [fst FilterEngine.is_active PresetFilters.awards_bagging_filter
       Processor.awards_bagging_filter].
  unfold FilterEngine.rule_matches. f_equal. apply list_filter_iff. intros b.
  rewrite (proj2 (FilterEngineMore.awards_rule_verdict re_compile pattern_search b)).
  reflexivity.
Qed.

(** X23: the filter stage of a run returns, in input order, exactly the
    records whose title, summary or link mentions award or bagging (case
    folded), each a copy annotated with the rule name and priority 5. It
    never raises and does not touch the ledger. *)
Theorem filter_stage_keeps_award_mentions (articles : list Dict) (w : World) :
  filter_awards_articles articles w
  = (Ok (map (FilterEngine.annotate PresetFilters.awards_bagging_filter)
           (filter (fun a => PresetFilters.mentions a "award"
                             || PresetFilters.mentions a "bagging" = true) articles)),
     {| hash_db := hash_db w; calls := calls w ++ [FILTER] |}).
Proof.
  rewrite (ProcessorFacts.filter_awards_articles_run re_compile pattern_search re_error articles w).
  rewrite filtered_of_spec. reflexivity.
Qed.

(** *** The deduplication stage *)

(** X24: deduplication fails open. When the fingerprint of one record of the
    batch cannot be computed, [get_new_articles_only] returns the whole
    batch as new, the records already in the ledger included, and the
    ledger is left as it was. *)
Theorem dedup_fails_open (l1 l2 : list Dict) (bad : Dict) (e : exn) (w : World) :
  Forall (fun a => generate_content_hash a = Ok (fingerprint a)) l1 ->
  generate_content_hash bad = Raise e ->
  get_new_articles_only (l1 ++ bad :: l2) w
  = (Ok (l1 ++ bad :: l2), {| hash_db := hash_db w; calls := calls w ++ [DEDUP] |}).
Proof.
  intros Hok Hbad.
  rewrite (ProcessorFacts.get_new_articles_only_run md5 order_by).
  unfold Processor.new_of.
  rewrite (LedgerMore.filter_new_articles_first_failure md5 order_by _ l1 l2 bad e Hok Hbad).
  reflexivity.
Qed.

(** *** Whole runs *)

Local Abbreviation fetch_warnings :=
  (if 0 <? snd fetched
   then ["RSS database had " +:+ pretty (snd fetched)
         +:+ " insertion errors (likely duplicates)"]
   else []).

Lemma run_without_news (now : nat -> Z) (w : World) :
  new_batch (hash_db w) = [] ->
  process_rss_awards now w
  = (Ok {| success := true; new_articles_count := 0; email_sent := false;
           financial_data_count := 0; errors := []; warnings := fetch_warnings |},
     {| hash_db := hash_db w; calls := calls w ++ [FETCH; FILTER; DEDUP] |}).
Proof.
  intros Hnone. unfold Processor.process_rss_awards, ptry, pbind.
  rewrite (ProcessorFacts.fetch_rss_articles_run fetch_and_search),
    (ProcessorFacts.filter_awards_articles_run re_compile pattern_search re_error),
    (ProcessorFacts.get_new_articles_only_run md5 order_by).
  cbn [hash_db].
  change (new_of (hash_db w) (filtered_of (fst fetched))) with (new_batch (hash_db w)).
  rewrite Hnone. unfold pret. cbn [calls hash_db length]. rewrite <- !app_assoc. reflexivity.
Qed.

(** X25: a failed fetch looks like a quiet run. When fetching raises, the
    run enters no stage after deduplication, leaves the ledger as it was and
    reports success with no error, zero new articles, no mail and one
    warning, the one about 1 insertion error in the feed database. *)
Theorem failed_fetch_reports_success (now : nat -> Z) (w : World) (e : exn) :
  fetch_and_search = Raise e ->
  exists r,
    process_rss_awards now w
    = (Ok r, {| hash_db := hash_db w; calls := calls w ++ [FETCH; FILTER; DEDUP] |})
    /\ success r = true /\ errors r = [] /\ new_articles_count r = 0
    /\ email_sent r = false /\ length (warnings r) = 1%nat
    /\ warnings r = ["RSS database had 1 insertion errors (likely duplicates)"].
Proof.
  intros Hfetch.
  assert (Hfetched : fetched = ([], 1))
    by (unfold Processor.fetched; rewrite Hfetch; reflexivity).
  rewrite run_without_news.
  - rewrite Hfetched. eexists. split; [reflexivity|]. repeat split.
  - unfold Processor.new_batch. rewrite Hfetched. reflexivity.
Qed.

(** Once the processor has been constructed the run does not raise, and
    ends as follows. *)
Lemma run_after_construction (now : nat -> Z) (w : World) :
  exists r w' trace,
    process_rss_awards now w = (Ok r, w')
    /\ calls w' = calls w ++ trace
    /\ new_articles_count r = Z.of_nat (length (new_batch (hash_db w)))
    /\ (success r = true <-> new_batch (hash_db w) = [] \/ email_sent r = true)
    /\ (success r = true <-> errors r = [])
    /\ (email_sent r = true <-> COMMIT ∈ trace)
    /\ (trace = [FETCH; FILTER; DEDUP]
        \/ trace = [FETCH; FILTER; DEDUP; ENRICH; NOTIFY]
        \/ trace = [FETCH; FILTER; DEDUP; ENRICH; NOTIFY; COMMIT])
    /\ dom (hash_db w) ⊆ dom (hash_db w').
Proof.
  destruct (new_batch (hash_db w)) as [|a new] eqn:Enew.
  - rewrite run_without_news by exact Enew.
    eexists _, _, _. split; [reflexivity|]. split; [reflexivity|].
    cbn [success email_sent errors new_articles_count hash_db length].
    split; [reflexivity|]. split; [tauto|]. split; [tauto|].
    split; [|split; [left; reflexivity | reflexivity]].
    split; [discriminate|]. intros H.
    repeat (apply elem_of_cons in H; destruct H as [H|H]; [discriminate H|]).
    apply elem_of_nil in H. destruct H.
  - unfold Processor.process_rss_awards, ptry, pbind.
    rewrite (ProcessorFacts.fetch_rss_articles_run fetch_and_search),
      (ProcessorFacts.filter_awards_articles_run re_compile pattern_search re_error),
      (ProcessorFacts.get_new_articles_only_run md5 order_by).
    cbn [hash_db].
    change (new_of (hash_db w) (filtered_of (fst fetched))) with (new_batch (hash_db w)).
    rewrite Enew. run_to_end.
    destruct (send_email (a :: new) (financial_lookup (a :: new))) as [[|]|e] eqn:Esend;
      run_to_end.
    + destruct (Processor.company_names_loop company_name_of (a :: new) ∅) as [names|e];
        run_to_end.
      * match goal with
        | |- context [HashDatabaseManager.mark_articles_processed ?f ?g ?n ?d ?l ?m] =>
            pose proof (LedgerMore.mark_articles_processed_bounds f g n d l m)
              as (_ & Hdom & _);
            destruct (HashDatabaseManager.mark_articles_processed f g n d l m)
              as [count db']
        end.
        eexists _, _, _. split; [reflexivity|].
        cbn [success email_sent errors new_articles_count hash_db calls snd] in *.
        split; [rewrite <- !app_assoc; reflexivity|].
        split; [reflexivity|].
        split; [split; [right; reflexivity | reflexivity]|].
        split; [split; reflexivity|].
        split; [split; [intros _; do 5 apply list_elem_of_further; apply elem_of_cons; left;
                        reflexivity | reflexivity]|].
        split; [right; right; reflexivity | exact Hdom].
      * eexists _, _, _. split; [reflexivity|].
        cbn [success email_sent errors new_articles_count hash_db calls].
        split; [rewrite <- !app_assoc; reflexivity|].
        split; [reflexivity|].
        split; [split; [right; reflexivity | reflexivity]|].
        split; [split; reflexivity|].
        split; [split; [intros _; do 5 apply list_elem_of_further; apply elem_of_cons; left;
                        reflexivity | reflexivity]|].
        split; [right; right; reflexivity | reflexivity].
    + eexists _, _, _. split; [reflexivity|].
      cbn [success email_sent errors new_articles_count hash_db calls].
      split; [rewrite <- !app_assoc; reflexivity|].
      split; [reflexivity|].
      split; [split; [discriminate | intros [H|H]; discriminate H]|].
      split; [split; discriminate|].
      split; [|split; [right; left; reflexivity | reflexivity]].
      split; [discriminate|]. intros H.
      repeat (apply elem_of_cons in H; destruct H as [H|H]; [discriminate H|]).
      apply elem_of_nil in H. destruct H.
    + eexists _, _, _. split; [reflexivity|].
      cbn [success email_sent errors new_articles_count hash_db calls].
      split; [rewrite <- !app_assoc; reflexivity|].
      split; [reflexivity|].
      split; [split; [discriminate | intros [H|H]; discriminate H]|].
      split; [split; discriminate|].
      split; [|split; [right; left; reflexivity | reflexivity]].
      split; [discriminate|]. intros H.
      repeat (apply elem_of_cons in H; destruct H as [H|H]; [discriminate H|]).
      apply elem_of_nil in H. destruct H.
Qed.

Lemma init_raises_iff (email_config : Dict) :
  (exists e, RSSAwardsProcessor_init email_config = Raise e)
  <-> forall p, p ∈ SMTP_CONFIGS -> email_config !! "provider" <> Some (PyStr p).
Proof.
  unfold RSSAwardsProcessor_init, EmailSender_init.
  destruct (email_config !! "provider") as [provider|].
  - case_bool_decide as Hin.
    + split; [intros [e He]; discriminate He|]. intros Hnone. exfalso.
      apply list_elem_of_fmap in Hin as (p & -> & Hp). exact (Hnone p Hp eq_refl).
    + split; [|eauto]. intros _ p Hp [= ->]. apply Hin.
      apply list_elem_of_fmap. exists p. split; [reflexivity | exact Hp].
  - split; [|eauto]. intros _ p _. discriminate.
Qed.

(** X26: how a call of [process_rss_awards] ends. The call raises exactly
    when the processor cannot be constructed, that is, when the email
    configuration names no provider or one that is not supported; then no
    stage is entered and the ledger is not touched. Otherwise the call
    returns: it counts the new articles it found; it reports success
    exactly when it found none or the notification was sent, and then with
    no error; a notification that was sent is always followed by the
    commit, whose failure leaves success untouched; the stages entered are
    one of three sequences; and no fingerprint leaves the ledger. *)
Theorem run_outcomes (email_config : Dict) (now : nat -> Z) (w : World) :
  ((exists e, RSSAwardsProcessor_init email_config = Raise e)
   <-> forall p, p ∈ SMTP_CONFIGS -> email_config !! "provider" <> Some (PyStr p))
  /\ match RSSAwardsProcessor_init email_config with
     | Raise e => process_rss_awards_call email_config now w = (Raise e, w)
     | Ok _ =>
         exists r w' trace,
           process_rss_awards_call email_config now w = (Ok r, w')
           /\ calls w' = calls w ++ trace
           /\ new_articles_count r = Z.of_nat (length (new_batch (hash_db w)))
           /\ (success r = true <-> new_batch (hash_db w) = [] \/ email_sent r = true)
           /\ (success r = true <-> errors r = [])
           /\ (email_sent r = true <-> COMMIT ∈ trace)
           /\ (trace = [FETCH; FILTER; DEDUP]
               \/ trace = [FETCH; FILTER; DEDUP; ENRICH; NOTIFY]
               \/ trace = [FETCH; FILTER; DEDUP; ENRICH; NOTIFY; COMMIT])
           /\ dom (hash_db w) ⊆ dom (hash_db w')
     end.
Proof.
  split; [apply init_raises_iff|].
  unfold Processor.process_rss_awards_call, pbind, lift.
  destruct (RSSAwardsProcessor_init email_config) as [[]|e]; [|reflexivity].
  apply run_after_construction.
Qed.

(** *** Two runs in a row *)

Lemma annotate_well_formed (rule : FilterEngine.FilterRule) (a : Dict) :
  HashDatabaseManager.well_formed (FilterEngine.annotate rule a)
  = HashDatabaseManager.well_formed a.
Proof.
  unfold HashDatabaseManager.well_formed, FilterEngine.annotate.
  rewrite !lookup_insert_ne by discriminate. reflexivity.
Qed.

Lemma filtered_of_wf (articles : list Dict) :
  HashDatabaseManager.wf_batch articles -> HashDatabaseManager.wf_batch (filtered_of articles).
Proof.
  unfold HashDatabaseManager.wf_batch. rewrite filtered_of_spec, !Forall_forall.
  intros Hwf d Hd. apply list_elem_of_fmap in Hd as (a & -> & Ha%list_elem_of_filter).
  rewrite annotate_well_formed. apply Hwf. tauto.
Qed.

Lemma new_of_wf (db : HashDatabaseManager.Table) (articles : list Dict) :
  HashDatabaseManager.wf_batch articles ->
  new_of db articles
  = filter (fun a => fingerprint a ∉ HashDatabaseManager.get_processed_hashes order_by db 10000)
           articles.
Proof.
  intros Hwf. unfold Processor.new_of.
  rewrite (LedgerFacts.filter_new_articles_wf md5 order_by db articles Hwf). reflexivity.
Qed.

Lemma company_names_loop_wf (articles : list Dict) (names : gmap string string) :
  HashDatabaseManager.wf_batch articles ->
  exists names', Processor.company_names_loop company_name_of articles names = Ok names'.
Proof.
  intros Hwf. revert names. induction Hwf as [|a articles Ha Hwf IH]; intros names; simpl.
  - eauto.
  - assert (Ht : exists t, get_or a "title" (PyStr "") = PyStr t).
    { unfold HashDatabaseManager.well_formed, get_or in *.
      destruct (a !! "title") as [[| |]|]; simpl in *; try discriminate; eauto. }
    destruct Ht as [t ->]. unfold Processor.extract_company_name. simpl.
    destruct (negb (negb (String.eqb t ""))); simpl; apply IH.
Qed.

(** X27: no second notification. Let a run start from well-formed fetched
    records and send its notification. If the ledger it leaves holds at
    most 10000 fingerprints, the next run over the same fetched records
    finds nothing new: it stops after deduplication, sends nothing, reports
    success and leaves the ledger as it is. *)
Theorem no_second_notification (now now' : nat -> Z) (w : World) :
  HashDatabaseManager.orders_newest_first order_by ->
  HashDatabaseManager.wf_batch (fst fetched) ->
  exists r w',
    process_rss_awards now w = (Ok r, w')
    /\ (email_sent r = true -> (size (hash_db w') <= 10000)%nat ->
        exists r2,
          process_rss_awards now' w'
          = (Ok r2, {| hash_db := hash_db w'; calls := calls w' ++ [FETCH; FILTER; DEDUP] |})
          /\ new_articles_count r2 = 0 /\ email_sent r2 = false /\ success r2 = true).
Proof.
  intros Horder Hwf.
  assert (Hfiltered : HashDatabaseManager.wf_batch (filtered_of (fst fetched)))
    by apply filtered_of_wf, Hwf.
  assert (Hbatch : forall db, new_batch db
                   = filter (fun a => fingerprint a
                                      ∉ HashDatabaseManager.get_processed_hashes order_by db 10000)
                            (filtered_of (fst fetched)))
    by (intros db; apply new_of_wf, Hfiltered).
  destruct (new_batch (hash_db w)) as [|a new] eqn:Enew.
  - rewrite run_without_news by exact Enew. eexists _, _. split; [reflexivity|].
    cbn [email_sent]. discriminate.
  - assert (Hnew_wf : HashDatabaseManager.wf_batch (a :: new)).
    { rewrite <- Enew, Hbatch. apply LedgerFacts.wf_batch_filter, Hfiltered. }
    unfold Processor.process_rss_awards at 1. unfold ptry, pbind.
    rewrite (ProcessorFacts.fetch_rss_articles_run fetch_and_search),
      (ProcessorFacts.filter_awards_articles_run re_compile pattern_search re_error),
      (ProcessorFacts.get_new_articles_only_run md5 order_by).
    cbn [hash_db].
    change (new_of (hash_db w) (filtered_of (fst fetched))) with (new_batch (hash_db w)).
    rewrite Enew. run_to_end.
    destruct (send_email (a :: new) (financial_lookup (a :: new))) as [[|]|e] eqn:Esend;
      run_to_end;
      [| eexists _, _; (split; [reflexivity|]); cbn [email_sent]; discriminate ..].
    destruct (company_names_loop_wf (a :: new) ∅ Hnew_wf) as [names ->]. run_to_end.
    change (let (hash_db, _) := w in hash_db) with (hash_db w).
    destruct (LedgerFacts.mark_articles_processed_wf md5 ledger_company_name_of
                order_by Horder now (hash_db w) (a :: new) names Hnew_wf)
      as (db' & -> & Hdom).
    eexists _, _. split; [reflexivity|]. cbn [email_sent hash_db calls].
    intros _ Hsize.
    eexists. split; [|split; [|split]]; [apply run_without_news | reflexivity ..].
    cbn [hash_db]. rewrite Hbatch.
    rewrite (LedgerFacts.processed_hashes_all order_by Horder db' 10000)
      by (change (Z.to_nat 10000) with 10000%nat; exact Hsize).
    apply LedgerFacts.filter_none. intros b Hb Hfresh. apply Hfresh.
    rewrite Hdom. rewrite <- Enew, Hbatch.
    destruct (decide (fingerprint b
                      ∈ HashDatabaseManager.get_processed_hashes order_by (hash_db w) 10000))
      as [Hin|Hout].
    + apply elem_of_union_l.
      apply (LedgerFacts.processed_hashes_subseteq order_by Horder _ _ _ Hin).
    + apply elem_of_union_r. apply elem_of_list_to_set, list_elem_of_fmap.
      exists b. split; [reflexivity|]. apply list_elem_of_filter. tauto.
Qed.

End Run.

(** *** The theorems at concrete inputs *)

Local Abbreviation sample_dedup :=
  (Processor.get_new_articles_only Sample.md5 Sample.order_by_processed_at_desc).
Local Abbreviation sample_run fetch send :=
  (Processor.process_rss_awards Sample.Pattern Sample.re_compile Sample.pattern_search
     Sample.re_error Sample.md5 Sample.company_name_of Sample.order_by_processed_at_desc
     fetch unit Sample.no_financial_data Sample.financial_ok_count
     send Sample.company_name_of Sample.exn_str).

Lemma dedup_fails_open_witness :
  sample_dedup ([Sample.old_article] ++ Sample.untitled_article :: [])
    {| hash_db := Sample.small_ledger; calls := [] |}
  = (Ok ([Sample.old_article] ++ Sample.untitled_article :: []),
     {| hash_db := Sample.small_ledger; calls := [] ++ [DEDUP] |}).
Proof.
  apply (dedup_fails_open Sample.md5 Sample.order_by_processed_at_desc
           [Sample.old_article] [] Sample.untitled_article AttributeError
           {| hash_db := Sample.small_ledger; calls := [] |}).
  - repeat constructor.
  - reflexivity.
Defined.

Lemma failed_fetch_reports_success_witness :
  exists r,
    sample_run Sample.fetch_fails Sample.send_succeeds (Sample.clock_from 0)
      Sample.empty_world
    = (Ok r, {| hash_db := hash_db Sample.empty_world;
                calls := calls Sample.empty_world ++ [FETCH; FILTER; DEDUP] |})
    /\ success r = true /\ errors r = [] /\ new_articles_count r = 0
    /\ email_sent r = false /\ length (warnings r) = 1%nat
    /\ warnings r = ["RSS database had 1 insertion errors (likely duplicates)"].
Proof.
  apply (failed_fetch_reports_success Sample.re_compile Sample.pattern_search
           Sample.re_error Sample.md5 Sample.company_name_of
           Sample.order_by_processed_at_desc Sample.fetch_fails
           Sample.no_financial_data Sample.financial_ok_count Sample.send_succeeds
           Sample.company_name_of Sample.exn_str (Sample.clock_from 0) Sample.empty_world
           (ValueError "feed unreachable")).
  reflexivity.
Defined.

Lemma no_second_notification_witness :
  exists r w',
    sample_run Sample.fetch_one_award Sample.send_succeeds (Sample.clock_from 0)
      Sample.empty_world = (Ok r, w')
    /\ (email_sent r = true -> (size (hash_db w') <= 10000)%nat ->
        exists r2,
          sample_run Sample.fetch_one_award Sample.send_succeeds (Sample.clock_from 9) w'
          = (Ok r2, {| hash_db := hash_db w';
                       calls := calls w' ++ [FETCH; FILTER; DEDUP] |})
          /\ new_articles_count r2 = 0 /\ email_sent r2 = false /\ success r2 = true).
Proof.
  apply (no_second_notification Sample.re_compile Sample.pattern_search Sample.re_error
           Sample.md5 Sample.company_name_of Sample.order_by_processed_at_desc
           Sample.fetch_one_award Sample.no_financial_data Sample.financial_ok_count
           Sample.send_succeeds Sample.company_name_of Sample.exn_str
           (Sample.clock_from 0) (Sample.clock_from 9)
           Sample.empty_world LedgerFacts.sample_order_by_ok).
  repeat constructor.
Defined.

End ProcessorMore.

(** * The financial lookup of a run *)

Module EnrichmentFacts.
Import Py Enrichment.

Section Lookup.

Variable company_name_of : string -> string.
Variable get_company_financial_data : string -> nat -> exc Dict.
Variable exn_str : exn -> string.
Variable max_financial_requests : Z.

Local Abbreviation retry_loop :=
  (Enrichment.retry_loop get_company_financial_data exn_str).
Local Abbreviation financial_loop :=
  (Enrichment.financial_loop company_name_of get_company_financial_data exn_str
     max_financial_requests).
Local Abbreviation get_financial_data :=
  (Enrichment.get_financial_data company_name_of get_company_financial_data exn_str
     max_financial_requests).
Local Abbreviation extract_company_name := (Processor.extract_company_name company_name_of).

(** Two attempts always leave an entry for the company, the figures or an
    error, after one or two calls of the tool. *)
Lemma retry_loop_stores (company_name : string) (st : Lookup) :
  exists data,
    financial_data (retry_loop company_name [0; 1] st)
    = <[company_name := data]> (financial_data st)
    /\ (tool_calls st < tool_calls (retry_loop company_name [0%Z; 1%Z] st)
        <= tool_calls st + 2)%nat.
Proof.
  cbn [Enrichment.retry_loop].
  change (0 <? max_retries - 1) with true. change (1 <? max_retries - 1) with false.
  cbv iota.
  destruct (get_company_financial_data company_name (tool_calls st)) as [data|e].
  - destruct (data !! "error") as [err|].
    + cbn [called tool_calls].
      destruct (get_company_financial_data company_name (S (tool_calls st))) as [data2|e2].
      * destruct (data2 !! "error") as [err2|]; eexists;
          (split; [reflexivity | cbn [store called tool_calls]; lia]).
      * eexists; (split; [reflexivity | cbn [store called tool_calls]; lia]).
    + eexists; (split; [reflexivity | cbn [store called tool_calls]; lia]).
  - cbn [called tool_calls].
    destruct (get_company_financial_data company_name (S (tool_calls st))) as [data2|e2].
    + destruct (data2 !! "error") as [err2|]; eexists;
        (split; [reflexivity | cbn [store called tool_calls]; lia]).
    + eexists; (split; [reflexivity | cbn [store called tool_calls]; lia]).
Qed.

Lemma financial_loop_bounds (articles : list Dict) (processed_count : Z) (st : Lookup) :
  Z.of_nat (size (financial_data st)) = processed_count ->
  (tool_calls st <= 2 * size (financial_data st))%nat ->
  let st' := financial_loop articles processed_count st in
  Z.of_nat (size (financial_data st')) <= Z.max processed_count max_financial_requests
  /\ (tool_calls st' <= 2 * size (financial_data st'))%nat
  /\ forall company_name,
       company_name ∈ dom (financial_data st') ->
       company_name ∈ dom (financial_data st)
       \/ exists article title,
            article ∈ articles /\ article !! "title" = Some title
            /\ extract_company_name title = Ok company_name.
Proof.
  revert processed_count st.
  induction articles as [|article articles IH]; intros processed_count st Hcount Hcalls.
  - simpl. split; [lia|]. split; [exact Hcalls|]. intros c Hc. left. exact Hc.
  - cbn [Enrichment.financial_loop].
    destruct (Z.leb_spec max_financial_requests processed_count) as [Hfull|Hroom].
    { simpl. split; [lia|]. split; [exact Hcalls|]. intros c Hc. left. exact Hc. }
    assert (Hskip :
      let st' := financial_loop articles processed_count st in
      Z.of_nat (size (financial_data st')) <= Z.max processed_count max_financial_requests
      /\ (tool_calls st' <= 2 * size (financial_data st'))%nat
      /\ forall company_name,
           company_name ∈ dom (financial_data st') ->
           company_name ∈ dom (financial_data st)
           \/ exists article0 title,
                article0 ∈ article :: articles /\ article0 !! "title" = Some title
                /\ extract_company_name title = Ok company_name).
    { destruct (IH processed_count st Hcount Hcalls) as (H1 & H2 & H3).
      split; [exact H1|]. split; [exact H2|]. intros c Hc.
      destruct (H3 c Hc) as [Hold | (a & t & Ha & Ht & He)]; [left; exact Hold|].
      right. exists a, t. split; [right; exact Ha | split; assumption]. }
    destruct (article !! "title") as [title|] eqn:Etitle; [|exact Hskip].
    destruct (extract_company_name title) as [company_name|e] eqn:Ename; [|exact Hskip].
    case_bool_decide as Hknown; [exact Hskip|].
    assert (Hfresh : financial_data st !! company_name = None).
    { destruct (financial_data st !! company_name) eqn:E; [|reflexivity].
      exfalso. apply Hknown. eauto. }
    destruct (retry_loop_stores company_name st) as (data & Hdata & Hmore).
    set (st1 := retry_loop company_name [0; 1] st) in *.
    assert (Hsize : size (financial_data st1) = S (size (financial_data st))).
    { rewrite Hdata. apply map_size_insert_None, Hfresh. }
    destruct (IH (processed_count + 1) st1) as (H1 & H2 & H3); [lia | lia |].
    split; [lia|]. split; [exact H2|]. intros c Hc.
    destruct (H3 c Hc) as [Hold | (a & t & Ha & Ht & He)].
    + rewrite Hdata, dom_insert_L in Hold.
      apply elem_of_union in Hold as [Hc1%elem_of_singleton | Hold]; [|left; exact Hold].
      subst c. right. exists article, title. split; [left | split; assumption].
    + right. exists a, t. split; [right; exact Ha | split; assumption].
Qed.

(** X28: the financial lookup is throttled. [get_financial_data] returns
    entries for at most [max_financial_requests] companies (none when the
    limit is not positive), calls the tool at most twice for each company it
    has an entry for, and every company it has an entry for is the company
    name extracted from the title of a record of the batch. *)
Theorem financial_requests_are_bounded (tool_available : bool) (articles : list Dict) :
  let st := get_financial_data tool_available articles in
  Z.of_nat (size (financial_data st)) <= Z.max 0 max_financial_requests
  /\ (tool_calls st <= 2 * size (financial_data st))%nat
  /\ forall company_name,
       company_name ∈ dom (financial_data st) ->
       exists article title,
         article ∈ articles /\ article !! "title" = Some title
         /\ extract_company_name title = Ok company_name.
Proof.
  unfold Enrichment.get_financial_data.
  destruct (negb tool_available || bool_decide (articles = [])).
  - cbn [financial_data tool_calls]. rewrite map_size_empty. split; [lia|]. split; [lia|].
    intros c Hc. rewrite dom_empty_L in Hc. apply elem_of_empty in Hc. destruct Hc.
  - destruct (financial_loop_bounds articles 0
                {| financial_data := ∅; tool_calls := 0 |}) as (H1 & H2 & H3).
    + cbn [financial_data]. rewrite map_size_empty. reflexivity.
    + cbn [tool_calls]. lia.
    + split; [exact H1|]. split; [exact H2|]. intros c Hc.
      destruct (H3 c Hc) as [Hold | Hnew]; [|exact Hnew].
      cbn [financial_data] in Hold. rewrite dom_empty_L in Hold.
      apply elem_of_empty in Hold. destruct Hold.
Qed.

End Lookup.

End EnrichmentFacts.
